(** * ecpprog: the JTAG transport and the flash programming engine

    A shallow embedding of [jtag_tap.c] (TAP state machine, next-hop
    navigation, buffered bit shift) and of the flash pipeline of
    [ecpprog.c] (erase planning, page programming, busy wait, status
    register read), with the properties of the specification stated
    over it. *)

From Stdlib Require Import ZArith Lia Bool String.
From stdpp Require Import base list.

Local Open Scope Z_scope.

(* ===================================================================== *)
(** * Outcomes of the modelled C functions *)
(* ===================================================================== *)

(** A modelled call either returns, runs into undefined behaviour of C
    (an access outside an array), leaves the process through
    [jtag_error], or is still looping when the fuel of the model is
    used up. *)
Inductive result (A : Type) : Type :=
| Ok (a : A)
| Undef
| Exit (status : Z)
| Timeout.

Arguments Ok {A} a.
Arguments Undef {A}.
Arguments Exit {A} status.
Arguments Timeout {A}.

Definition rbind {A B : Type} (r : result A) (k : A -> result B) : result B :=
  match r with
  | Ok a => k a
  | Undef => Undef
  | Exit c => Exit c
  | Timeout => Timeout
  end.

Notation "x <-- r ;; k" := (rbind r (fun x => k))
  (at level 100, r at next level, right associativity).

(** Indexing a C array: reading outside of it is undefined. *)
Definition index {A : Type} (l : list A) (i : Z) : result A :=
  if i <? 0 then Undef
  else match l !! Z.to_nat i with
       | Some a => Ok a
       | None => Undef
       end.

(** Storing into a C array: [a[i] = v]. *)
Definition store {A : Type} (l : list A) (i : Z) (v : A) : result (list A) :=
  if (0 <=? i) && (i <? Z.of_nat (length l))
  then Ok (<[Z.to_nat i := v]> l)
  else Undef.

(** Integer conversions of C, written out. *)
Definition uint8 (z : Z) : Z := z mod 256.
Definition uint16 (z : Z) : Z := z mod 65536.
Definition uint32 (z : Z) : Z := z mod 4294967296.
Definition int32 (z : Z) : Z := (z + 2147483648) mod 4294967296 - 2147483648.

(* ===================================================================== *)
(** * jtag.h and mpsse.h *)
(* ===================================================================== *)

(** Modelled from the spec: [jtag.h], which declares the TAP state
    enumeration, is not among the sources.  The sixteen states are the
    ones of the specification's data model, under the names
    [jtag_tap.c] uses; their numbering is the index column of the
    next-hop table in the comment of [jtag_tap.c]. *)
Inductive TapState : Set :=
| STATE_TEST_LOGIC_RESET
| STATE_RUN_TEST_IDLE
| STATE_SELECT_DR_SCAN
| STATE_CAPTURE_DR
| STATE_SHIFT_DR
| STATE_EXIT1_DR
| STATE_PAUSE_DR
| STATE_EXIT2_DR
| STATE_UPDATE_DR
| STATE_SELECT_IR_SCAN
| STATE_CAPTURE_IR
| STATE_SHIFT_IR
| STATE_EXIT1_IR
| STATE_PAUSE_IR
| STATE_EXIT2_IR
| STATE_UPDATE_IR.

Definition state_code (s : TapState) : Z :=
  match s with
  | STATE_TEST_LOGIC_RESET => 0
  | STATE_RUN_TEST_IDLE => 1
  | STATE_SELECT_DR_SCAN => 2
  | STATE_CAPTURE_DR => 3
  | STATE_SHIFT_DR => 4
  | STATE_EXIT1_DR => 5
  | STATE_PAUSE_DR => 6
  | STATE_EXIT2_DR => 7
  | STATE_UPDATE_DR => 8
  | STATE_SELECT_IR_SCAN => 9
  | STATE_CAPTURE_IR => 10
  | STATE_SHIFT_IR => 11
  | STATE_EXIT1_IR => 12
  | STATE_PAUSE_IR => 13
  | STATE_EXIT2_IR => 14
  | STATE_UPDATE_IR => 15
  end.

Coercion state_code : TapState >-> Z.

Definition all_states : list TapState :=
  [ STATE_TEST_LOGIC_RESET; STATE_RUN_TEST_IDLE; STATE_SELECT_DR_SCAN;
    STATE_CAPTURE_DR; STATE_SHIFT_DR; STATE_EXIT1_DR; STATE_PAUSE_DR;
    STATE_EXIT2_DR; STATE_UPDATE_DR; STATE_SELECT_IR_SCAN; STATE_CAPTURE_IR;
    STATE_SHIFT_IR; STATE_EXIT1_IR; STATE_PAUSE_IR; STATE_EXIT2_IR;
    STATE_UPDATE_IR ].

(** Modelled from the spec: [jtag_error] is called by [main] and is
    neither declared nor defined in the sources ([jtag.h] is not among
    them).  By the specification's error handling a verify mismatch
    aborts the run with a distinct exit status: [jtag_error (status)]
    ends the process with that status. *)
Definition jtag_error {A : Type} (status : Z) : result A := Exit status.

(** Modelled from the spec: [mpsse.h] is not among the sources.  These
    are the transfer-command bits of the FTDI MPSSE engine (the
    specification's TMS-shift and clock-with-data opcodes), with the
    values of FTDI's AN_108, the document [mpsse.c] refers to. *)
Definition MC_DATA_TMS : Z := 0x40.
Definition MC_DATA_IN : Z := 0x20.
Definition MC_DATA_OUT : Z := 0x10.
Definition MC_DATA_LSB : Z := 0x08.
Definition MC_DATA_ICN : Z := 0x04.
Definition MC_DATA_BITS : Z := 0x02.
Definition MC_DATA_OCN : Z := 0x01.

(* ===================================================================== *)
(** * jtag_tap.c: the tables *)
(* ===================================================================== *)

(** [TMS_T]: low nibble for TMS == 0, high nibble for TMS == 1. *)
Definition TMS_T (TMS_HIGH_STATE TMS_LOW_STATE : Z) : Z :=
  Z.lor (Z.shiftl TMS_HIGH_STATE 4) TMS_LOW_STATE.

Definition tms_transitions : list Z :=
  [ (* STATE_TEST_LOGIC_RESET *) TMS_T STATE_TEST_LOGIC_RESET STATE_RUN_TEST_IDLE;
    (* STATE_RUN_TEST_IDLE    *) TMS_T STATE_SELECT_DR_SCAN   STATE_RUN_TEST_IDLE;
    (* STATE_SELECT_DR_SCAN   *) TMS_T STATE_SELECT_IR_SCAN   STATE_CAPTURE_DR;
    (* STATE_CAPTURE_DR       *) TMS_T STATE_EXIT1_DR         STATE_SHIFT_DR;
    (* STATE_SHIFT_DR         *) TMS_T STATE_EXIT1_DR         STATE_SHIFT_DR;
    (* STATE_EXIT1_DR         *) TMS_T STATE_UPDATE_DR        STATE_PAUSE_DR;
    (* STATE_PAUSE_DR         *) TMS_T STATE_EXIT2_DR         STATE_PAUSE_DR;
    (* STATE_EXIT2_DR         *) TMS_T STATE_UPDATE_DR        STATE_SHIFT_DR;
    (* STATE_UPDATE_DR        *) TMS_T STATE_SELECT_DR_SCAN   STATE_RUN_TEST_IDLE;
    (* STATE_SELECT_IR_SCAN   *) TMS_T STATE_TEST_LOGIC_RESET STATE_CAPTURE_IR;
    (* STATE_CAPTURE_IR       *) TMS_T STATE_EXIT1_IR         STATE_SHIFT_IR;
    (* STATE_SHIFT_IR         *) TMS_T STATE_EXIT1_IR         STATE_SHIFT_IR;
    (* STATE_EXIT1_IR         *) TMS_T STATE_UPDATE_IR        STATE_PAUSE_IR;
    (* STATE_PAUSE_IR         *) TMS_T STATE_EXIT2_IR         STATE_PAUSE_IR;
    (* STATE_EXIT2_IR         *) TMS_T STATE_UPDATE_IR        STATE_SHIFT_IR;
    (* STATE_UPDATE_IR        *) TMS_T STATE_SELECT_DR_SCAN   STATE_RUN_TEST_IDLE ].

(** [BITSTR]: sixteen bits, the leftmost argument is bit 15. *)
Definition BITSTR (A B C D E F G H I J K L M N O P : Z) : Z :=
  fold_right Z.lor 0
    [ Z.shiftl A 15; Z.shiftl B 14; Z.shiftl C 13; Z.shiftl D 12;
      Z.shiftl E 11; Z.shiftl F 10; Z.shiftl G 9; Z.shiftl H 8;
      Z.shiftl I 7; Z.shiftl J 6; Z.shiftl K 5; Z.shiftl L 4;
      Z.shiftl M 3; Z.shiftl N 2; Z.shiftl O 1; Z.shiftl P 0 ].

(** The index is the current state; bit i is the value TMS must take to
    go towards state i. *)
Definition tms_map : list Z :=
  [ (* STATE_TEST_LOGIC_RESET *) BITSTR 0 0 0 0  0 0 0 0  0 0 0 0  0 0 0 1;
    (* STATE_RUN_TEST_IDLE    *) BITSTR 1 1 1 1  1 1 1 1  1 1 1 1  1 1 0 1;
    (* STATE_SELECT_DR_SCAN   *) BITSTR 1 1 1 1  1 1 1 0  0 0 0 0  0 0 1 1;
    (* STATE_CAPTURE_DR       *) BITSTR 1 1 1 1  1 1 1 1  1 1 1 0  0 1 1 1;
    (* STATE_SHIFT_DR         *) BITSTR 1 1 1 1  1 1 1 1  1 1 1 0  1 1 1 1;
    (* STATE_EXIT1_DR         *) BITSTR 1 1 1 1  1 1 1 1  0 0 0 0  1 1 1 1;
    (* STATE_PAUSE_DR         *) BITSTR 1 1 1 1  1 1 1 1  1 0 1 1  1 1 1 1;
    (* STATE_EXIT2_DR         *) BITSTR 1 1 1 1  1 1 1 1  0 0 0 0  1 1 1 1;
    (* STATE_UPDATE_DR        *) BITSTR 1 1 1 1  1 1 1 0  1 1 1 1  1 1 0 1;
    (* STATE_SELECT_IR_SCAN   *) BITSTR 0 0 0 0  0 0 0 1  1 1 1 1  1 1 1 1;
    (* STATE_CAPTURE_IR       *) BITSTR 1 1 1 1  0 0 1 1  1 1 1 1  1 1 1 1;
    (* STATE_SHIFT_IR         *) BITSTR 1 1 1 1  0 1 1 1  1 1 1 1  1 1 1 1;
    (* STATE_EXIT1_IR         *) BITSTR 1 0 0 0  0 1 1 1  1 1 1 1  1 1 1 1;
    (* STATE_PAUSE_IR         *) BITSTR 1 1 0 1  1 1 1 1  1 1 1 1  1 1 1 1;
    (* STATE_EXIT2_IR         *) BITSTR 1 0 0 0  0 1 1 1  1 1 1 1  1 1 1 1;
    (* STATE_UPDATE_IR        *) BITSTR 0 1 1 1  1 1 1 1  1 1 1 1  1 1 0 1 ].

(* ===================================================================== *)
(** * The transport and the TAP state *)
(* ===================================================================== *)

(** What a run does to the outside, in program order. *)
Inductive event : Type :=
| EvAck (tms : bool)           (* a call of jtag_state_ack(tms) *)
| EvWrite (bytes : list Z)     (* ftdi_write_data: bytes sent to the FTDI *)
| EvRead (n : Z)               (* n bytes collected with ftdi_read_data *)
| EvEcp5Status (status : Z)    (* print_ecp5_status_register(status) *)
| EvNxStatus (status : Z).     (* print_nx_status_register(status) *)

(** [current_state] is the static variable of [jtag_tap.c].  [ftdi_rx]
    is the sequence of bytes the FTDI chip answers with, whatever it
    may be, and [rx_pos] how many of them have been consumed; [trace]
    records the events so far, oldest first. *)
Record jtag : Type := mkJtag {
  current_state : Z;
  ftdi_rx : nat -> Z;
  rx_pos : nat;
  trace : list event
}.

Definition jtag_at (s : Z) (rx : nat -> Z) : jtag :=
  {| current_state := s; ftdi_rx := rx; rx_pos := 0%nat; trace := [] |}.

Definition emit (e : event) (st : jtag) : jtag :=
  {| current_state := current_state st; ftdi_rx := ftdi_rx st;
     rx_pos := rx_pos st; trace := trace st ++ [e] |}.

Definition jtag_current_state (st : jtag) : Z := current_state st.

Definition jtag_set_current_state (state : Z) (st : jtag) : jtag :=
  {| current_state := uint8 state; ftdi_rx := ftdi_rx st;
     rx_pos := rx_pos st; trace := trace st |}.

(** [mpsse_xfer(data_buffer, send_length, receive_length)]: the first
    [send_length] bytes of the buffer are written, then
    [receive_length] bytes are read into the start of the buffer.  The
    lengths are [uint16_t].  A failing write or read ends the process
    and is not modelled: the transport is taken to work. *)
Definition mpsse_xfer (data_buffer : list Z) (send_length receive_length : Z)
    (st : jtag) : list Z * jtag :=
  let send_length := uint16 send_length in
  let receive_length := uint16 receive_length in
  let st1 :=
    if send_length =? 0 then st
    else emit (EvWrite (take (Z.to_nat send_length) data_buffer)) st in
  if receive_length =? 0 then (data_buffer, st1)
  else
    let n := Z.to_nat receive_length in
    let got := map (fun k => ftdi_rx st1 (rx_pos st1 + k)%nat) (seq 0 n) in
    (got ++ drop n data_buffer,
     emit (EvRead receive_length)
       {| current_state := current_state st1; ftdi_rx := ftdi_rx st1;
          rx_pos := (rx_pos st1 + n)%nat; trace := trace st1 |}).

(** [jtag_state_ack]: the transition table applied to the state
    variable. *)
Definition jtag_state_ack (tms : bool) (st : jtag) : result jtag :=
  e <-- index tms_transitions (jtag_current_state st) ;;
  let st1 := emit (EvAck tms) st in
  if tms then Ok (jtag_set_current_state (Z.land (Z.shiftr e 4) 0xf) st1)
  else Ok (jtag_set_current_state (Z.land e 0xf) st1).

(** The [while] loop of [jtag_go_to_state], one iteration per unit of
    fuel. *)
Fixpoint go_to_state_loop (fuel : nat) (state : Z) (st : jtag) : result jtag :=
  if jtag_current_state st =? state then Ok st
  else
    match fuel with
    | O => Timeout
    | S fuel' =>
        m <-- index tms_map (jtag_current_state st) ;;
        let tms := Z.land (Z.shiftr m state) 1 in
        let data :=
          [ Z.lor (Z.lor (Z.lor MC_DATA_TMS MC_DATA_LSB) MC_DATA_ICN) MC_DATA_BITS;
            0;
            tms ] in
        st1 <-- jtag_state_ack (negb (tms =? 0)) st ;;
        go_to_state_loop fuel' state (snd (mpsse_xfer data 3 0 st1))
    end.

Fixpoint ack_times (n : nat) (tms : bool) (st : jtag) : result jtag :=
  match n with
  | O => Ok st
  | S n' => st1 <-- jtag_state_ack tms st ;; ack_times n' tms st1
  end.

Definition jtag_go_to_state (fuel : nat) (state : Z) (st : jtag) : result jtag :=
  if state =? STATE_TEST_LOGIC_RESET then
    st1 <-- ack_times 5 true st ;;
    let data :=
      [ Z.lor (Z.lor MC_DATA_TMS MC_DATA_LSB) MC_DATA_BITS; 5 - 1; 0x1f (* 0b11111 *) ] in
    Ok (snd (mpsse_xfer data 3 0 st1))
  else go_to_state_loop fuel state st.

(* ===================================================================== *)
(** * jtag_tap.c: the buffered shift *)
(* ===================================================================== *)

(** [uint8_t data[1024]], the write pointer [ptr] into it and
    [uint8_t rx_cnt].  [data] holds the bytes below [ptr]; a write at
    or above [data + 1024] is outside the array. *)
Record cmdbuf : Type := mkCmdbuf {
  data : list Z;
  rx_cnt : Z
}.

Definition DATA_SIZE : Z := 1024.

(** The command of one clock pulse: a one-bit TMS command that also
    reads, with the level of TDI in bit 7 and the level of TMS in
    bit 0 of its data byte. *)
Definition pulse_bytes (tms tdi : bool) : list Z :=
  [ Z.lor (Z.lor (Z.lor MC_DATA_TMS MC_DATA_IN) MC_DATA_LSB) MC_DATA_BITS;
    0;
    Z.lor (if tdi then 0x80 else 0) (if tms then 0x01 else 0) ].

(** [jtag_pulse_clock_and_read_tdo]: three bytes stored through [ptr],
    one more byte expected back. *)
Definition jtag_pulse_clock_and_read_tdo (tms tdi : bool) (b : cmdbuf)
    : result cmdbuf :=
  if Z.of_nat (length (data b)) + 3 <=? DATA_SIZE then
    Ok {| data := data b ++ pulse_bytes tms tdi;
          rx_cnt := uint8 (rx_cnt b + 1) |}
  else Undef.

(** The inner loop [for (j = 0; j < 8 && bit_count-- > 0; ++j)];
    [left] is [8 - j].  When [j < 8] fails [bit_count] is not touched;
    when the second test fails it has still been decremented. *)
Fixpoint shift_byte (left : nat) (must_end : bool) (byte_out bit_count : Z)
    (st : jtag) (b : cmdbuf) : result (Z * jtag * cmdbuf) :=
  match left with
  | O => Ok (bit_count, st, b)
  | S left' =>
      if 0 <? bit_count then
        let bit_count := uint32 (bit_count - 1) in
        let tms := (bit_count =? 0) && must_end in
        st1 <-- (if tms then jtag_state_ack true st else Ok st) ;;
        b1 <-- jtag_pulse_clock_and_read_tdo tms
                 (negb (Z.land byte_out 1 =? 0)) b ;;
        shift_byte left' must_end (Z.shiftr byte_out 1) bit_count st1 b1
      else Ok (uint32 (bit_count - 1), st, b)
  end.

(** The outer loop [for (i = 0; i < byte_count; ++i)]; [n] is
    [byte_count - i]. *)
Fixpoint shift_bytes (n : nat) (i : Z) (input_data : list Z) (must_end : bool)
    (bit_count : Z) (st : jtag) (b : cmdbuf) : result (jtag * cmdbuf) :=
  match n with
  | O => Ok (st, b)
  | S n' =>
      byte_out <-- index input_data i ;;
      r <-- shift_byte 8 must_end byte_out bit_count st b ;;
      let '(bit_count1, st1, b1) := r in
      shift_bytes n' (i + 1) input_data must_end bit_count1 st1 b1
  end.

(** [for (i = 0; i < rx_cnt/8; i++) output_data[i] = data[7+i*8]]; [n]
    is [rx_cnt/8 - i]. *)
Fixpoint copy_out (n : nat) (i : Z) (buf output_data : list Z)
    : result (list Z) :=
  match n with
  | O => Ok output_data
  | S n' =>
      v <-- index buf (7 + i * 8) ;;
      out1 <-- store output_data i v ;;
      copy_out n' (i + 1) buf out1
  end.

(** [jtag_tap_shift].  The input is read before the output is written,
    so a caller that passes one array for both gives it twice here. *)
Definition jtag_tap_shift (input_data output_data : list Z) (data_bits : Z)
    (must_end : bool) (st : jtag) : result (list Z * jtag) :=
  let bit_count := data_bits in
  let byte_count := uint32 (data_bits + 7) / 8 in
  r <-- shift_bytes (Z.to_nat byte_count) 0 input_data must_end bit_count st
          {| data := []; rx_cnt := 0 |} ;;
  let '(st1, b) := r in
  let '(buf, st2) :=
    mpsse_xfer (data b) (Z.of_nat (length (data b))) (rx_cnt b) st1 in
  out <-- copy_out (Z.to_nat (rx_cnt b / 8)) 0 buf output_data ;;
  Ok (out, st2).

(* ===================================================================== *)
(** * Reading the trace *)
(* ===================================================================== *)

(** The arguments of the [jtag_state_ack] calls, in order. *)
Definition acks_of (tr : list event) : list bool :=
  flat_map (fun e => match e with EvAck b => [b] | _ => [] end) tr.

(** The byte sequences written to the FTDI, in order. *)
Definition writes_of (tr : list event) : list (list Z) :=
  flat_map (fun e => match e with EvWrite bs => [bs] | _ => [] end) tr.

(** The byte counts read back, in order. *)
Definition reads_of (tr : list event) : list Z :=
  flat_map (fun e => match e with EvRead n => [n] | _ => [] end) tr.

(** The status values printed. *)
Definition prints_of (tr : list event) : list Z :=
  flat_map (fun e => match e with
                     | EvEcp5Status s | EvNxStatus s => [s]
                     | _ => []
                     end) tr.

(** The writes that shift data: their opcode has [MC_DATA_IN]. *)
Definition shift_writes (tr : list event) : list (list Z) :=
  flat_map (fun bs => match bs with
                      | op :: _ =>
                          if Z.land op MC_DATA_IN =? 0 then [] else [bs]
                      | [] => []
                      end) (writes_of tr).

(** The number of TAP-state advances of a run. *)
Definition advances (st : jtag) : nat := length (acks_of (trace st)).

(** What the MPSSE engine puts on TMS for a sequence of TMS commands
    (opcode with [MC_DATA_TMS] and [MC_DATA_BITS]): the byte after the
    opcode is the number of bits less one, the next byte carries the
    TMS levels, bit 0 first.  Only TMS commands are read: the clocks of
    a clock-only command, which leave TMS where it is, are not
    listed. *)
Fixpoint mpsse_tms (bytes : list Z) : list bool :=
  match bytes with
  | op :: len :: dat :: rest =>
      if negb (Z.land op MC_DATA_TMS =? 0) && negb (Z.land op MC_DATA_BITS =? 0)
      then map (fun k => Z.testbit dat (Z.of_nat k)) (seq 0 (Z.to_nat (len + 1)))
             ++ mpsse_tms rest
      else []
  | _ => []
  end.

(** The command bytes of a sequence of clock pulses, each given as the
    levels of TMS and TDI. *)
Definition pulses_bytes (ps : list (bool * bool)) : list Z :=
  flat_map (fun p => pulse_bytes (fst p) (snd p)) ps.

(** The TMS levels of the first [m] pulses of a shift that has
    [bit_count] bits to go: TMS is raised on the last bit, and only
    when the shift must end. *)
Definition tms_flags (must_end : bool) (bit_count : Z) (m : nat) : list bool :=
  map (fun j => must_end && (bit_count - Z.of_nat j =? 1)) (seq 0 m).

(** The TMS pulses of a whole run. *)
Definition tms_pulses (tr : list event) : list bool :=
  flat_map mpsse_tms (writes_of tr).

(* ===================================================================== *)
(** * ecpprog.c: the flash commands *)
(* ===================================================================== *)

Definition FC_WE : Z := 0x06.     (* Write Enable *)
Definition FC_RD : Z := 0x03.     (* Read Data *)
Definition FC_PP : Z := 0x02.     (* Page Program *)
Definition FC_SE : Z := 0x20.     (* Sector Erase 4kb *)
Definition FC_BE32 : Z := 0x52.   (* Block Erase 32kb *)
Definition FC_BE64 : Z := 0xD8.   (* Block Erase 64kb *)
Definition FC_CE : Z := 0xC7.     (* Chip Erase *)
Definition FC_RSR1 : Z := 0x05.   (* Read Status Register 1 *)
Definition FC_RSR2 : Z := 0x35.   (* Read Status Register 2 *)

(** The flash functions talk to the device through the SPI bridge
    only; a run of them is recorded as the calls of the bridge, with
    the bytes handed over, and the calls of [flash_wait]. *)
Inductive flash_event : Type :=
| SpiXfer (bytes : list Z)   (* xfer_spi: one transfer, chip select released *)
| SpiSend (bytes : list Z)   (* send_spi: chip select stays asserted *)
| FlashWait.                 (* flash_wait(), which polls until ready *)

Definition read_status_1 : list flash_event := [ SpiXfer [FC_RSR1; 0] ].
Definition read_status_2 : list flash_event := [ SpiXfer [FC_RSR2; 0] ].
Definition flash_read_status : list flash_event := read_status_1 ++ read_status_2.

Definition flash_write_enable (verbose : bool) : list flash_event :=
  (if verbose then flash_read_status else []) ++
  [ SpiXfer [FC_WE] ] ++
  (if verbose then flash_read_status else []).

Definition flash_bulk_erase : list flash_event := [ SpiXfer [FC_CE] ].

(** [{ cmd, (uint8_t)(addr >> 16), (uint8_t)(addr >> 8), (uint8_t)addr }] *)
Definition command (cmd addr : Z) : list Z :=
  [ cmd; uint8 (Z.shiftr addr 16); uint8 (Z.shiftr addr 8); uint8 addr ].

Definition flash_4kB_sector_erase (addr : Z) : list flash_event :=
  [ SpiXfer (command FC_SE addr) ].

Definition flash_32kB_sector_erase (addr : Z) : list flash_event :=
  [ SpiXfer (command FC_BE32 addr) ].

Definition flash_64kB_sector_erase (addr : Z) : list flash_event :=
  [ SpiXfer (command FC_BE64 addr) ].

(** [flash_prog(addr, data, n)]: the command and address with chip
    select held, then the first [n] bytes of [data]. *)
Definition flash_prog (addr : Z) (data : list Z) (n : Z) : list flash_event :=
  [ SpiSend (command FC_PP addr); SpiXfer (take (Z.to_nat n) data) ].

Definition flash_start_read (addr : Z) : list flash_event :=
  [ SpiSend (command FC_RD addr) ].

(** [flash_continue_read(data, n)]: [n] zero bytes go out, the bytes of
    the flash come back in their place. *)
Definition flash_continue_read (n : Z) : list flash_event :=
  [ SpiSend (replicate (Z.to_nat n) 0) ].

(** [flash_wait]: [status k] is the byte the (k+1)-th read of status
    register 1 returns.  The result is the number of reads made when
    the function returns.  Each iteration of [while (1)] takes one unit
    of fuel. *)
Fixpoint flash_wait_from (fuel : nat) (status : nat -> Z) (count : Z)
    (polls : nat) : result nat :=
  match fuel with
  | O => Timeout
  | S fuel' =>
      let data1 := status polls in
      if Z.land data1 0x01 =? 0 then
        if count <? 2 then flash_wait_from fuel' status (count + 1) (S polls)
        else Ok (S polls)
      else flash_wait_from fuel' status 0 (S polls)
  end.

Definition flash_wait (fuel : nat) (status : nat -> Z) : result nat :=
  flash_wait_from fuel status 0 0%nat.

(** The busy bit, bit 0 of status register 1, reads clear. *)
Definition ready (status_byte : Z) : bool := Z.land status_byte 0x01 =? 0.

(** The reads number [k-2], [k-1] and [k] (counting from 1) all showed
    the busy bit clear. *)
Definition three_clear (status : nat -> Z) (k : nat) : Prop :=
  (3 <= k)%nat /\
  ready (status (k - 1)%nat) = true /\
  ready (status (k - 2)%nat) = true /\
  ready (status (k - 3)%nat) = true.

(** [k] reads are the first that end with three clear reads in a row. *)
Definition first_three_clear (status : nat -> Z) (k : nat) : Prop :=
  three_clear status k /\ forall j, (j < k)%nat -> ~ three_clear status j.

(** How many clear reads in a row the first [n] reads end with. *)
Fixpoint clear_run (status : nat -> Z) (n : nat) : nat :=
  match n with
  | O => O
  | S m => if ready (status m) then S (clear_run status m) else O
  end.

(* ===================================================================== *)
(** * ecpprog.c: erasing *)
(* ===================================================================== *)

Definition int64 (z : Z) : Z :=
  (z + 9223372036854775808) mod 18446744073709551616 - 9223372036854775808.

(** [block_size], [begin_addr] and [end_addr] of [main]; [rw_offset]
    and the three results are [int], [file_size] is [long]. *)
Definition erase_range (erase_block_size rw_offset file_size : Z) : Z * Z * Z :=
  let block_size := int32 (Z.shiftl erase_block_size 10) in
  let block_mask := int32 (block_size - 1) in
  let begin_addr := int32 (Z.land rw_offset (Z.lnot block_mask)) in
  let end_addr :=
    int32 (Z.land (int64 (rw_offset + file_size + block_mask))
                  (Z.lnot block_mask)) in
  (block_size, begin_addr, end_addr).

(** The body of the erase loop for the block at [addr]: write enable,
    the erase command the [switch] selects, the status when verbose,
    and the wait. *)
Definition erase_step (verbose : bool) (erase_block_size addr : Z)
    : list flash_event :=
  flash_write_enable verbose ++
  (if erase_block_size =? 4 then flash_4kB_sector_erase addr
   else if erase_block_size =? 32 then flash_32kB_sector_erase addr
   else if erase_block_size =? 64 then flash_64kB_sector_erase addr
   else []) ++
  (if verbose then flash_read_status else []) ++
  [ FlashWait ].

(** [for (addr = begin_addr; addr < end_addr; addr += block_size)] *)
Fixpoint erase_loop (fuel : nat) (verbose : bool)
    (erase_block_size block_size addr end_addr : Z)
    : result (list flash_event) :=
  if addr <? end_addr then
    match fuel with
    | O => Timeout
    | S fuel' =>
        rest <-- erase_loop fuel' verbose erase_block_size block_size
                   (int32 (addr + block_size)) end_addr ;;
        Ok (erase_step verbose erase_block_size addr ++ rest)
    end
  else Ok [].

Definition erase_blocks (fuel : nat) (verbose : bool)
    (erase_block_size rw_offset file_size : Z) : result (list flash_event) :=
  let '(block_size, begin_addr, end_addr) :=
    erase_range erase_block_size rw_offset file_size in
  erase_loop fuel verbose erase_block_size block_size begin_addr end_addr.

(** The erase commands of a run: the transfers that start with one of
    the three erase opcodes. *)
Definition erase_commands (evs : list flash_event) : list (list Z) :=
  flat_map (fun e =>
              match e with
              | SpiXfer (cmd :: a) =>
                  if (cmd =? FC_SE) || (cmd =? FC_BE32) || (cmd =? FC_BE64)
                  then [cmd :: a] else []
              | _ => []
              end) evs.

(** The opcode that erases a block of [erase_block_size] KiB. *)
Definition erase_opcode (erase_block_size : Z) : Z :=
  if erase_block_size =? 4 then FC_SE
  else if erase_block_size =? 32 then FC_BE32
  else FC_BE64.

(** The start addresses, in increasing order, of the blocks of [B]
    bytes that make up the aligned range from [offset] rounded down to
    [offset + len] rounded up. *)
Definition aligned_blocks (B offset len : Z) : list Z :=
  map (fun k => (offset / B + Z.of_nat k) * B)
      (seq 0 (Z.to_nat ((offset + len + B - 1) / B - offset / B))).

(* ===================================================================== *)
(** * ecpprog.c: programming *)
(* ===================================================================== *)

Definition read_blocksize : Z := 256 * 32.

Fixpoint bytes_eqb (a b : list Z) : bool :=
  match a, b with
  | [], [] => true
  | x :: a', y :: b' => (x =? y) && bytes_eqb a' b'
  | _, _ => false
  end.

(** [memcpy(buffer_tx, src + off, n)] into [uint8_t buffer_tx[256]]:
    the bytes copied.  Reading past the source or writing past the
    destination is undefined. *)
Definition memcpy_tx (src : list Z) (off n : Z) : result (list Z) :=
  if (0 <=? n) && (n <=? 256) && (0 <=? off)
     && (off + n <=? Z.of_nat (length src))
  then Ok (take (Z.to_nat n) (drop (Z.to_nat off) src))
  else Undef.

(** The inner loop of the program branch,
    [for (block_offset = 0; block_offset < rc; block_offset += written)].
    [read_blocksize] is [unsigned], so the comparison and the
    subtraction with it are unsigned.  The calls of the flash
    functions are recorded as events, with the addresses and the bytes
    [main] hands over; what the SPI bridge does with a transfer of
    that size is the matter of [jtag_tap_shift]. *)
Fixpoint page_loop (fuel : nat) (verbose : bool)
    (rw_offset addr rc block_offset : Z) (buffer_file : list Z)
    : result (list flash_event) :=
  if block_offset <? rc then
    match fuel with
    | O => Timeout
    | S fuel' =>
        let write_addr := int32 (rw_offset + addr + block_offset) in
        let written := int32 (256 - Z.rem write_addr 256) in
        let written :=
          if uint32 (block_offset + written) >? read_blocksize
          then int32 (uint32 (read_blocksize - block_offset))
          else written in
        buffer_tx <-- memcpy_tx buffer_file block_offset written ;;
        let evs :=
          flash_write_enable verbose ++
          flash_prog write_addr buffer_tx written ++
          [ FlashWait ] in
        rest <-- page_loop fuel' verbose rw_offset addr rc
                   (int32 (block_offset + written)) buffer_file ;;
        Ok (evs ++ rest)
    end
  else Ok [].

(** The outer loop, [for (addr = 0; true; addr += rc)].  [file] is what
    is left of the input file; [fread] delivers [read_blocksize] bytes
    of it, or what is left, into the start of [buffer_file].
    [readback a n] stands for the [n] bytes the flash returns when read
    from address [a]; they are compared with the file when the verify
    is interleaved.  The inner loop moves on by at least one byte per
    turn, so [rc] units of fuel let it run to its end. *)
Fixpoint program_loop (fuel : nat) (verbose interleaved : bool)
    (readback : Z -> Z -> list Z) (rw_offset addr : Z)
    (file buffer_file : list Z) : result (list flash_event) :=
  match fuel with
  | O => Timeout
  | S fuel' =>
      let rc := Z.min (Z.of_nat (length file)) read_blocksize in
      if rc <=? 0 then Ok []
      else
        let buffer_file :=
          take (Z.to_nat rc) file ++ drop (Z.to_nat rc) buffer_file in
        evs <-- page_loop (Z.to_nat rc) verbose rw_offset addr rc 0 buffer_file ;;
        chk <-- (if interleaved then
                   let buffer_flash := readback (int32 (rw_offset + addr)) rc in
                   if bytes_eqb (take (Z.to_nat rc) buffer_file) buffer_flash
                   then Ok (flash_start_read (int32 (rw_offset + addr)) ++
                            flash_continue_read rc ++ [ FlashWait ])
                   else jtag_error 3
                 else Ok []) ;;
        rest <-- program_loop fuel' verbose interleaved readback rw_offset
                   (int32 (addr + rc)) (drop (Z.to_nat rc) file) buffer_file ;;
        Ok (evs ++ chk ++ rest)
  end.

(** The page program commands of a run: the flash address of the
    command header and the data bytes that follow it. *)
Fixpoint prog_commands_from (header : option Z) (evs : list flash_event)
    : list (Z * list Z) :=
  match evs with
  | [] => []
  | SpiSend [cmd; a2; a1; a0] :: rest =>
      prog_commands_from
        (if cmd =? FC_PP then Some (a2 * 65536 + a1 * 256 + a0) else None) rest
  | SpiXfer d :: rest =>
      match header with
      | Some a => (a, d) :: prog_commands_from None rest
      | None => prog_commands_from None rest
      end
  | _ :: rest => prog_commands_from None rest
  end.

Definition prog_commands (evs : list flash_event) : list (Z * list Z) :=
  prog_commands_from None evs.

(** The page program commands of one pass of the inner loop over the
    buffer read for the flash addresses from [base] on: from [a], each
    command takes the bytes of the buffer up to the end of the page of
    its address, or up to the end of the buffer when that comes first,
    at least one byte, and the next one goes on where it stopped. *)
Fixpoint page_chain (buffer_file : list Z) (base a : Z)
    (cs : list (Z * list Z)) : Prop :=
  match cs with
  | [] => True
  | (a', d) :: rest =>
      a' = a /\
      (1 <= length d)%nat /\
      Z.of_nat (length d) =
        Z.min (256 - a mod 256) (read_blocksize - (a - base)) /\
      d = take (length d) (drop (Z.to_nat (a - base)) buffer_file) /\
      page_chain buffer_file base (a + Z.of_nat (length d)) rest
  end.

(** A command stays within one page of 256 bytes. *)
Definition within_page (c : Z * list Z) : Prop :=
  (1 <= length (snd c))%nat /\
  fst c / 256 = (fst c + Z.of_nat (length (snd c)) - 1) / 256.

(* ===================================================================== *)
(** * lattice_cmds.h and the device identity *)
(* ===================================================================== *)

Definition READ_ID : Z := 0xE0.
Definition LSC_READ_STATUS : Z := 0x3C.

Inductive device_type : Set :=
| TYPE_NONE
| TYPE_ECP5
| TYPE_NX.

Record device_info : Type := mkDevice {
  name : option string;
  id : Z;
  type : device_type
}.

(** [static struct device_info connected_device = {0};] *)
Definition connected_device : device_info :=
  {| name := None; id := 0; type := TYPE_NONE |}.

Definition ecp_devices : list (string * Z) :=
  [ ("LFE5U-12"%string,    0x21111043);
    ("LFE5U-25"%string,    0x41111043);
    ("LFE5U-45"%string,    0x41112043);
    ("LFE5U-85"%string,    0x41113043);
    ("LFE5UM-25"%string,   0x01111043);
    ("LFE5UM-45"%string,   0x01112043);
    ("LFE5UM-85"%string,   0x01113043);
    ("LFE5UM5G-25"%string, 0x81111043);
    ("LFE5UM5G-45"%string, 0x81112043);
    ("LFE5UM5G-85"%string, 0x81113043) ].

Definition nx_devices : list (string * Z) :=
  [ (* Crosslink NX *)
    ("LIFCL-17"%string,    0x010F0043);
    ("LIFCL-40-ES"%string, 0x010F1043);
    ("LIFCL-40"%string,    0x110F1043);
    (* Certus NX *)
    ("LFD2NX-17"%string,   0x310F0043);
    ("LFD2NX-40"%string,   0x310F1043);
    (* Certus Pro NX *)
    ("LFCPNX-100"%string,  0x010F4043) ].

(** The search loops of [print_idcode]: the first entry with the given
    id. *)
Fixpoint lookup_device (devices : list (string * Z)) (idcode : Z)
    : option string :=
  match devices with
  | [] => None
  | (device_name, device_id) :: rest =>
      if idcode =? device_id then Some device_name
      else lookup_device rest idcode
  end.

(** [print_idcode]: what it does to [connected_device] (the line it
    prints is left out). *)
Definition print_idcode (idcode : Z) (dev : device_info) : device_info :=
  let dev := {| name := name dev; id := idcode; type := type dev |} in
  match lookup_device ecp_devices idcode with
  | Some n => {| name := Some n; id := id dev; type := TYPE_ECP5 |}
  | None =>
      match lookup_device nx_devices idcode with
      | Some n => {| name := Some n; id := id dev; type := TYPE_NX |}
      | None => dev
      end
  end.

(** [for (i = 0; i < n; i++) v = data[i] << (w - 8) | v >> 8], in a
    [w]-bit unsigned variable. *)
Definition format_le (w : Z) (bytes : list Z) : Z :=
  fold_left (fun v d => Z.lor (Z.shiftl d (w - 8) mod 2 ^ w) (Z.shiftr v 8))
            bytes 0.

(** [read_idcode]: the id read, and the identity after [print_idcode]. *)
Definition read_idcode (fuel : nat) (dev : device_info) (st : jtag)
    : result (device_info * jtag) :=
  let data := [ READ_ID; 0; 0; 0 ] in
  st1 <-- jtag_go_to_state fuel STATE_SHIFT_IR st ;;
  r <-- jtag_tap_shift data data 8 true st1 ;;
  let '(data, st2) := r in
  data <-- store data 0 0 ;;
  st3 <-- jtag_go_to_state fuel STATE_SHIFT_DR st2 ;;
  r <-- jtag_tap_shift data data 32 true st3 ;;
  let '(data, st4) := r in
  Ok (print_idcode (format_le 32 (take 4 data)) dev, st4).

(** [print_ecp5_status_register] and [print_nx_status_register] are
    recorded with the value they print. *)
Definition print_ecp5_status_register (status : Z) (st : jtag) : jtag :=
  emit (EvEcp5Status status) st.

Definition print_nx_status_register (status : Z) (st : jtag) : jtag :=
  emit (EvNxStatus status) st.

(** [read_status_register]. *)
Definition read_status_register (fuel : nat) (dev : device_info) (st : jtag)
    : result jtag :=
  let data := [ LSC_READ_STATUS; 0; 0; 0; 0; 0; 0; 0 ] in
  st1 <-- jtag_go_to_state fuel STATE_SHIFT_IR st ;;
  r <-- jtag_tap_shift data data 8 true st1 ;;
  let '(data, st2) := r in
  data <-- store data 0 0 ;;
  st3 <-- jtag_go_to_state fuel STATE_SHIFT_DR st2 ;;
  match type dev with
  | TYPE_ECP5 =>
      r <-- jtag_tap_shift data data 32 true st3 ;;
      let '(data, st4) := r in
      Ok (print_ecp5_status_register (format_le 32 (take 4 data)) st4)
  | TYPE_NX =>
      r <-- jtag_tap_shift data data 64 true st3 ;;
      let '(data, st4) := r in
      Ok (print_nx_status_register (format_le 64 (take 8 data)) st4)
  | TYPE_NONE => Ok st3
  end.


(* ===================================================================== *)
(** * The FTDI side of a bit read *)
(* ===================================================================== *)

(** The comment in [jtag_tap_shift] on what comes back: every one-bit
    read returns the FTDI's input shift register, into which the
    sampled TDO has just been shifted at the top.  [sr] is the register
    as its eight bits, bit 0 first. *)
Definition byte_of_bits (bits : list bool) : Z :=
  fold_right (fun (b : bool) acc => (if b then 1 else 0) + 2 * acc) 0 bits.

Definition sr_shift (sr : list bool) (tdo : bool) : list bool :=
  drop 1 sr ++ [tdo].

Fixpoint ftdi_answers (sr : list bool) (tdo : list bool) : list Z :=
  match tdo with
  | [] => []
  | b :: rest =>
      let sr1 := sr_shift sr b in
      byte_of_bits sr1 :: ftdi_answers sr1 rest
  end.

(** What a shift leaves in the output buffer when [m] bytes are copied
    out: the eighth, the sixteenth, ... of the bytes received, in the
    first [m] places; the rest of the buffer is as it was. *)
Definition delivered (st : jtag) (m : nat) (output_data : list Z) : list Z :=
  map (fun i => ftdi_rx st (rx_pos st + (7 + 8 * i))%nat) (seq 0 m)
  ++ drop m output_data.

(** A byte stream that starts with the given bytes and goes on with
    [rest]. *)
Definition stream_of (bytes : list Z) (rest : nat -> Z) : nat -> Z :=
  fun k => match bytes !! k with
           | Some b => b
           | None => rest (k - length bytes)%nat
           end.

(* ===================================================================== *)
(** * jtag_tap.c: start of day and waiting *)
(* ===================================================================== *)

(** [jtag_init]: [jtag_platform_init] is an empty hook; the state
    variable is set and the reset sequence is sent.  The reset branch
    of [jtag_go_to_state] has no loop and needs no fuel. *)
Definition jtag_init (st : jtag) : result jtag :=
  jtag_go_to_state 0 STATE_TEST_LOGIC_RESET
    (jtag_set_current_state STATE_TEST_LOGIC_RESET st).

(** Modelled from the spec: [mpsse.h] is not among the sources.  The
    two clock-only opcodes of the MPSSE engine (the specification's
    clock-only commands for timed waits), with the values of FTDI's
    AN_108. *)
Definition MC_CLK_N : Z := 0x8E.
Definition MC_CLK_N8 : Z := 0x8F.

(** [jtag_wait_time]: [bytes] is [uint16_t], [remain] is [uint8_t];
    the second transfer reuses the array with its first two bytes
    replaced. *)
Definition jtag_wait_time (microseconds : Z) (st : jtag) : jtag :=
  let bytes := uint16 (microseconds / 8) in
  let remain := uint8 (microseconds mod 8) in
  let data0 :=
    [ MC_CLK_N8; Z.land bytes 0xFF; Z.land (Z.shiftr bytes 8) 0xFF ] in
  let '(data1, st1) := mpsse_xfer data0 3 0 st in
  if remain =? 0 then st1
  else snd (mpsse_xfer (<[1%nat := remain]> (<[0%nat := MC_CLK_N]> data1)) 2 0 st1).

(** The state a TAP that is in state [s] reaches when it is clocked
    with the given levels of TMS: the transition table, followed pulse
    by pulse. *)
Definition tap_next (s : Z) (tms : bool) : result Z :=
  e <-- index tms_transitions s ;;
  Ok (if tms then Z.land (Z.shiftr e 4) 0xf else Z.land e 0xf).

Fixpoint tap_replay (s : Z) (pulses : list bool) : result Z :=
  match pulses with
  | [] => Ok s
  | tms :: rest => u <-- tap_next s tms ;; tap_replay u rest
  end.

(** The states a TAP can be in after exactly [n] pulses from [s]. *)
Fixpoint tap_reach (n : nat) (s : Z) : list Z :=
  match n with
  | O => [s]
  | S n' =>
      (match tap_next s false with Ok u => tap_reach n' u | _ => [] end) ++
      (match tap_next s true with Ok u => tap_reach n' u | _ => [] end)
  end.

(** What the MPSSE engine puts on TDI for a sequence of TMS commands:
    bit 7 of the data byte, held for all the bits of the command. *)
Fixpoint mpsse_tdi (bytes : list Z) : list bool :=
  match bytes with
  | op :: len :: dat :: rest =>
      if negb (Z.land op MC_DATA_TMS =? 0) && negb (Z.land op MC_DATA_BITS =? 0)
      then replicate (Z.to_nat (len + 1)) (Z.testbit dat 7) ++ mpsse_tdi rest
      else []
  | _ => []
  end.

(** The TDI levels of the data shifts of a run (the writes of
    [jtag_tap_shift]), in order. *)
Definition shift_tdi (tr : list event) : list bool :=
  flat_map mpsse_tdi (shift_writes tr).

(** The pulses of a shift of [data_bits] bits: bit [k] of the shift is
    bit [k mod 8] of byte [k / 8] of the input, and TMS is raised on
    the last bit when the shift must end. *)
Definition shift_pulses (must_end : bool) (input_data : list Z)
    (data_bits : Z) : list (bool * bool) :=
  map (fun k =>
         (must_end && (data_bits - Z.of_nat k =? 1),
          Z.testbit (nth (k / 8) input_data 0) (Z.of_nat (k mod 8))))
      (seq 0 (Z.to_nat data_bits)).

(** The state a shift of [data_bits] bits leaves, from the state [st1]
    the acknowledgement of its last bit has led to: the commands
    written in one piece, [data_bits mod 256] bytes read back. *)
Definition after_shift (must_end : bool) (input_data : list Z) (data_bits : Z)
    (st1 : jtag) : jtag :=
  let st2 :=
    if data_bits =? 0 then st1
    else emit (EvWrite (pulses_bytes (shift_pulses must_end input_data data_bits)))
           st1 in
  if data_bits mod 256 =? 0 then st2
  else
    emit (EvRead (data_bits mod 256))
      {| current_state := current_state st2; ftdi_rx := ftdi_rx st2;
         rx_pos := (rx_pos st2 + Z.to_nat (data_bits mod 256))%nat;
         trace := trace st2 |}.

(* ===================================================================== *)
(** * ecpprog.c: the SPI bridge *)
(* ===================================================================== *)

(** [bit_reverse]; the argument is [uint8_t in]. *)
Definition bit_reverse (in_ : Z) : Z :=
  let out := if Z.land in_ 0x01 =? 0 then 0x00 else 0x80 in
  let out := Z.lor out (if Z.land in_ 0x02 =? 0 then 0x00 else 0x40) in
  let out := Z.lor out (if Z.land in_ 0x04 =? 0 then 0x00 else 0x20) in
  let out := Z.lor out (if Z.land in_ 0x08 =? 0 then 0x00 else 0x10) in
  let out := Z.lor out (if Z.land in_ 0x10 =? 0 then 0x00 else 0x08) in
  let out := Z.lor out (if Z.land in_ 0x20 =? 0 then 0x00 else 0x04) in
  let out := Z.lor out (if Z.land in_ 0x40 =? 0 then 0x00 else 0x02) in
  let out := Z.lor out (if Z.land in_ 0x80 =? 0 then 0x00 else 0x01) in
  out.

(** [for (i = 0; i < len; i++) data[i] = bit_reverse(data[i])]; [n] is
    [len - i]. *)
Fixpoint reverse_bits (n : nat) (i : Z) (data : list Z) : result (list Z) :=
  match n with
  | O => Ok data
  | S n' =>
      v <-- index data i ;;
      d <-- store data i (bit_reverse v) ;;
      reverse_bits n' (i + 1) d
  end.

(** [xfer_spi(data, len)]: the shift is done in place, [data] is its
    input and its output. *)
Definition xfer_spi (fuel : nat) (data : list Z) (len : Z) (st : jtag)
    : result (list Z * jtag) :=
  d1 <-- reverse_bits (Z.to_nat (uint32 len)) 0 data ;;
  st1 <-- (if jtag_current_state st =? STATE_SHIFT_DR then Ok st
           else jtag_go_to_state fuel STATE_SHIFT_DR st) ;;
  r <-- jtag_tap_shift d1 d1 (uint32 (len * 8)) true st1 ;;
  let '(d2, st2) := r in
  d3 <-- reverse_bits (Z.to_nat (uint32 len)) 0 d2 ;;
  Ok (d3, st2).

(** [send_spi(data, len)] *)
Definition send_spi (fuel : nat) (data : list Z) (len : Z) (st : jtag)
    : result (list Z * jtag) :=
  d1 <-- reverse_bits (Z.to_nat (uint32 len)) 0 data ;;
  st1 <-- jtag_go_to_state fuel STATE_SHIFT_DR st ;;
  r <-- jtag_tap_shift d1 d1 (uint32 (len * 8)) false st1 ;;
  let '(d2, st2) := r in
  d3 <-- reverse_bits (Z.to_nat (uint32 len)) 0 d2 ;;
  Ok (d3, st2).

(** [flash_prog(addr, data, n)] carried out on the TAP: the command
    with [send_spi], the data with [xfer_spi]; the result is what is
    left in [data]. *)
Definition flash_prog_on_tap (fuel : nat) (addr : Z) (data : list Z) (n : Z)
    (st : jtag) : result (list Z * jtag) :=
  r <-- send_spi fuel (command FC_PP addr) 4 st ;;
  xfer_spi fuel data n (snd r).

(** [flash_reset]: three shifts of the same array, each done in
    place. *)
Definition flash_reset (fuel : nat) (st : jtag) : result jtag :=
  let data := [ 0xff; 0xff; 0xff; 0xff; 0xff; 0xff; 0xff; 0xff ] in
  st1 <-- jtag_go_to_state fuel STATE_SHIFT_DR st ;;
  r <-- jtag_tap_shift data data 64 true st1 ;;
  let '(data, st2) := r in
  st3 <-- jtag_go_to_state fuel STATE_SHIFT_DR st2 ;;
  r <-- jtag_tap_shift data data 2 true st3 ;;
  let '(data, st4) := r in
  st5 <-- jtag_go_to_state fuel STATE_SHIFT_DR st4 ;;
  r <-- jtag_tap_shift data data 8 true st5 ;;
  Ok (snd r).

(* ===================================================================== *)
(** * ecpprog.c: the ECP5 commands *)
(* ===================================================================== *)

(** [enter_spi_background_mode] *)
Definition enter_spi_background_mode (fuel : nat) (st : jtag) : result jtag :=
  let data := [ 0x3A; 0; 0; 0 ] in
  st1 <-- jtag_go_to_state fuel STATE_SHIFT_IR st ;;
  r <-- jtag_tap_shift data data 8 true st1 ;;
  let '(data, st2) := r in
  data <-- store data 0 0xFE ;;
  data <-- store data 1 0x68 ;;
  st3 <-- jtag_go_to_state fuel STATE_SHIFT_DR st2 ;;
  r <-- jtag_tap_shift data data 16 true st3 ;;
  jtag_go_to_state fuel STATE_RUN_TEST_IDLE (snd r).

(** [ecp_jtag_cmd(cmd)] *)
Definition ecp_jtag_cmd (fuel : nat) (cmd : Z) (st : jtag) : result jtag :=
  let data := [ cmd ] in
  st1 <-- jtag_go_to_state fuel STATE_SHIFT_IR st ;;
  r <-- jtag_tap_shift data data 8 true st1 ;;
  st2 <-- jtag_go_to_state fuel STATE_RUN_TEST_IDLE (snd r) ;;
  Ok (jtag_wait_time 32 st2).

(** [ecp_jtag_cmd8(cmd, param)] *)
Definition ecp_jtag_cmd8 (fuel : nat) (cmd param : Z) (st : jtag)
    : result jtag :=
  let data := [ cmd ] in
  st1 <-- jtag_go_to_state fuel STATE_SHIFT_IR st ;;
  r <-- jtag_tap_shift data data 8 true st1 ;;
  let '(data, st2) := r in
  data <-- store data 0 param ;;
  st3 <-- jtag_go_to_state fuel STATE_SHIFT_DR st2 ;;
  r <-- jtag_tap_shift data data 8 true st3 ;;
  st4 <-- jtag_go_to_state fuel STATE_RUN_TEST_IDLE (snd r) ;;
  Ok (jtag_wait_time 32 st4).

(* ===================================================================== *)
(** * Erasing and programming, seen from the flash *)
(* ===================================================================== *)

(** The pulses of the first [m] bits of a byte, with [bit_count] bits
    of the shift to go, and the pulses of the first [m] bits of the
    input from byte [i] on. *)
Definition byte_pulses (must_end : bool) (byte_out bit_count : Z) (m : nat)
    : list (bool * bool) :=
  map (fun j =>
         (must_end && (bit_count - Z.of_nat j =? 1),
          Z.testbit byte_out (Z.of_nat j)))
      (seq 0 m).

Definition pulses_from (must_end : bool) (input_data : list Z) (i : nat)
    (bit_count : Z) (m : nat) : list (bool * bool) :=
  map (fun k =>
         (must_end && (bit_count - Z.of_nat k =? 1),
          Z.testbit (nth (i + k / 8) input_data 0) (Z.of_nat (k mod 8))))
      (seq 0 m).

(* ===================================================================== *)
(** * Reading a navigation *)
(* ===================================================================== *)

(** The same state with the events [tr] in front of its trace. *)
Definition prepend (tr : list event) (st : jtag) : jtag :=
  {| current_state := current_state st; ftdi_rx := ftdi_rx st;
     rx_pos := rx_pos st; trace := tr ++ trace st |}.

(** The state [st] after the events [evs] that have led the state
    variable to [t] and have read nothing. *)
Definition moved (t : Z) (evs : list event) (st : jtag) : jtag :=
  {| current_state := t; ftdi_rx := ftdi_rx st;
     rx_pos := rx_pos st; trace := trace st ++ evs |}.

(** The events of [jtag_go_to_state (t)] when the state variable holds
    [s], read off a run of the function. *)
Definition nav_events (s t : TapState) : list event :=
  match jtag_go_to_state 8 t (jtag_at s (fun _ => 0)) with
  | Ok st => trace st
  | _ => []
  end.

(** Can a TAP in state [s] be in state [t] after exactly [n] pulses? *)
Definition reachable_in (n : nat) (s t : Z) : bool :=
  existsb (Z.eqb t) (tap_reach n s).

(** No sequence of fewer than [d] pulses leads from [s] to [t]. *)
Definition no_shorter (d : nat) (s t : Z) : bool :=
  forallb (fun n => negb (reachable_in n s t)) (seq 0 d).

(* ===================================================================== *)
(** * Reading a shift *)
(* ===================================================================== *)

(** The state [st] after the events [evs] that have led the state
    variable to [u] and have consumed [n] of the bytes received. *)
Definition advanced (u : Z) (evs : list event) (n : nat) (st : jtag) : jtag :=
  {| current_state := u; ftdi_rx := ftdi_rx st;
     rx_pos := (rx_pos st + n)%nat; trace := trace st ++ evs |}.

(** The events of a shift of [data_bits] bits: the acknowledgement of
    the last bit when the shift must end, the commands written in one
    piece, and the [data_bits mod 256] bytes read back. *)
Definition shift_events (must_end : bool) (input_data : list Z)
    (data_bits : Z) : list event :=
  (if must_end && (0 <? data_bits) then [EvAck true] else []) ++
  (if data_bits =? 0 then []
   else [EvWrite (pulses_bytes (shift_pulses must_end input_data data_bits))])
  ++
  (if data_bits mod 256 =? 0 then [] else [EvRead (data_bits mod 256)]).

(** The first [n] bits of a byte array, each byte from bit 0 on. *)
Definition input_bits (input_data : list Z) (n : nat) : list bool :=
  map (fun k => Z.testbit (nth (k / 8) input_data 0) (Z.of_nat (k mod 8)))
      (seq 0 n).

(** The bits of a byte array as SPI sends them: byte after byte, each
    byte from bit 7 down to bit 0. *)
Definition spi_bits (bytes : list Z) : list bool :=
  flat_map (fun b => map (fun j => Z.testbit b (7 - Z.of_nat j)) (seq 0 8))
           bytes.

(** The bits of a byte array as JTAG shifts them: byte after byte, each
    byte from bit 0 up to bit 7. *)
Definition jtag_bits (bytes : list Z) : list bool :=
  flat_map (fun b => map (fun j => Z.testbit b (Z.of_nat j)) (seq 0 8)) bytes.

(** The byte that eight bits received over SPI make up: the first bit
    is bit 7. *)
Definition spi_byte (bits : list bool) : Z := byte_of_bits (rev bits).

(** A byte array after the loop that reverses its first [n] bytes. *)
Definition reversed (n : nat) (data : list Z) : list Z :=
  map bit_reverse (take n data) ++ drop n data.

(** The bytes of a C array of [uint8_t]. *)
Definition bytes_ok (data : list Z) : Prop :=
  Forall (fun b => 0 <= b < 256) data.

(** What [xfer_spi] and [send_spi] leave in the first [n] places of the
    array: the eighth, the sixteenth, ... of the bytes received from
    [st] on, with their bits reversed. *)
Definition spi_received (st : jtag) (n : nat) (data : list Z) : list Z :=
  map (fun i => bit_reverse (ftdi_rx st (rx_pos st + (7 + 8 * i))%nat))
      (seq 0 n)
  ++ drop n data.

(* ===================================================================== *)
(** * Reading numbers and devices *)
(* ===================================================================== *)

(** The number a byte array holds, least significant byte first. *)
Definition le_value (bytes : list Z) : Z :=
  fold_right (fun d acc => d + 256 * acc) 0 bytes.

(** The two device tables of [print_idcode] as one, each entry with
    the type the function gives to a device found in its table. *)
Definition known_devices : list (string * Z * device_type) :=
  map (fun e => (fst e, snd e, TYPE_ECP5)) ecp_devices ++
  map (fun e => (fst e, snd e, TYPE_NX)) nx_devices.

(** The length of the status register [read_status_register] shifts
    out for a device of the given type. *)
Definition status_bits (ty : device_type) : Z :=
  match ty with
  | TYPE_ECP5 => 32
  | TYPE_NX => 64
  | TYPE_NONE => 0
  end.

(* ===================================================================== *)
(** * The TAP on the other end of the wire *)
(* ===================================================================== *)

(** What the MPSSE engine puts on TMS and TDI for a sequence of TMS
    commands, pulse by pulse: the TMS levels are the bits of the data
    byte from bit 0 on, TDI is bit 7 of the data byte.  Only TMS
    commands are read: the clocks of a clock-only command, during
    which TMS and TDI stay where they are, are not listed. *)
Fixpoint mpsse_wire (bytes : list Z) : list (bool * bool) :=
  match bytes with
  | op :: len :: dat :: rest =>
      if negb (Z.land op MC_DATA_TMS =? 0) && negb (Z.land op MC_DATA_BITS =? 0)
      then map (fun k => (Z.testbit dat (Z.of_nat k), Z.testbit dat 7))
               (seq 0 (Z.to_nat (len + 1)))
             ++ mpsse_wire rest
      else []
  | _ => []
  end.

(** The pulses of a whole run, each with its levels of TMS and TDI. *)
Definition wire (tr : list event) : list (bool * bool) :=
  flat_map mpsse_wire (writes_of tr).

(** A TAP clocked with the given pulses from state [s]: the state it
    ends in, by the transition table, and the levels of TDI at the
    pulses it has met in Shift-IR and in Shift-DR, the bits that these
    pulses shift into its instruction register and into its data
    register. *)
Fixpoint tap_clock (s : Z) (pulses : list (bool * bool))
    : result (Z * list bool * list bool) :=
  match pulses with
  | [] => Ok (s, [], [])
  | (tms, tdi) :: rest =>
      u <-- tap_next s tms ;;
      r <-- tap_clock u rest ;;
      let '(t, ir, dr) := r in
      Ok (t,
          (if s =? STATE_SHIFT_IR then [tdi] else []) ++ ir,
          (if s =? STATE_SHIFT_DR then [tdi] else []) ++ dr)
  end.

(** The address a command carries in its three address bytes. *)
Definition command_addr (bytes : list Z) : Z :=
  match bytes with
  | [_; a2; a1; a0] => a2 * 65536 + a1 * 256 + a0
  | _ => 0
  end.

(* ===================================================================== *)
(** * ecpprog.c: reading back and verifying, on the TAP *)
(* ===================================================================== *)

(** [memset (data, 0, n)]: clearing beyond the end of the array is
    undefined. *)
Definition memset_0 (data : list Z) (n : Z) : result (list Z) :=
  if (0 <=? n) && (n <=? Z.of_nat (length data))
  then Ok (replicate (Z.to_nat n) 0 ++ drop (Z.to_nat n) data)
  else Undef.

(** [flash_start_read (addr)] carried out on the TAP: the command goes
    out with [send_spi]; what comes back into the array [command] is
    not used. *)
Definition flash_start_read_on_tap (fuel : nat) (addr : Z) (st : jtag)
    : result jtag :=
  r <-- send_spi fuel (command FC_RD addr) 4 st ;;
  Ok (snd r).

(** [flash_continue_read (data, n)] carried out on the TAP: [n] bytes
    of [data] are cleared and shifted with [send_spi], in place; the
    result is what is left in [data]. *)
Definition flash_continue_read_on_tap (fuel : nat) (data : list Z) (n : Z)
    (st : jtag) : result (list Z * jtag) :=
  d <-- memset_0 data n ;;
  send_spi fuel d n st.

(** The loop of the read branch of [main],
    [for (addr = 0; addr < read_size; addr += read_blocksize)].
    [buffer] is what the array of [read_blocksize] bytes holds when it
    is declared.  The result is the bytes written to the file and the
    state.  [read_blocksize] is [unsigned], so the comparison with it
    is unsigned and so is the size handed to [fwrite].  [turns] bounds
    the turns of the loop, [fuel] is for [jtag_go_to_state]. *)
Fixpoint read_loop_on_tap (turns fuel : nat) (read_size addr : Z)
    (buffer : list Z) (st : jtag) : result (list Z * jtag) :=
  if addr <? read_size then
    match turns with
    | O => Timeout
    | S turns' =>
        r <-- flash_continue_read_on_tap fuel buffer read_blocksize st ;;
        let size :=
          if uint32 (read_size - addr) >? read_blocksize then read_blocksize
          else uint32 (read_size - addr) in
        rest <-- read_loop_on_tap turns' fuel read_size
                   (int32 (addr + read_blocksize)) buffer (snd r) ;;
        Ok (take (Z.to_nat size) (fst r) ++ fst rest, snd rest)
    end
  else Ok ([], st).

(** The read branch of [main]. *)
Definition read_mode_on_tap (turns fuel : nat) (rw_offset read_size : Z)
    (buffer : list Z) (st : jtag) : result (list Z * jtag) :=
  st1 <-- flash_start_read_on_tap fuel rw_offset st ;;
  read_loop_on_tap turns fuel read_size 0 buffer st1.

(** The loop of the verify branch of [main],
    [for (addr = 0; addr < file_size; addr += read_blocksize)].
    [file] is what is left of the input file; [fread] delivers
    [read_blocksize] bytes of it, or what is left.  [buffer_flash] is
    what the array of [read_blocksize] bytes holds when it is declared;
    [memcmp] looks at the first [rc] bytes of the two arrays. *)
Fixpoint verify_loop_on_tap (turns fuel : nat) (file_size addr : Z)
    (file buffer_flash : list Z) (st : jtag) : result jtag :=
  if addr <? file_size then
    match turns with
    | O => Timeout
    | S turns' =>
        let rc := Z.min (Z.of_nat (length file)) read_blocksize in
        if rc <=? 0 then Ok st
        else
          r <-- flash_continue_read_on_tap fuel buffer_flash rc st ;;
          if bytes_eqb (take (Z.to_nat rc) file) (take (Z.to_nat rc) (fst r))
          then verify_loop_on_tap turns' fuel file_size
                 (int32 (addr + read_blocksize)) (drop (Z.to_nat rc) file)
                 buffer_flash (snd r)
          else jtag_error 3
    end
  else Ok st.

(** The verify branch of [main]. *)
Definition verify_on_tap (turns fuel : nat) (rw_offset file_size : Z)
    (file buffer_flash : list Z) (st : jtag) : result jtag :=
  st1 <-- flash_start_read_on_tap fuel rw_offset st ;;
  verify_loop_on_tap turns fuel file_size 0 file buffer_flash st1.

(* ===================================================================== *)
(** * mpsse.c: collecting what was asked for *)
(* ===================================================================== *)

(** [ftdi_read_data(ftdi, buf, n)] storing [got] at [data_buffer + at]:
    a store past the end of the array is undefined. *)
Definition store_block (data_buffer : list Z) (at_ : Z) (got : list Z)
    : result (list Z) :=
  if (0 <=? at_) && (at_ + Z.of_nat (length got) <=? Z.of_nat (length data_buffer))
  then Ok (take (Z.to_nat at_) data_buffer ++ got ++
           drop (Z.to_nat at_ + length got) data_buffer)
  else Undef.

(** The read loop of [mpsse_xfer],
    [while (rx_len != receive_length)].  [rets] holds what the calls of
    [ftdi_read_data] return, one after the other: a negative number
    for an error, or else the number of bytes the call has stored,
    which are the next bytes of the stream [rx].  With no call left the
    loop is still waiting.  [rx_len] is [uint16_t].  The result is the
    buffer and the position in the stream. *)
Fixpoint mpsse_read_loop (rets : list Z) (rx : nat -> Z) (pos : nat)
    (data_buffer : list Z) (rx_len receive_length : Z)
    : result (list Z * nat) :=
  if rx_len =? receive_length then Ok (data_buffer, pos)
  else
    match rets with
    | [] => Timeout
    | rc :: rets' =>
        if rc <? 0 then Exit 2
        else
          let got := map (fun k => rx (pos + k)%nat) (seq 0 (Z.to_nat rc)) in
          buf1 <-- store_block data_buffer rx_len got ;;
          mpsse_read_loop rets' rx (pos + Z.to_nat rc) buf1
            (uint16 (rx_len + rc)) receive_length
    end.

(** Every call of [ftdi_read_data] returns an error or at most the
    number of bytes it was asked for, [remaining] at the first call. *)
Fixpoint reads_fit (rets : list Z) (remaining : Z) : Prop :=
  match rets with
  | [] => True
  | rc :: rets' =>
      remaining = 0 \/ rc < 0 \/
      (0 <= rc <= remaining /\ reads_fit rets' (remaining - rc))
  end.

(* ===================================================================== *)
(** * Properties of the TAP navigation *)
(* ===================================================================== *)

Lemma rbind_ok {A B : Type} (r : result A) (k : A -> result B) (b : B) :
  rbind r k = Ok b -> exists a, r = Ok a /\ k a = Ok b.
Proof. destruct r; simpl; intros H; try discriminate. eauto. Qed.

(** More fuel does not change what the navigation loop returns. *)
Lemma go_to_state_loop_more (fuel k : nat) (state : Z) (st st' : jtag) :
  go_to_state_loop fuel state st = Ok st' ->
  go_to_state_loop (fuel + k) state st = Ok st'.
Proof.
  revert st. induction fuel as [|fuel IH]; intros st; simpl.
  - destruct (jtag_current_state st =? state) eqn:E; [|discriminate].
    intros H. destruct k; simpl; rewrite E; exact H.
  - destruct (jtag_current_state st =? state); [trivial|].
    intros H.
    apply rbind_ok in H as (m & -> & H). simpl.
    apply rbind_ok in H as (st1 & -> & H). simpl.
    now apply IH.
Qed.

Lemma jtag_go_to_state_more (fuel k : nat) (state : Z) (st st' : jtag) :
  jtag_go_to_state fuel state st = Ok st' ->
  jtag_go_to_state (fuel + k) state st = Ok st'.
Proof.
  unfold jtag_go_to_state.
  destruct (state =? STATE_TEST_LOGIC_RESET); [trivial|].
  apply go_to_state_loop_more.
Qed.

(** A call that returns returns the same for every amount of fuel. *)
Lemma jtag_go_to_state_fuel (f1 f2 : nat) (state : Z) (st a b : jtag) :
  jtag_go_to_state f1 state st = Ok a ->
  jtag_go_to_state f2 state st = Ok b ->
  a = b.
Proof.
  intros Ha Hb.
  apply (jtag_go_to_state_more _ f2) in Ha.
  apply (jtag_go_to_state_more _ f1) in Hb.
  rewrite Nat.add_comm in Hb. congruence.
Qed.

(** C1, as amended: from every TAP state [s], [jtag_go_to_state] to
    every TAP state [t] returns (for every amount of fuel from 8 on,
    with the same result), has then advanced the state at most 8 times
    and leaves [jtag_current_state] equal to [t]; and the walk along
    [tms_map] alone, the loop of the function, does so for every target,
    Test-Logic-Reset included, so it never runs in a circle. *)
Theorem go_to_state_reaches_within_8 (s t : TapState) (rx : nat -> Z) :
  (exists st',
      (forall k, jtag_go_to_state (8 + k) t (jtag_at s rx) = Ok st') /\
      jtag_current_state st' = t /\ (advances st' <= 8)%nat) /\
  (exists st',
      (forall k, go_to_state_loop (8 + k) t (jtag_at s rx) = Ok st') /\
      jtag_current_state st' = t /\ (advances st' <= 8)%nat).
Proof.
  split.
  - destruct s, t;
      (eexists; split;
       [ intros k; apply jtag_go_to_state_more; vm_compute; reflexivity
       | split; [ reflexivity | vm_compute; lia ] ]).
  - destruct s, t;
      (eexists; split;
       [ intros k; apply go_to_state_loop_more; vm_compute; reflexivity
       | split; [ reflexivity | vm_compute; lia ] ]).
Qed.

(** C1 as stated fails: whatever the fuel, going from Shift-DR to
    Exit2-IR takes more than 6 advances (it takes 8). *)
Lemma go_to_state_needs_8 :
  ~ (forall (s t : TapState) (fuel : nat) (st' : jtag),
        jtag_go_to_state fuel t (jtag_at s (fun _ => 0)) = Ok st' ->
        (advances st' <= 6)%nat).
Proof.
  intros H.
  assert (E : exists st', jtag_go_to_state 8 STATE_EXIT2_IR
                (jtag_at STATE_SHIFT_DR (fun _ => 0)) = Ok st'
              /\ advances st' = 8%nat).
  { eexists. split; vm_compute; reflexivity. }
  destruct E as (st' & E & N).
  specialize (H _ _ _ _ E). lia.
Qed.

(** C4: from every TAP state, [jtag_go_to_state(STATE_TEST_LOGIC_RESET)]
    returns whatever the fuel; it has called [jtag_state_ack(true)]
    five times and nothing else, has written one TMS command whose
    pulses are five times TMS=1, and the state is Test-Logic-Reset. *)
Theorem go_to_reset_five_pulses (s : TapState) (rx : nat -> Z) (fuel : nat) :
  exists st',
    jtag_go_to_state fuel STATE_TEST_LOGIC_RESET (jtag_at s rx) = Ok st' /\
    tms_pulses (trace st') = [true; true; true; true; true] /\
    acks_of (trace st') = [true; true; true; true; true] /\
    writes_of (trace st') =
      [[Z.lor (Z.lor MC_DATA_TMS MC_DATA_LSB) MC_DATA_BITS; 4; 0x1f]] /\
    jtag_current_state st' = STATE_TEST_LOGIC_RESET.
Proof.
  destruct s; (eexists; split; [ vm_compute; reflexivity | ]);
    repeat split; reflexivity.
Qed.

(** C5, as amended: when the current state is the target and the target
    is not Test-Logic-Reset, [jtag_go_to_state] returns at once and
    changes nothing: no advance, no byte to the transport.  For the
    target Test-Logic-Reset the state is left as it is as well, but the
    five TMS=1 pulses are sent all the same. *)
Theorem go_to_current_state (t : TapState) (st : jtag) (fuel : nat) :
  jtag_current_state st = t ->
  exists st',
    jtag_go_to_state fuel t st = Ok st' /\
    jtag_current_state st' = t /\
    match t with
    | STATE_TEST_LOGIC_RESET =>
        (tms_pulses (trace st') =
           tms_pulses (trace st) ++ [true; true; true; true; true])
    | _ => (st' = st)
    end.
Proof.
  intros Hcur.
  assert (Hstay : t <> STATE_TEST_LOGIC_RESET ->
                  jtag_go_to_state fuel t st = Ok st).
  { intros Ht. unfold jtag_go_to_state.
    replace (t =? STATE_TEST_LOGIC_RESET) with false
      by (destruct t; try reflexivity; congruence).
    destruct fuel; simpl; rewrite Hcur, Z.eqb_refl; reflexivity. }
  destruct t;
    try (exists st; split; [ apply Hstay; discriminate | split; trivial ]).
  destruct st as [cur rx pos tr]. simpl in Hcur. subst cur.
  eexists. split; [ reflexivity | ]. split; [ reflexivity | ].
  unfold tms_pulses, writes_of. simpl.
  rewrite !flat_map_app. simpl. rewrite !app_nil_r. reflexivity.
Qed.

Lemma go_to_current_state_witness :
  jtag_current_state (jtag_at STATE_SHIFT_DR (fun _ => 0)) = STATE_SHIFT_DR /\
  exists st',
    jtag_go_to_state 0 STATE_SHIFT_DR (jtag_at STATE_SHIFT_DR (fun _ => 0))
      = Ok st' /\
    jtag_current_state st' = STATE_SHIFT_DR /\
    st' = jtag_at STATE_SHIFT_DR (fun _ => 0).
Proof.
  split; [ reflexivity | ].
  apply (go_to_current_state STATE_SHIFT_DR
           (jtag_at STATE_SHIFT_DR (fun _ => 0)) 0).
  reflexivity.
Defined.

(** C5 as stated fails for the target Test-Logic-Reset: already in
    that state, the call still sends TMS bits. *)
Lemma go_to_reset_not_silent :
  ~ (forall (t : TapState) (st' : jtag),
        jtag_go_to_state 0 t (jtag_at t (fun _ => 0)) = Ok st' ->
        tms_pulses (trace st') = []).
Proof.
  intros H.
  specialize (H STATE_TEST_LOGIC_RESET _ eq_refl).
  vm_compute in H. discriminate.
Qed.

(* ===================================================================== *)
(** * Properties of the buffered shift *)
(* ===================================================================== *)

(** Comparisons of integers decided by case analysis and [lia]. *)
Ltac zbool :=
  repeat match goal with
         | |- context [?a =? ?b] => destruct (Z.eqb_spec a b)
         | |- context [?a <? ?b] => destruct (Z.ltb_spec a b)
         | |- context [?a <=? ?b] => destruct (Z.leb_spec a b)
         end;
  cbn [andb negb orb]; try reflexivity; try lia.

Lemma uint8_add_1 (r m : Z) : uint8 (uint8 (r + 1) + m) = uint8 (r + (m + 1)).
Proof.
  unfold uint8. rewrite Z.add_mod_idemp_l by lia. f_equal. lia.
Qed.

Lemma pulses_bytes_app (ps qs : list (bool * bool)) :
  pulses_bytes (ps ++ qs) = pulses_bytes ps ++ pulses_bytes qs.
Proof. apply flat_map_app. Qed.

Lemma length_pulses_bytes (ps : list (bool * bool)) :
  length (pulses_bytes ps) = (3 * length ps)%nat.
Proof.
  induction ps as [|p ps IH]; [ reflexivity | ].
  cbn [pulses_bytes flat_map length app pulse_bytes] in *.
  unfold pulses_bytes in IH. rewrite IH. lia.
Qed.

(** The MPSSE engine turns the command bytes of a sequence of pulses
    into these pulses on TMS. *)
Lemma mpsse_tms_pulses_bytes (ps : list (bool * bool)) :
  mpsse_tms (pulses_bytes ps) = map fst ps.
Proof.
  induction ps as [|[tms tdi] ps IH]; [ reflexivity | ].
  cbn [pulses_bytes flat_map pulse_bytes app fst snd map].
  change (flat_map (fun p => pulse_bytes (fst p) (snd p)) ps)
    with (pulses_bytes ps).
  cbn [mpsse_tms]. rewrite IH.
  destruct tms, tdi; reflexivity.
Qed.

Lemma tms_flags_S (must_end : bool) (bit_count : Z) (m : nat) :
  tms_flags must_end bit_count (S m) =
    (must_end && (bit_count =? 1)) :: tms_flags must_end (bit_count - 1) m.
Proof.
  unfold tms_flags. cbn [seq map]. f_equal.
  - now rewrite Z.sub_0_r.
  - rewrite <- seq_shift, map_map. apply map_ext. intros j.
    do 2 f_equal. lia.
Qed.

Lemma tms_flags_app (must_end : bool) (bit_count : Z) (m k : nat) :
  tms_flags must_end bit_count (m + k) =
    tms_flags must_end bit_count m ++
    tms_flags must_end (bit_count - Z.of_nat m) k.
Proof.
  revert bit_count. induction m as [|m IH]; intros bit_count.
  - simpl. now rewrite Z.sub_0_r.
  - cbn [Nat.add]. rewrite !tms_flags_S, IH. cbn [app]. do 3 f_equal. lia.
Qed.

(** Below the last bit TMS stays low; on the last bit it is raised
    when the shift must end. *)
Lemma tms_flags_low (must_end : bool) (bit_count : Z) (m : nat) :
  Z.of_nat m < bit_count ->
  tms_flags must_end bit_count m = replicate m false.
Proof.
  revert bit_count. induction m as [|m IH]; intros bit_count H;
    [ reflexivity | ].
  rewrite tms_flags_S, IH by lia. cbn [replicate].
  replace (bit_count =? 1) with false by (symmetry; apply Z.eqb_neq; lia).
  now rewrite andb_false_r.
Qed.

Lemma tms_flags_all (must_end : bool) (n : nat) :
  tms_flags must_end (Z.of_nat (S n)) (S n) = replicate n false ++ [must_end].
Proof.
  replace (S n) with (n + 1)%nat at 2 by lia.
  rewrite tms_flags_app, tms_flags_low by lia. f_equal.
  unfold tms_flags. cbn [seq map]. f_equal.
  replace (Z.of_nat (S n) - Z.of_nat n - Z.of_nat 0 =? 1) with true
    by (symmetry; apply Z.eqb_eq; lia).
  apply andb_true_r.
Qed.

(** The inner loop: it handles the bits of one byte, as many as are
    left, raises TMS on the very last bit of the shift when that one is
    among them, and fails only when the command buffer is full. *)
Lemma shift_byte_spec (must_end : bool) (left : nat) :
  forall (byte_out bit_count : Z) (st st1 : jtag) (b : cmdbuf)
         (ps : list (bool * bool)),
    0 <= bit_count < 4294967296 ->
    0 <= rx_cnt b < 256 ->
    data b = pulses_bytes ps ->
    3 * (Z.of_nat (length ps) + Z.min (Z.of_nat left) bit_count) <= DATA_SIZE ->
    (if must_end && (0 <? bit_count) && (bit_count <=? Z.of_nat left)
     then jtag_state_ack true st else Ok st) = Ok st1 ->
    exists ps',
      map fst ps' =
        tms_flags must_end bit_count
          (Z.to_nat (Z.min (Z.of_nat left) bit_count)) /\
      shift_byte left must_end byte_out bit_count st b =
        Ok (if bit_count <? Z.of_nat left then 4294967295
            else bit_count - Z.of_nat left,
            st1,
            {| data := pulses_bytes (ps ++ ps');
               rx_cnt := uint8 (rx_cnt b +
                                Z.min (Z.of_nat left) bit_count) |}).
Proof.
  induction left as [|left IH];
    intros byte_out bit_count st st1 b ps Hbc Hrx Hdata Hroom Hack.
  - replace (Z.min (Z.of_nat 0) bit_count) with 0 by lia.
    exists []. split; [ reflexivity | ].
    cbn [shift_byte].
    replace (must_end && (0 <? bit_count) && (bit_count <=? Z.of_nat 0))
      with false in Hack
      by (symmetry; destruct must_end; cbn [andb]; [ | reflexivity ];
          destruct (0 <? bit_count) eqn:E1; cbn [andb]; [ | reflexivity ];
          apply Z.leb_gt; apply Z.ltb_lt in E1; lia).
    injection Hack as <-.
    replace (bit_count <? Z.of_nat 0) with false
      by (symmetry; apply Z.ltb_ge; lia).
    rewrite app_nil_r, <- Hdata.
    rewrite Z.add_0_r. unfold uint8. rewrite Z.mod_small by lia.
    rewrite Z.sub_0_r. destruct b; reflexivity.
  - cbn [shift_byte].
    destruct (0 <? bit_count) eqn:Epos.
    + apply Z.ltb_lt in Epos.
      assert (Hu : uint32 (bit_count - 1) = bit_count - 1)
        by (unfold uint32; apply Z.mod_small; lia).
      rewrite Hu.
      set (tms := (bit_count - 1 =? 0) && must_end).
      set (tdi := negb (Z.land byte_out 1 =? 0)).
      assert (Hmin : Z.min (Z.of_nat (S left)) bit_count =
                     Z.min (Z.of_nat left) (bit_count - 1) + 1) by lia.
      assert (Hpulse : jtag_pulse_clock_and_read_tdo tms tdi b =
                Ok {| data := pulses_bytes (ps ++ [(tms, tdi)]);
                      rx_cnt := uint8 (rx_cnt b + 1) |}).
      { unfold jtag_pulse_clock_and_read_tdo.
        replace (Z.of_nat (length (data b)) + 3 <=? DATA_SIZE) with true.
        - rewrite Hdata, pulses_bytes_app. cbn [pulses_bytes flat_map fst snd].
          now rewrite app_nil_r.
        - symmetry. apply Z.leb_le. rewrite Hdata, length_pulses_bytes. lia. }
      (* the state after this bit, and the acknowledgement still due *)
      assert (Hst : exists st0,
                 (if tms then jtag_state_ack true st else Ok st) = Ok st0 /\
                 (if must_end && (0 <? bit_count - 1)
                     && (bit_count - 1 <=? Z.of_nat left)
                  then jtag_state_ack true st0 else Ok st0) = Ok st1).
      { unfold tms. destruct must_end; cbn [andb] in *.
        - destruct (bit_count - 1 =? 0) eqn:E0; cbn [andb].
          + apply Z.eqb_eq in E0.
            replace (0 <? bit_count) with true in Hack
              by (symmetry; apply Z.ltb_lt; lia).
            replace (bit_count <=? Z.of_nat (S left)) with true in Hack
              by (symmetry; apply Z.leb_le; lia).
            exists st1. split; [ exact Hack | ].
            replace (0 <? bit_count - 1) with false
              by (symmetry; apply Z.ltb_ge; lia).
            reflexivity.
          + apply Z.eqb_neq in E0. exists st. split; [ reflexivity | ].
            replace (0 <? bit_count) with true in Hack
              by (symmetry; apply Z.ltb_lt; lia).
            replace (0 <? bit_count - 1) with true
              by (symmetry; apply Z.ltb_lt; lia).
            replace (bit_count - 1 <=? Z.of_nat left)
              with (bit_count <=? Z.of_nat (S left))
              by (apply eq_iff_eq_true; rewrite !Z.leb_le; lia).
            exact Hack.
        - rewrite andb_false_r. exists st. split; [ reflexivity | exact Hack ]. }
      destruct Hst as (st0 & Hnow & Hlater).
      rewrite Hnow. cbn [rbind]. rewrite Hpulse. cbn [rbind].
      destruct (IH (Z.shiftr byte_out 1) (bit_count - 1) st0 st1
                  {| data := pulses_bytes (ps ++ [(tms, tdi)]);
                     rx_cnt := uint8 (rx_cnt b + 1) |}
                  (ps ++ [(tms, tdi)]))
        as (ps' & Hflags & Hrun).
      * lia.
      * cbn [rx_cnt]. unfold uint8. apply Z.mod_pos_bound. lia.
      * reflexivity.
      * rewrite length_app. cbn [length]. lia.
      * exact Hlater.
      * exists ((tms, tdi) :: ps'). split.
        -- rewrite Hmin, Z2Nat.inj_add by lia.
           replace (Z.to_nat 1) with 1%nat by reflexivity.
           rewrite Nat.add_1_r, tms_flags_S. cbn [map fst]. f_equal.
           ++ unfold tms. destruct must_end; zbool.
           ++ exact Hflags.
        -- rewrite Hrun. cbn [rx_cnt data]. do 2 f_equal.
           ++ f_equal. zbool.
           ++ f_equal.
              ** now rewrite <- app_assoc.
              ** rewrite uint8_add_1. f_equal. lia.
    + apply Z.ltb_ge in Epos. assert (bit_count = 0) by lia. subst bit_count.
      replace (Z.min (Z.of_nat (S left)) 0) with 0 by lia.
      exists []. split; [ reflexivity | ].
      assert (Hst : st1 = st)
        by (destruct must_end; cbn [andb Z.ltb Z.compare] in Hack; congruence).
      subst st1.
      rewrite app_nil_r, <- Hdata, Z.add_0_r.
      unfold uint8. rewrite (Z.mod_small (rx_cnt b)) by lia.
      replace (0 <? Z.of_nat (S left)) with true
        by (symmetry; apply Z.ltb_lt; lia).
      destruct b; reflexivity.
Qed.

Lemma index_ok {A : Type} (l : list A) (i : Z) :
  0 <= i < Z.of_nat (length l) -> exists a, index l i = Ok a.
Proof.
  intros H. unfold index.
  replace (i <? 0) with false by (symmetry; apply Z.ltb_ge; lia).
  destruct (l !! Z.to_nat i) eqn:E; [ eauto | ].
  apply lookup_ge_None in E. lia.
Qed.

Lemma uint8_idemp_add (a c : Z) : uint8 (uint8 a + c) = uint8 (a + c).
Proof. unfold uint8. now rewrite Z.add_mod_idemp_l by lia. Qed.

Lemma shift_bytes_S (n : nat) (i : Z) (input_data : list Z) (must_end : bool)
    (bit_count : Z) (st : jtag) (b : cmdbuf) :
  shift_bytes (S n) i input_data must_end bit_count st b =
    (byte_out <-- index input_data i ;;
     r <-- shift_byte 8 must_end byte_out bit_count st b ;;
     shift_bytes n (i + 1) input_data must_end (fst (fst r)) (snd (fst r))
       (snd r)).
Proof.
  cbn [shift_bytes]. destruct (index input_data i); try reflexivity.
  cbn [rbind]. destruct (shift_byte 8 must_end a bit_count st b) as [[[? ?] ?]| | |];
    reflexivity.
Qed.

(** The outer loop, entered with [bit_count] bits to go and as many
    bytes as these bits need. *)
Lemma shift_bytes_spec (must_end : bool) (input_data : list Z) (n : nat) :
  forall (i bit_count : Z) (st st1 : jtag) (b : cmdbuf)
         (ps : list (bool * bool)),
    0 <= i ->
    i + Z.of_nat (S n) <= Z.of_nat (length input_data) ->
    8 * Z.of_nat n < bit_count <= 8 * Z.of_nat (S n) ->
    0 <= rx_cnt b < 256 ->
    data b = pulses_bytes ps ->
    3 * (Z.of_nat (length ps) + bit_count) <= DATA_SIZE ->
    (if must_end then jtag_state_ack true st else Ok st) = Ok st1 ->
    exists ps',
      map fst ps' = tms_flags must_end bit_count (Z.to_nat bit_count) /\
      shift_bytes (S n) i input_data must_end bit_count st b =
        Ok (st1, {| data := pulses_bytes (ps ++ ps');
                    rx_cnt := uint8 (rx_cnt b + bit_count) |}).
Proof.
  induction n as [|n IH];
    intros i bit_count st st1 b ps Hi Hlen Hbc Hrx Hdata Hroom Hack;
    unfold DATA_SIZE in Hroom;
    rewrite shift_bytes_S;
    destruct (index_ok input_data i ltac:(lia)) as (byte_out & ->);
    cbn [rbind].
  - destruct (shift_byte_spec must_end 8 byte_out bit_count st st1 b ps)
      as (ps' & Hflags & ->); try assumption; try (unfold DATA_SIZE; lia).
    + replace (must_end && (0 <? bit_count) && (bit_count <=? Z.of_nat 8))
        with must_end by (destruct must_end; zbool).
      exact Hack.
    + cbn [rbind shift_bytes fst snd].
      replace (Z.min (Z.of_nat 8) bit_count) with bit_count in * by lia.
      exists ps'. split; [ exact Hflags | reflexivity ].
  - destruct (shift_byte_spec must_end 8 byte_out bit_count st st b ps)
      as (ps1 & Hflags1 & ->); try assumption; try (unfold DATA_SIZE; lia).
    + replace (must_end && (0 <? bit_count) && (bit_count <=? Z.of_nat 8))
        with false by (destruct must_end; zbool).
      reflexivity.
    + cbn [rbind fst snd].
      replace (Z.min (Z.of_nat 8) bit_count) with 8 in * by lia.
      replace (bit_count <? Z.of_nat 8) with false by zbool.
      assert (Hl1 : length ps1 = 8%nat).
      { rewrite <- (length_map fst), Hflags1. unfold tms_flags.
        now rewrite length_map, length_seq. }
      change (Z.of_nat 8) with 8 in *.
      destruct (IH (i + 1) (bit_count - 8) st st1
                  {| data := pulses_bytes (ps ++ ps1);
                     rx_cnt := uint8 (rx_cnt b + 8) |} (ps ++ ps1))
        as (ps2 & Hflags2 & ->); try assumption; try lia.
      * cbn [rx_cnt]. unfold uint8. apply Z.mod_pos_bound. lia.
      * reflexivity.
      * rewrite length_app, Hl1. unfold DATA_SIZE. lia.
      * exists (ps1 ++ ps2). split.
        -- rewrite map_app, Hflags1, Hflags2.
           replace (Z.to_nat bit_count)
             with (8 + Z.to_nat (bit_count - 8))%nat by lia.
           rewrite tms_flags_app. do 2 f_equal.
        -- cbn [rx_cnt data]. rewrite <- app_assoc, uint8_idemp_add.
           do 4 f_equal. lia.
Qed.

(** The copy loop: place [i], [i+1], ... of the output get the bytes
    [7 + 8 i], [7 + 8 (i+1)], ... of the buffer. *)
Lemma copy_out_spec (g : nat -> Z) (buf : list Z) (n : nat) :
  forall (i : nat) (output_data : list Z),
    (forall j, (i <= j < i + n)%nat -> buf !! (7 + 8 * j)%nat = Some (g j)) ->
    (i + n <= length output_data)%nat ->
    copy_out n (Z.of_nat i) buf output_data =
      Ok (take i output_data ++ map g (seq i n) ++ drop (i + n) output_data).
Proof.
  induction n as [|n IH]; intros i output_data Hbuf Hout.
  - cbn [copy_out seq map app]. now rewrite Nat.add_0_r, take_drop.
  - cbn [copy_out]. unfold index.
    replace (7 + Z.of_nat i * 8 <? 0) with false by zbool.
    replace (Z.to_nat (7 + Z.of_nat i * 8)) with (7 + 8 * i)%nat by lia.
    rewrite (Hbuf i) by lia. cbn [rbind]. unfold store.
    replace ((0 <=? Z.of_nat i)
             && (Z.of_nat i <? Z.of_nat (length output_data)))
      with true by zbool.
    cbn [rbind]. rewrite Nat2Z.id.
    replace (Z.of_nat i + 1) with (Z.of_nat (S i)) by lia.
    rewrite IH.
    + rewrite (take_S_r _ _ (g i)) by (apply list_lookup_insert_eq; lia).
      rewrite take_insert_ge, drop_insert_lt by lia.
      cbn [seq map]. rewrite <- app_assoc. cbn [app].
      now replace (S i + n)%nat with (i + S n)%nat by lia.
    + intros j Hj. apply Hbuf. lia.
    + rewrite length_insert. lia.
Qed.

(** What an acknowledgement leaves in the trace. *)
Lemma jtag_state_ack_trace (tms : bool) (st st1 : jtag) :
  jtag_state_ack tms st = Ok st1 ->
  trace st1 = trace st ++ [EvAck tms] /\
  ftdi_rx st1 = ftdi_rx st /\ rx_pos st1 = rx_pos st.
Proof.
  unfold jtag_state_ack. intros H.
  apply rbind_ok in H as (e & _ & H).
  destruct tms; injection H as <-; repeat split.
Qed.

Lemma tms_pulses_app (tr1 tr2 : list event) :
  tms_pulses (tr1 ++ tr2) = tms_pulses tr1 ++ tms_pulses tr2.
Proof. unfold tms_pulses, writes_of. now rewrite !flat_map_app. Qed.

Lemma acks_of_app (tr1 tr2 : list event) :
  acks_of (tr1 ++ tr2) = acks_of tr1 ++ acks_of tr2.
Proof. unfold acks_of. now rewrite flat_map_app. Qed.

(** What [mpsse_xfer] does to the state and to the buffer. *)
Lemma mpsse_xfer_spec (buf : list Z) (send_length receive_length : Z)
    (st : jtag) :
  0 < send_length < 65536 -> 0 <= receive_length < 256 ->
  send_length = Z.of_nat (length buf) ->
  exists buf' st',
    mpsse_xfer buf send_length receive_length st = (buf', st') /\
    current_state st' = current_state st /\
    acks_of (trace st') = acks_of (trace st) /\
    tms_pulses (trace st') = tms_pulses (trace st) ++ mpsse_tms buf /\
    (forall k, (k < Z.to_nat receive_length)%nat ->
               buf' !! k = Some (ftdi_rx st (rx_pos st + k)%nat)).
Proof.
  intros Hs Hr Hlen. unfold mpsse_xfer, uint16.
  rewrite !Z.mod_small by lia.
  replace (send_length =? 0) with false by zbool.
  replace (take (Z.to_nat send_length) buf) with buf
    by (symmetry; apply take_ge; lia).
  destruct (receive_length =? 0) eqn:E.
  - apply Z.eqb_eq in E. subst receive_length.
    eexists _, _. split; [ reflexivity | ].
    cbn [emit current_state trace].
    rewrite acks_of_app, tms_pulses_app. cbn.
    rewrite !app_nil_r. repeat split. intros k Hk. cbn in Hk. lia.
  - eexists _, _. split; [ reflexivity | ].
    cbn [emit current_state trace ftdi_rx rx_pos].
    rewrite !acks_of_app, !tms_pulses_app. cbn.
    rewrite !app_nil_r. repeat split.
    intros k Hk.
    rewrite lookup_app_l by (rewrite length_map, length_seq; lia).
    rewrite list_lookup_fmap, lookup_seq_lt by lia. reflexivity.
Qed.

(** The shift within the room of the command buffer: up to 341 bits
    the function returns, the state is advanced once when the shift
    must end and not at all otherwise, and the TMS levels sent are low
    except for the last bit of a shift that must end. *)
Lemma jtag_tap_shift_within_buffer (input_data output_data : list Z)
    (data_bits : Z) (must_end : bool) (st st1 : jtag) :
  0 <= data_bits <= 341 ->
  (data_bits + 7) / 8 <= Z.of_nat (length input_data) ->
  data_bits / 8 <= Z.of_nat (length output_data) ->
  (if must_end && (0 <? data_bits) then jtag_state_ack true st else Ok st)
    = Ok st1 ->
  exists out st',
    jtag_tap_shift input_data output_data data_bits must_end st
      = Ok (out, st') /\
    current_state st' = current_state st1 /\
    acks_of (trace st') = acks_of (trace st1) /\
    tms_pulses (trace st') =
      tms_pulses (trace st1) ++
      tms_flags must_end data_bits (Z.to_nat data_bits) /\
    out = delivered st1 (Z.to_nat (data_bits mod 256 / 8)) output_data.
Proof.
  intros HN Hin Hout Hack. unfold jtag_tap_shift.
  assert (Hu : uint32 (data_bits + 7) = data_bits + 7)
    by (unfold uint32; apply Z.mod_small; lia).
  rewrite Hu.
  destruct (Z.eq_dec data_bits 0) as [-> | Hnz].
  - rewrite andb_false_r in Hack. injection Hack as <-.
    exists output_data, st. repeat split. cbn.
    now rewrite app_nil_r.
  - replace (must_end && (0 <? data_bits)) with must_end in Hack
      by (destruct must_end; zbool).
    set (n := Z.to_nat ((data_bits - 1) / 8)).
    assert (Hn : Z.of_nat n = (data_bits - 1) / 8)
      by (unfold n; rewrite Z2Nat.id; [ reflexivity | apply Z.div_pos; lia ]).
    assert (Hq : (data_bits + 7) / 8 = (data_bits - 1) / 8 + 1).
    { replace (data_bits + 7) with (data_bits - 1 + 1 * 8) by lia.
      now rewrite Z.div_add by lia. }
    pose proof (Z.mul_div_le (data_bits - 1) 8 ltac:(lia)) as Hlo.
    pose proof (Z.mul_succ_div_gt (data_bits - 1) 8 ltac:(lia)) as Hhi.
    replace (Z.to_nat ((data_bits + 7) / 8)) with (S n) by lia.
    destruct (shift_bytes_spec must_end input_data n 0 data_bits st st1
                {| data := []; rx_cnt := 0 |} [])
      as (ps' & Hflags & ->); cbn [rx_cnt data length];
      try reflexivity; try (unfold DATA_SIZE); try lia; try assumption.
    cbn [rbind app rx_cnt data].
    assert (Hlps : Z.of_nat (length ps') = data_bits).
    { rewrite <- (length_map fst), Hflags. unfold tms_flags.
      rewrite length_map, length_seq. lia. }
    destruct (mpsse_xfer_spec (pulses_bytes ps')
                (Z.of_nat (length (pulses_bytes ps')))
                (uint8 (0 + data_bits)) st1)
      as (buf' & st' & -> & Hcur & Hacks & Htms & Hbuf).
    + rewrite length_pulses_bytes. lia.
    + unfold uint8. pose proof (Z.mod_pos_bound (0 + data_bits) 256). lia.
    + reflexivity.
    + assert (Hrx : 0 <= uint8 (0 + data_bits) <= data_bits).
      { unfold uint8. rewrite Z.add_0_l.
        pose proof (Z.mod_pos_bound data_bits 256 ltac:(lia)).
        pose proof (Z.mod_le data_bits 256 ltac:(lia) ltac:(lia)). lia. }
      pose proof (Z.mul_div_le (uint8 (0 + data_bits)) 8 ltac:(lia)) as Hd.
      assert (Hd2 : uint8 (0 + data_bits) / 8 <= data_bits / 8)
        by (apply Z.div_le_mono; lia).
      assert (Hd3 : 0 <= uint8 (0 + data_bits) / 8)
        by (apply Z.div_pos; lia).
      pose proof (copy_out_spec
                    (fun j => ftdi_rx st1 (rx_pos st1 + (7 + 8 * j))%nat) buf'
                    (Z.to_nat (uint8 (0 + data_bits) / 8)) 0%nat output_data)
        as Hcopy.
      change (Z.of_nat 0) with 0 in Hcopy.
      rewrite Hcopy.
      * cbn [rbind take app Nat.add]. eexists _, st'.
        rewrite Hcur, Hacks, Htms, mpsse_tms_pulses_bytes, Hflags.
        repeat split.
      * intros j Hj. apply Hbuf. lia.
      * lia.
Qed.

(** A shift of 1 to 341 bits that must end, started in Shift-DR, sends
    TMS low on all bits but the last and high on the last, advances the
    state once, with TMS=1, and ends in Exit1-DR. *)
Lemma shift_must_end_within_buffer (input_data output_data : list Z)
    (data_bits : Z) (st : jtag) :
  1 <= data_bits <= 341 ->
  (data_bits + 7) / 8 <= Z.of_nat (length input_data) ->
  data_bits / 8 <= Z.of_nat (length output_data) ->
  jtag_current_state st = STATE_SHIFT_DR ->
  exists out st',
    jtag_tap_shift input_data output_data data_bits true st = Ok (out, st') /\
    tms_pulses (trace st') =
      tms_pulses (trace st) ++
      replicate (Z.to_nat (data_bits - 1)) false ++ [true] /\
    acks_of (trace st') = acks_of (trace st) ++ [true] /\
    jtag_current_state st' = STATE_EXIT1_DR.
Proof.
  intros HN Hin Hout Hcur.
  assert (Hack : jtag_state_ack true st =
                 Ok (jtag_set_current_state STATE_EXIT1_DR
                       (emit (EvAck true) st)))
    by (unfold jtag_state_ack; rewrite Hcur; reflexivity).
  destruct (jtag_tap_shift_within_buffer input_data output_data data_bits
              true st
              (jtag_set_current_state STATE_EXIT1_DR (emit (EvAck true) st))
              ltac:(lia) Hin Hout)
    as (out & st' & Hrun & Hst & Hacks & Htms & _).
  { replace (0 <? data_bits) with true by zbool. exact Hack. }
  exists out, st'. split; [ exact Hrun | ].
  unfold jtag_current_state.
  rewrite Htms, Hacks, Hst. cbn [trace jtag_set_current_state emit].
  rewrite tms_pulses_app, acks_of_app. cbn. rewrite !app_nil_r.
  repeat split.
  replace (Z.to_nat data_bits) with (S (Z.to_nat (data_bits - 1))) by lia.
  replace data_bits with (Z.of_nat (S (Z.to_nat (data_bits - 1)))) at 1 by lia.
  now rewrite tms_flags_all.
Qed.

(** And without [must_end]: no TMS=1 is sent, the state is not
    advanced and stays what it was. *)
Lemma shift_open_within_buffer (input_data output_data : list Z)
    (data_bits : Z) (st : jtag) :
  0 <= data_bits <= 341 ->
  (data_bits + 7) / 8 <= Z.of_nat (length input_data) ->
  data_bits / 8 <= Z.of_nat (length output_data) ->
  exists out st',
    jtag_tap_shift input_data output_data data_bits false st = Ok (out, st') /\
    tms_pulses (trace st') =
      tms_pulses (trace st) ++ replicate (Z.to_nat data_bits) false /\
    acks_of (trace st') = acks_of (trace st) /\
    jtag_current_state st' = jtag_current_state st.
Proof.
  intros HN Hin Hout.
  destruct (jtag_tap_shift_within_buffer input_data output_data data_bits
              false st st HN Hin Hout eq_refl)
    as (out & st' & Hrun & Hst & Hacks & Htms & _).
  exists out, st'. split; [ exact Hrun | ].
  rewrite Htms, Hacks. unfold jtag_current_state. rewrite Hst.
  repeat split. f_equal.
  unfold tms_flags. clear. induction (Z.to_nat data_bits) as [|m IH];
    [ reflexivity | ].
  rewrite seq_S, map_app, IH. cbn [map andb].
  clear. induction m as [|m IH]; [ reflexivity | ].
  cbn [replicate app]. now rewrite IH.
Qed.

(* --------------------------------------------------------------------- *)
(** ** What reaches the output buffer *)

(** Within the room of the command buffer the output is the
    [delivered] one with [data_bits mod 256 / 8] bytes copied: whole
    bytes only, and counted with the eight bits of [rx_cnt]. *)
Lemma shift_output_within_buffer (input_data output_data : list Z)
    (data_bits : Z) (must_end : bool) (st st1 : jtag) :
  0 <= data_bits <= 341 ->
  (data_bits + 7) / 8 <= Z.of_nat (length input_data) ->
  data_bits / 8 <= Z.of_nat (length output_data) ->
  (if must_end && (0 <? data_bits) then jtag_state_ack true st else Ok st)
    = Ok st1 ->
  exists st',
    jtag_tap_shift input_data output_data data_bits must_end st =
      Ok (delivered st (Z.to_nat (data_bits mod 256 / 8)) output_data, st').
Proof.
  intros HN Hin Hout Hack.
  destruct (jtag_tap_shift_within_buffer input_data output_data data_bits
              must_end st st1 HN Hin Hout Hack)
    as (out & st' & Hrun & _ & _ & _ & ->).
  exists st'. rewrite Hrun. do 2 f_equal. unfold delivered.
  assert (Hsame : ftdi_rx st1 = ftdi_rx st /\ rx_pos st1 = rx_pos st).
  { destruct (must_end && (0 <? data_bits)).
    - now apply jtag_state_ack_trace in Hack.
    - injection Hack as <-. split; reflexivity. }
  destruct Hsame as (-> & ->). reflexivity.
Qed.

(** Twelve bits: whatever the FTDI answers, only [output_data[0]] is
    stored, from the eighth byte received. *)
Lemma shift_12_bits_output (rx : nat -> Z) (o0 o1 : Z) (must_end : bool) :
  exists st',
    jtag_tap_shift [0xFF; 0x0F] [o0; o1] 12 must_end
      (jtag_at STATE_SHIFT_DR rx) = Ok ([rx 7%nat; o1], st') /\
    reads_of (trace st') = [12].
Proof. destruct must_end; eexists; split; vm_compute; reflexivity. Qed.

(** After eight one-bit reads the FTDI's shift register holds the
    eight TDO bits, the first in bit 0. *)
Lemma ftdi_answers_8th (sr tdo : list bool) (rest : nat -> Z) :
  length sr = 8%nat -> (8 <= length tdo)%nat ->
  stream_of (ftdi_answers sr tdo) rest 7%nat = byte_of_bits (take 8 tdo).
Proof.
  intros Hsr Htdo.
  do 9 (destruct sr as [|? sr]; try discriminate Hsr).
  do 8 (destruct tdo as [|? tdo]; [ cbn in Htdo; lia | ]).
  reflexivity.
Qed.

(** With 256 bits, [rx_cnt] has wrapped to zero when the commands are
    sent: nothing is read back and the output buffer is not touched. *)
Lemma shift_256_bits_reads_nothing (rx : nat -> Z) (must_end : bool) :
  exists st',
    jtag_tap_shift (replicate 32 0xFF) (replicate 32 0x00) 256 must_end
      (jtag_at STATE_SHIFT_DR rx) = Ok (replicate 32 0x00, st') /\
    reads_of (trace st') = [].
Proof. destruct must_end; eexists; split; vm_compute; reflexivity. Qed.

(** C7 at the failing inputs.  A shift of twelve bits: with the FTDI
    answering for the TDO bits [tdo], the first eight of them arrive in
    [output_data[0]], the first in bit 0; the last four arrive nowhere,
    [output_data[1]] is left as it was.  A shift of 256 bits, 32 whole
    bytes: no byte is read back and the output buffer is left as it
    was. *)
Theorem shift_loses_tdo_bits (sr tdo : list bool) (rest : nat -> Z)
    (o0 o1 : Z) (must_end : bool) :
  length sr = 8%nat -> length tdo = 12%nat ->
  (exists st',
      jtag_tap_shift [0xFF; 0x0F] [o0; o1] 12 must_end
        (jtag_at STATE_SHIFT_DR (stream_of (ftdi_answers sr tdo) rest))
      = Ok ([byte_of_bits (take 8 tdo); o1], st')) /\
  (exists st',
      jtag_tap_shift (replicate 32 0xFF) (replicate 32 0x00) 256 must_end
        (jtag_at STATE_SHIFT_DR (stream_of (ftdi_answers sr tdo) rest))
      = Ok (replicate 32 0x00, st') /\
      reads_of (trace st') = []).
Proof.
  intros Hsr Htdo. split.
  - destruct (shift_12_bits_output (stream_of (ftdi_answers sr tdo) rest)
                o0 o1 must_end) as (st' & H & _).
    exists st'. rewrite H, ftdi_answers_8th by (trivial; lia). reflexivity.
  - apply shift_256_bits_reads_nothing.
Qed.

Lemma shift_loses_tdo_bits_witness :
  length (replicate 8 false) = 8%nat /\
  length (replicate 12 true) = 12%nat /\
  (exists st',
      jtag_tap_shift [0xFF; 0x0F] [0x00; 0x00] 12 true
        (jtag_at STATE_SHIFT_DR
           (stream_of (ftdi_answers (replicate 8 false) (replicate 12 true))
              (fun _ => 0)))
      = Ok ([0xFF; 0x00], st')) /\
  (exists st',
      jtag_tap_shift (replicate 32 0xFF) (replicate 32 0x00) 256 true
        (jtag_at STATE_SHIFT_DR
           (stream_of (ftdi_answers (replicate 8 false) (replicate 12 true))
              (fun _ => 0)))
      = Ok (replicate 32 0x00, st') /\
      reads_of (trace st') = []).
Proof.
  split; [ reflexivity | split; [ reflexivity | ] ].
  apply (shift_loses_tdo_bits (replicate 8 false) (replicate 12 true)
           (fun _ => 0) 0x00 0x00 true); reflexivity.
Defined.

(** Whole bytes below that do arrive: sixteen bits fill both bytes. *)
Lemma shift_16_bits_output (sr tdo : list bool) (rest : nat -> Z)
    (o0 o1 : Z) (must_end : bool) :
  length sr = 8%nat -> length tdo = 16%nat ->
  exists st',
    jtag_tap_shift [0xFF; 0x0F] [o0; o1] 16 must_end
      (jtag_at STATE_SHIFT_DR (stream_of (ftdi_answers sr tdo) rest))
    = Ok ([byte_of_bits (take 8 tdo); byte_of_bits (drop 8 tdo)], st').
Proof.
  intros Hsr Htdo.
  assert (H : forall rx, exists st',
               jtag_tap_shift [0xFF; 0x0F] [o0; o1] 16 must_end
                 (jtag_at STATE_SHIFT_DR rx)
               = Ok ([rx 7%nat; rx 15%nat], st'))
    by (intros rx; destruct must_end; eexists; vm_compute; reflexivity).
  destruct (H (stream_of (ftdi_answers sr tdo) rest)) as (st' & ->).
  exists st'. do 2 f_equal.
  do 9 (destruct sr as [|? sr]; try discriminate Hsr).
  do 17 (destruct tdo as [|? tdo]; try discriminate Htdo).
  reflexivity.
Qed.

(* --------------------------------------------------------------------- *)
(** ** Beyond the room of the command buffer *)

Lemma jtag_state_ack_outcome (tms : bool) (st : jtag) :
  (exists st1, jtag_state_ack tms st = Ok st1) \/
  jtag_state_ack tms st = Undef.
Proof.
  unfold jtag_state_ack, index.
  destruct (jtag_current_state st <? 0); [ now right | ].
  destruct (tms_transitions !! Z.to_nat (jtag_current_state st));
    [ left | now right ].
  destruct tms; eauto.
Qed.

(** The inner loop when the bits of this byte do not fit any more. *)
Lemma shift_byte_overrun (must_end : bool) (left : nat) :
  forall (byte_out bit_count : Z) (st : jtag) (b : cmdbuf)
         (ps : list (bool * bool)),
    0 <= bit_count < 4294967296 ->
    data b = pulses_bytes ps ->
    (length ps <= 341)%nat ->
    341 < Z.of_nat (length ps) + Z.min (Z.of_nat left) bit_count ->
    shift_byte left must_end byte_out bit_count st b = Undef.
Proof.
  induction left as [|left IH];
    intros byte_out bit_count st b ps Hbc Hdata Hps Hover; [ lia | ].
  cbn [shift_byte].
  replace (0 <? bit_count) with true by zbool.
  assert (Hu : uint32 (bit_count - 1) = bit_count - 1)
    by (unfold uint32; apply Z.mod_small; lia).
  rewrite Hu.
  set (tms := (bit_count - 1 =? 0) && must_end).
  assert (Hst : (exists st1,
                    (if tms then jtag_state_ack true st else Ok st) = Ok st1)
                \/ (if tms then jtag_state_ack true st else Ok st) = Undef)
    by (destruct tms; [ apply jtag_state_ack_outcome | eauto ]).
  destruct Hst as [(st1 & ->) | ->]; [ | reflexivity ].
  cbn [rbind]. unfold jtag_pulse_clock_and_read_tdo, DATA_SIZE.
  rewrite Hdata, length_pulses_bytes.
  destruct (Z.leb_spec (Z.of_nat (3 * length ps) + 3) 1024); [ | reflexivity ].
  cbn [rbind].
  set (tdi := negb (Z.land byte_out 1 =? 0)).
  apply (IH _ _ _ _ (ps ++ [(tms, tdi)])).
  - lia.
  - cbn [data]. rewrite pulses_bytes_app. cbn [pulses_bytes flat_map fst snd].
    now rewrite app_nil_r.
  - rewrite length_app. cbn [length]. lia.
  - rewrite length_app. cbn [length]. lia.
Qed.

(** The outer loop when the bits that are left do not fit. *)
Lemma shift_bytes_overrun (must_end : bool) (input_data : list Z) (n : nat) :
  forall (i bit_count : Z) (st : jtag) (b : cmdbuf)
         (ps : list (bool * bool)),
    8 * Z.of_nat n < bit_count <= 8 * Z.of_nat (S n) ->
    bit_count < 4294967296 ->
    0 <= rx_cnt b < 256 ->
    data b = pulses_bytes ps ->
    (length ps <= 341)%nat ->
    341 < Z.of_nat (length ps) + bit_count ->
    shift_bytes (S n) i input_data must_end bit_count st b = Undef.
Proof.
  induction n as [|n IH];
    intros i bit_count st b ps Hbc Hmax Hrx Hdata Hps Hover;
    rewrite shift_bytes_S;
    (destruct (index input_data i) as [byte_out| | |] eqn:Eidx;
     [ | reflexivity
       | unfold index in Eidx; destruct (i <? 0); [ discriminate | ];
         destruct (input_data !! Z.to_nat i); discriminate
       | unfold index in Eidx; destruct (i <? 0); [ discriminate | ];
         destruct (input_data !! Z.to_nat i); discriminate ]);
    cbn [rbind].
  - now rewrite (shift_byte_overrun must_end 8 _ _ _ _ ps)
      by first [ assumption | lia ].
  - destruct (Z.le_gt_cases (Z.of_nat (length ps) + 8) 341) as [Hfit | Hnofit].
    + destruct (shift_byte_spec must_end 8 byte_out bit_count st st b ps)
        as (ps1 & Hflags1 & ->); try assumption;
        try (unfold DATA_SIZE; lia).
      * replace (must_end && (0 <? bit_count) && (bit_count <=? Z.of_nat 8))
          with false by (destruct must_end; zbool).
        reflexivity.
      * cbn [rbind fst snd].
        replace (Z.min (Z.of_nat 8) bit_count) with 8 in * by lia.
        replace (bit_count <? Z.of_nat 8) with false by zbool.
        change (Z.of_nat 8) with 8 in *.
        assert (Hl1 : length ps1 = 8%nat).
        { rewrite <- (length_map fst), Hflags1. unfold tms_flags.
          now rewrite length_map, length_seq. }
        apply (IH _ _ _ _ (ps ++ ps1)).
        -- lia.
        -- lia.
        -- cbn [rx_cnt]. unfold uint8. apply Z.mod_pos_bound. lia.
        -- reflexivity.
        -- rewrite length_app. lia.
        -- rewrite length_app. lia.
    + now rewrite (shift_byte_overrun must_end 8 _ _ _ _ ps)
        by first [ assumption | lia ].
Qed.

(** C6 at the failing inputs: a shift of 342 bits or more, such as the
    2048 bits of one flash page that [flash_prog] shifts through
    [xfer_spi] with [must_end] from Shift-DR, stores past the end of
    [data], whatever the input, the state and [must_end]: the call is
    undefined, and sends no last bit with TMS=1 and reaches no
    Exit1-DR. *)
Theorem shift_beyond_341_bits_overruns_data (input_data output_data : list Z)
    (data_bits : Z) (must_end : bool) (st : jtag) :
  342 <= data_bits < 4294967289 ->
  jtag_tap_shift input_data output_data data_bits must_end st = Undef.
Proof.
  intros HN. unfold jtag_tap_shift.
  assert (Hu : uint32 (data_bits + 7) = data_bits + 7)
    by (unfold uint32; apply Z.mod_small; lia).
  rewrite Hu.
  set (n := Z.to_nat ((data_bits - 1) / 8)).
  assert (Hn : Z.of_nat n = (data_bits - 1) / 8)
    by (unfold n; rewrite Z2Nat.id; [ reflexivity | apply Z.div_pos; lia ]).
  assert (Hq : (data_bits + 7) / 8 = (data_bits - 1) / 8 + 1).
  { replace (data_bits + 7) with (data_bits - 1 + 1 * 8) by lia.
    now rewrite Z.div_add by lia. }
  pose proof (Z.mul_div_le (data_bits - 1) 8 ltac:(lia)) as Hlo.
  pose proof (Z.mul_succ_div_gt (data_bits - 1) 8 ltac:(lia)) as Hhi.
  replace (Z.to_nat ((data_bits + 7) / 8)) with (S n) by lia.
  now rewrite (shift_bytes_overrun must_end input_data n 0 data_bits st _ [])
    by first [ exact eq_refl | cbn [rx_cnt length]; lia ].
Qed.

Lemma shift_beyond_341_bits_overruns_data_witness :
  342 <= 2048 < 4294967289 /\
  jtag_tap_shift (replicate 256 0xFF) (replicate 256 0xFF) 2048 true
    (jtag_at STATE_SHIFT_DR (fun _ => 0)) = Undef.
Proof.
  split; [ lia | ].
  apply (shift_beyond_341_bits_overruns_data (replicate 256 0xFF)
           (replicate 256 0xFF) 2048 true
           (jtag_at STATE_SHIFT_DR (fun _ => 0))).
  lia.
Defined.

(* ===================================================================== *)
(** * Properties of the status register read *)
(* ===================================================================== *)





(* ===================================================================== *)
(** * Properties of the erase planning *)
(* ===================================================================== *)

Lemma int32_small (z : Z) :
  -2147483648 <= z < 2147483648 -> int32 z = z.
Proof. intros H. unfold int32. rewrite Z.mod_small; lia. Qed.

Lemma int64_small (z : Z) :
  -9223372036854775808 <= z < 9223372036854775808 -> int64 z = z.
Proof. intros H. unfold int64. rewrite Z.mod_small; lia. Qed.

(** Clearing the bits below [2^n] rounds down to a multiple of [2^n]. *)
Lemma land_lnot_mask (x n : Z) :
  0 <= n -> Z.land x (Z.lnot (2 ^ n - 1)) = x / 2 ^ n * 2 ^ n.
Proof.
  intros Hn.
  rewrite <- Z.ldiff_land.
  replace (2 ^ n - 1) with (Z.ones n) by (rewrite Z.ones_equiv; lia).
  rewrite Z.ldiff_ones_r by assumption.
  now rewrite Z.shiftl_mul_pow2, Z.shiftr_div_pow2.
Qed.

(** The block size in bytes is a power of two for the three sizes the
    command line accepts. *)
Lemma block_size_pow2 (erase_block_size : Z) :
  erase_block_size = 4 \/ erase_block_size = 32 \/ erase_block_size = 64 ->
  exists n, 0 <= n /\ erase_block_size * 1024 = 2 ^ n /\
            int32 (Z.shiftl erase_block_size 10) = erase_block_size * 1024.
Proof.
  intros [-> | [-> | ->]];
    [ exists 12 | exists 15 | exists 16 ]; repeat split; lia.
Qed.

(** [erase_range] is the aligned range, as long as the sum that is
    rounded up fits an [int]. *)
Lemma erase_range_aligned (erase_block_size rw_offset file_size : Z) :
  erase_block_size = 4 \/ erase_block_size = 32 \/ erase_block_size = 64 ->
  0 <= rw_offset -> 0 <= file_size ->
  rw_offset + file_size + erase_block_size * 1024 - 1 < 2147483648 ->
  let B := erase_block_size * 1024 in
  erase_range erase_block_size rw_offset file_size =
    (B, rw_offset / B * B, (rw_offset + file_size + B - 1) / B * B).
Proof.
  intros HB Ho Hl Hmax B.
  destruct (block_size_pow2 _ HB) as (n & Hn & HBn & Hsh).
  assert (HBpos : 0 < B) by (unfold B; lia).
  unfold erase_range. rewrite Hsh. fold B.
  rewrite (int32_small (B - 1)) by lia.
  rewrite int64_small by lia.
  unfold B at 2 4. rewrite HBn, !land_lnot_mask by assumption.
  rewrite <- HBn. fold B.
  assert (H1 : 0 <= rw_offset / B * B <= rw_offset).
  { pose proof (Z.mul_div_le rw_offset B HBpos).
    pose proof (Z.div_pos rw_offset B Ho HBpos). nia. }
  assert (H2 : 0 <= (rw_offset + file_size + (B - 1)) / B * B
               <= rw_offset + file_size + (B - 1)).
  { pose proof (Z.mul_div_le (rw_offset + file_size + (B - 1)) B HBpos).
    assert (0 <= (rw_offset + file_size + (B - 1)) / B)
      by (apply Z.div_pos; lia). nia. }
  rewrite !int32_small by lia.
  replace (rw_offset + file_size + B - 1) with (rw_offset + file_size + (B - 1))
    by lia.
  reflexivity.
Qed.

(** The erase loop walks through the blocks one after the other. *)
Lemma erase_loop_blocks (verbose : bool) (erase_block_size B : Z) (n : nat) :
  0 < B ->
  forall (fuel : nat) (addr : Z),
    (n <= fuel)%nat ->
    -2147483648 <= addr ->
    addr + Z.of_nat n * B < 2147483648 ->
    erase_loop fuel verbose erase_block_size B addr (addr + Z.of_nat n * B) =
      Ok (flat_map (erase_step verbose erase_block_size)
            (map (fun k => addr + Z.of_nat k * B) (seq 0 n))).
Proof.
  intros HB. induction n as [|n IH]; intros fuel addr Hf Hlo Hhi.
  - replace (addr + Z.of_nat 0 * B) with addr by lia.
    destruct fuel; simpl; rewrite Z.ltb_irrefl; reflexivity.
  - destruct fuel as [|fuel]; [lia|].
    cbn [erase_loop].
    replace (addr <? addr + Z.of_nat (S n) * B) with true
      by (symmetry; apply Z.ltb_lt; nia).
    rewrite int32_small by nia.
    replace (addr + Z.of_nat (S n) * B) with (addr + B + Z.of_nat n * B) by lia.
    rewrite IH by (try lia; nia).
    cbn [rbind seq map flat_map]. f_equal. f_equal.
    + f_equal. lia.
    + rewrite <- seq_shift, map_map. f_equal.
      apply map_ext. intros k. lia.
Qed.

(** The erase commands among the events of the erase loop. *)
Lemma erase_commands_steps (verbose : bool) (erase_block_size : Z)
    (addrs : list Z) :
  erase_block_size = 4 \/ erase_block_size = 32 \/ erase_block_size = 64 ->
  erase_commands (flat_map (erase_step verbose erase_block_size) addrs) =
    map (command (erase_opcode erase_block_size)) addrs.
Proof.
  intros HB. induction addrs as [|a addrs IH]; [reflexivity|].
  cbn [flat_map map]. unfold erase_commands in *.
  rewrite flat_map_app, IH.
  destruct HB as [-> | [-> | ->]]; destruct verbose; reflexivity.
Qed.

Lemma command_addr_small (cmd a : Z) :
  0 <= a < 16777216 -> command_addr (command cmd a) = a.
Proof.
  intros Ha. unfold command, command_addr, uint8.
  rewrite !Z.shiftr_div_pow2 by lia.
  change (2 ^ 16) with 65536. change (2 ^ 8) with 256.
  pose proof (Z.div_mod a 256 ltac:(lia)) as H0.
  pose proof (Z.mod_pos_bound a 256 ltac:(lia)) as Hb0.
  pose proof (Z.div_mod (a / 256) 256 ltac:(lia)) as H1.
  pose proof (Z.mod_pos_bound (a / 256) 256 ltac:(lia)) as Hb1.
  assert (H16 : a / 65536 = a / 256 / 256)
    by (rewrite Z.div_div by lia; reflexivity).
  assert (Hsmall : 0 <= a / 65536 < 256).
  { split; [ apply Z.div_pos; lia | apply Z.div_lt_upper_bound; lia ]. }
  rewrite (Z.mod_small (a / 65536)) by lia. lia.
Qed.

(** The blocks of the aligned range of a request that ends within
    16 MiB start below 16 MiB. *)
Lemma aligned_blocks_below_16MiB (erase_block_size rw_offset file_size b : Z) :
  erase_block_size = 4 \/ erase_block_size = 32 \/ erase_block_size = 64 ->
  0 <= rw_offset -> 0 <= file_size ->
  rw_offset + file_size <= 16777216 ->
  In b (aligned_blocks (erase_block_size * 1024) rw_offset file_size) ->
  0 <= b < 16777216.
Proof.
  intros HB Ho Hl Hmax Hin. unfold aligned_blocks in Hin.
  apply in_map_iff in Hin as (k & <- & Hk). apply in_seq in Hk.
  destruct HB as [-> | [-> | ->]];
    match goal with
    | |- context [rw_offset / ?B] =>
        pose proof (Z.mul_div_le rw_offset B ltac:(lia));
        pose proof (Z.mul_succ_div_gt rw_offset B ltac:(lia));
        pose proof (Z.mul_div_le (rw_offset + file_size + B - 1) B ltac:(lia));
        assert (0 <= rw_offset / B) by (apply Z.div_pos; lia);
        assert (rw_offset / B <= (rw_offset + file_size + B - 1) / B)
          by (apply Z.div_le_mono; lia)
    end; lia.
Qed.

Lemma command_addr_blocks (cmd : Z) (blocks : list Z) :
  (forall b, In b blocks -> 0 <= b < 16777216) ->
  map command_addr (map (command cmd) blocks) = blocks.
Proof.
  intros H. rewrite map_map.
  rewrite <- (map_id blocks) at 2.
  apply map_ext_in. intros b Hb. apply command_addr_small, H, Hb.
Qed.

(** The erase branch over the blocks of the aligned range. *)
Lemma erase_blocks_run (verbose : bool)
    (erase_block_size rw_offset file_size : Z) (k : nat) :
  erase_block_size = 4 \/ erase_block_size = 32 \/ erase_block_size = 64 ->
  0 <= rw_offset -> 0 <= file_size ->
  rw_offset + file_size + erase_block_size * 1024 - 1 < 2147483648 ->
  let blocks := aligned_blocks (erase_block_size * 1024) rw_offset file_size in
  erase_blocks (length blocks + k) verbose erase_block_size rw_offset file_size
    = Ok (flat_map (erase_step verbose erase_block_size) blocks).
Proof.
  intros HB Ho Hl Hmax blocks. unfold erase_blocks.
  rewrite erase_range_aligned by assumption. cbv zeta.
  set (B := erase_block_size * 1024) in *.
  assert (HBpos : 0 < B) by (unfold B; lia).
  set (lo := rw_offset / B) in *.
  set (hi := (rw_offset + file_size + B - 1) / B) in *.
  assert (Hlo : 0 <= lo) by (apply Z.div_pos; lia).
  assert (Hlohi : lo <= hi) by (apply Z.div_le_mono; lia).
  assert (Hhi : hi * B <= rw_offset + file_size + B - 1)
    by (pose proof (Z.mul_div_le (rw_offset + file_size + B - 1) B HBpos); lia).
  assert (Hn : length blocks = Z.to_nat (hi - lo))
    by (unfold blocks, aligned_blocks; now rewrite length_map, length_seq).
  replace (hi * B) with (lo * B + Z.of_nat (Z.to_nat (hi - lo)) * B)
    by (rewrite Z2Nat.id by lia; lia).
  rewrite erase_loop_blocks; try lia; try nia.
  unfold blocks, aligned_blocks. fold lo hi.
  do 2 f_equal. apply map_ext. intros j. lia.
Qed.

Lemma erase_commands_opcode (erase_block_size : Z) (blocks : list Z) :
  Forall (fun c => hd 0 c = erase_opcode erase_block_size)
         (map (command (erase_opcode erase_block_size)) blocks).
Proof. induction blocks as [ | b blocks IH ]; constructor; [ reflexivity | exact IH ]. Qed.

(** C3, as amended: for an erase request of [file_size] bytes at
    [rw_offset] that ends within the 16 MiB the three address bytes of
    a flash command reach, and a block size of 4, 32 or 64 KiB, the
    erase branch returns as soon as the fuel covers the number of
    blocks; its events are the erase step of one block after the other
    for the blocks of the aligned range, in increasing order of
    address, and the erase commands sent are one for each of these
    blocks and no other: each has the opcode of the block size, and
    the addresses their address bytes carry are the block addresses, in
    this order. *)
Theorem erase_blocks_aligned_range (verbose : bool)
    (erase_block_size rw_offset file_size : Z) :
  erase_block_size = 4 \/ erase_block_size = 32 \/ erase_block_size = 64 ->
  0 <= rw_offset -> 0 <= file_size ->
  rw_offset + file_size <= 16777216 ->
  let blocks := aligned_blocks (erase_block_size * 1024) rw_offset file_size in
  exists evs,
    (forall k,
        erase_blocks (length blocks + k) verbose erase_block_size rw_offset
          file_size = Ok evs) /\
    evs = flat_map (erase_step verbose erase_block_size) blocks /\
    map command_addr (erase_commands evs) = blocks /\
    Forall (fun c => hd 0 c = erase_opcode erase_block_size)
           (erase_commands evs) /\
    erase_commands evs = map (command (erase_opcode erase_block_size)) blocks.
Proof.
  intros HB Ho Hl Hmax blocks.
  exists (flat_map (erase_step verbose erase_block_size) blocks).
  split.
  - intros k. apply erase_blocks_run; try assumption. lia.
  - split; [ reflexivity | ].
    rewrite erase_commands_steps by exact HB.
    split; [ | split; [ apply erase_commands_opcode | reflexivity ] ].
    apply command_addr_blocks. intros b Hb.
    now apply (aligned_blocks_below_16MiB erase_block_size rw_offset file_size).
Qed.

Lemma erase_blocks_aligned_range_witness :
  (64 = 4 \/ 64 = 32 \/ 64 = 64) /\ 0 <= 0x100000 /\ 0 <= 294312 /\
  0x100000 + 294312 <= 16777216 /\
  exists evs,
    (forall k,
        erase_blocks (length (aligned_blocks (64 * 1024) 0x100000 294312) + k)
          false 64 0x100000 294312 = Ok evs) /\
    evs = flat_map (erase_step false 64)
            (aligned_blocks (64 * 1024) 0x100000 294312) /\
    map command_addr (erase_commands evs) =
      aligned_blocks (64 * 1024) 0x100000 294312 /\
    Forall (fun c => hd 0 c = erase_opcode 64) (erase_commands evs) /\
    erase_commands evs =
      map (command (erase_opcode 64))
          (aligned_blocks (64 * 1024) 0x100000 294312).
Proof.
  repeat (split; [ lia | ]).
  apply (erase_blocks_aligned_range false 64 0x100000 294312); lia.
Defined.

(** C3 as stated fails beyond 16 MiB: for one byte at 0x1000000 and
    64 KiB blocks the aligned range is the block at 0x1000000, and the
    one erase command sent carries the address 0: the block erased is
    the first block of the flash, outside the aligned range. *)
Lemma erase_beyond_16MiB_erases_block_0 :
  aligned_blocks (64 * 1024) 0x1000000 1 = [0x1000000] /\
  exists evs,
    erase_blocks 1 false 64 0x1000000 1 = Ok evs /\
    erase_commands evs = [[FC_BE64; 0x00; 0x00; 0x00]] /\
    map command_addr (erase_commands evs) = [0x000000] /\
    map command_addr (erase_commands evs) <>
      aligned_blocks (64 * 1024) 0x1000000 1.
Proof.
  split; [ reflexivity | ].
  eexists. split; [ vm_compute; reflexivity | ].
  split; [ reflexivity | split; [ reflexivity | discriminate ] ].
Qed.

(** C2, as amended: for offset 0x00F000, length 0x2000 and 64 KiB
    blocks the computed erase range is [0x000000, 0x020000), the
    request reaching over the block boundary at 0x010000, and exactly
    two 64 KiB block-erase commands are sent, for 0x000000 and then
    for 0x010000. *)
Theorem erase_example_two_blocks (verbose : bool) (k : nat) :
  erase_range 64 0x00F000 0x2000 = (0x010000, 0x000000, 0x020000) /\
  erase_blocks (2 + k) verbose 64 0x00F000 0x2000 =
    Ok (erase_step verbose 64 0x000000 ++ erase_step verbose 64 0x010000) /\
  erase_commands
    (erase_step verbose 64 0x000000 ++ erase_step verbose 64 0x010000) =
    [ [FC_BE64; 0x00; 0x00; 0x00]; [FC_BE64; 0x01; 0x00; 0x00] ].
Proof.
  split; [ reflexivity | split ].
  - unfold erase_blocks.
    replace (erase_range 64 0x00F000 0x2000)
      with (0x010000, 0x000000, 0 + Z.of_nat 2 * 0x010000) by reflexivity.
    rewrite erase_loop_blocks by lia.
    cbn [seq map flat_map]. now rewrite app_nil_r.
  - destruct verbose; reflexivity.
Qed.

(** C2 as stated fails: the range computed for the example is not
    [0x000000, 0x010000), and the run does not send just one erase
    command. *)
Lemma erase_example_not_one_block :
  ~ (exists block_size,
        erase_range 64 0x00F000 0x2000 = (block_size, 0x000000, 0x010000)) /\
  ~ (forall fuel evs,
        erase_blocks fuel false 64 0x00F000 0x2000 = Ok evs ->
        length (erase_commands evs) = 1%nat).
Proof.
  split.
  - intros [bs H]. vm_compute in H. discriminate.
  - intros H. specialize (H 2%nat _ eq_refl). vm_compute in H. discriminate.
Qed.

(* ===================================================================== *)
(** * Properties of the page programming *)
(* ===================================================================== *)

(** The three address bytes of a command give back an address below
    16 MiB. *)
Lemma command_address (cmd a : Z) :
  0 <= a < 16777216 ->
  command cmd a =
    [ cmd; a / 65536; a / 256 mod 256; a mod 256 ] /\
  a / 65536 * 65536 + a / 256 mod 256 * 256 + a mod 256 = a.
Proof.
  intros Ha. unfold command, uint8.
  rewrite !Z.shiftr_div_pow2 by lia.
  change (2 ^ 16) with 65536. change (2 ^ 8) with 256.
  assert (H16 : 0 <= a / 65536 < 256).
  { split; [ apply Z.div_pos; lia | apply Z.div_lt_upper_bound; lia ]. }
  rewrite (Z.mod_small (a / 65536)) by lia.
  split; [ reflexivity | ].
  pose proof (Z.div_mod a 256 ltac:(lia)) as H1.
  pose proof (Z.div_mod (a / 256) 256 ltac:(lia)) as H2.
  replace (a / 65536) with (a / 256 / 256)
    by (rewrite Z.div_div by lia; reflexivity).
  lia.
Qed.

(** One turn of the inner loop among the page program commands. *)
Lemma prog_commands_turn (verbose : bool) (a : Z) (d : list Z)
    (rest : list flash_event) :
  0 <= a < 16777216 ->
  prog_commands
    ((flash_write_enable verbose ++
      [SpiSend (command FC_PP a); SpiXfer d; FlashWait]) ++ rest)
  = (a, d) :: prog_commands rest.
Proof.
  intros Ha. destruct (command_address FC_PP a Ha) as (Hc & Hd).
  rewrite Hc.
  destruct verbose; cbn; rewrite Hd; reflexivity.
Qed.

(** What the inner loop of the program branch sends, by design: the
    chain of page program commands described by [page_chain]. *)
Lemma page_loop_chain (verbose : bool) (rw_offset addr rc : Z)
    (buffer_file : list Z) (fuel : nat) :
  0 <= rw_offset + addr ->
  rc <= read_blocksize ->
  Z.of_nat (length buffer_file) = read_blocksize ->
  rw_offset + addr + read_blocksize <= 16777216 ->
  forall (block_offset : Z) (evs : list flash_event),
    0 <= block_offset ->
    page_loop fuel verbose rw_offset addr rc block_offset buffer_file
      = Ok evs ->
    page_chain buffer_file (rw_offset + addr)
      (rw_offset + addr + block_offset) (prog_commands evs).
Proof.
  intros Hbase Hrc Hlen Hmax. unfold read_blocksize in *.
  induction fuel as [|fuel IH]; intros block_offset evs Hbo Hrun;
    cbn [page_loop] in Hrun;
    destruct (block_offset <? rc) eqn:Elt;
    try (injection Hrun as <-; exact I); try discriminate Hrun.
  apply Z.ltb_lt in Elt.
  set (wa := rw_offset + addr + block_offset) in *.
  rewrite (int32_small wa) in Hrun by (unfold wa; lia).
  rewrite Z.rem_mod_nonneg in Hrun by (unfold wa; lia).
  pose proof (Z.mod_pos_bound wa 256 ltac:(lia)) as Hm.
  rewrite (int32_small (256 - wa mod 256)) in Hrun by lia.
  unfold read_blocksize, uint32 in Hrun.
  rewrite (Z.mod_small (block_offset + (256 - wa mod 256))) in Hrun by lia.
  rewrite (Z.mod_small (256 * 32 - block_offset)) in Hrun by lia.
  rewrite (int32_small (256 * 32 - block_offset)) in Hrun by lia.
  set (written := if block_offset + (256 - wa mod 256) >? 256 * 32
                  then 256 * 32 - block_offset else 256 - wa mod 256) in *.
  assert (Hw : written = Z.min (256 - wa mod 256) (8192 - block_offset)).
  { unfold written.
    destruct (Z.gtb_spec (block_offset + (256 - wa mod 256)) (256 * 32)); lia. }
  assert (Hw1 : 1 <= written <= 256) by lia.
  unfold memcpy_tx in Hrun.
  replace ((0 <=? written) && (written <=? 256) && (0 <=? block_offset)
           && (block_offset + written <=? Z.of_nat (length buffer_file)))
    with true in Hrun by (rewrite Hlen; zbool).
  cbn [rbind] in Hrun.
  rewrite (int32_small (block_offset + written)) in Hrun by lia.
  apply rbind_ok in Hrun as (rest & Hrest & Hevs).
  injection Hevs as <-.
  rewrite prog_commands_turn by (unfold wa; lia).
  rewrite take_take, Nat.min_id.
  set (d := take (Z.to_nat written) (drop (Z.to_nat block_offset) buffer_file)).
  assert (Hd : Z.of_nat (length d) = written).
  { unfold d. rewrite length_take, length_drop. lia. }
  cbn [page_chain]. rewrite Hd.
  replace (wa - (rw_offset + addr)) with block_offset by (unfold wa; lia).
  repeat split.
  - lia.
  - unfold read_blocksize. lia.
  - unfold d. rewrite length_take, length_drop. f_equal. lia.
  - replace (wa + written) with (rw_offset + addr + (block_offset + written))
      by (unfold wa; lia).
    apply IH; [ lia | exact Hrest ].
Qed.

(** Every command of such a chain stays within one page, and so does
    every command the inner loop sends. *)
Lemma page_chain_within_page (buffer_file : list Z) (base : Z)
    (cs : list (Z * list Z)) :
  forall a, base <= a -> a - base < read_blocksize ->
            page_chain buffer_file base a cs -> Forall within_page cs.
Proof.
  unfold read_blocksize.
  induction cs as [|[a' d] cs IH]; intros a Ha Hb Hc; [ constructor | ].
  cbn [page_chain] in Hc. destruct Hc as (-> & Hpos & Hlen & _ & Hrest).
  unfold read_blocksize in *.
  pose proof (Z.mod_pos_bound a 256 ltac:(lia)) as Hm.
  constructor.
  - unfold within_page. cbn [fst snd]. split; [ lia | ].
    pose proof (Z.div_mod a 256 ltac:(lia)) as Hdm.
    apply (Z.div_unique_pos _ _ _ (a mod 256 + Z.of_nat (length d) - 1));
      lia.
  - destruct cs as [|[a2 d2] cs2]; [ constructor | ].
    apply (IH (a + Z.of_nat (length d))); try lia; [ | exact Hrest ].
    cbn [page_chain] in Hrest. destruct Hrest as (_ & Hpos2 & Hlen2 & _).
    unfold read_blocksize in *.
    pose proof (Z.mod_pos_bound (a + Z.of_nat (length d)) 256 ltac:(lia)).
    lia.
Qed.

Lemma page_loop_within_page (verbose : bool) (rw_offset addr rc : Z)
    (buffer_file : list Z) (fuel : nat) (evs : list flash_event) :
  0 <= rw_offset + addr ->
  rc <= read_blocksize ->
  Z.of_nat (length buffer_file) = read_blocksize ->
  rw_offset + addr + read_blocksize <= 16777216 ->
  page_loop fuel verbose rw_offset addr rc 0 buffer_file = Ok evs ->
  Forall within_page (prog_commands evs).
Proof.
  intros Hbase Hrc Hlen Hmax Hrun.
  apply (page_chain_within_page buffer_file (rw_offset + addr) _
           (rw_offset + addr + 0)); [ lia | unfold read_blocksize; lia | ].
  now apply (page_loop_chain verbose rw_offset addr rc buffer_file fuel).
Qed.

(** C8 at the failing input, the example of the claim: 0x144 bytes
    [f 0], [f 1], ... to be programmed at 0x0FE, the read buffer
    holding [junk 0], [junk 1], ... before the file is read into it.
    The first two commands are the ones of the claim, 0x02 bytes at
    0x0FE and 0x100 bytes at 0x100; the third is 0x100 bytes at 0x200
    and not 0x42: after the last 0x42 bytes of the data it programs
    0xBE bytes of what the buffer held before. *)
Theorem program_example_last_page (f junk : nat -> Z)
    (readback : Z -> Z -> list Z) (k : nat) :
  exists evs,
    program_loop (2 + k) false false readback 0x0FE 0
      (map f (seq 0 (Z.to_nat 0x144)))
      (map junk (seq 0 (Z.to_nat read_blocksize))) = Ok evs /\
    prog_commands evs =
      [ (0x0FE, map f (seq 0 (Z.to_nat 0x02)));
        (0x100, map f (seq 2 (Z.to_nat 0x100)));
        (0x200, map f (seq 258 (Z.to_nat 0x42)) ++
                map junk (seq 324 (Z.to_nat 0xBE))) ].
Proof.
  eexists. split.
  - cbn [Nat.add]. vm_compute. reflexivity.
  - vm_compute. reflexivity.
Qed.

(* ===================================================================== *)
(** * Properties of the busy wait *)
(* ===================================================================== *)

Lemma three_clear_run (status : nat -> Z) (k : nat) :
  three_clear status k <-> (3 <= clear_run status k)%nat.
Proof.
  unfold three_clear.
  destruct k as [|[|[|k]]]; simpl.
  - split; [ intros (H & _) | intros H ]; lia.
  - split; [ intros (H & _); lia | destruct (ready (status 0%nat)); lia ].
  - split; [ intros (H & _); lia | ].
    destruct (ready (status 1%nat)); [ | lia ].
    destruct (ready (status 0%nat)); lia.
  - replace (k - 0)%nat with k by lia.
    destruct (ready (status (S (S k)))); [ | split; [ intros (_ & H & _); discriminate | lia ] ].
    destruct (ready (status (S k))); [ | split; [ intros (_ & _ & H & _); discriminate | lia ] ].
    destruct (ready (status k)); [ | split; [ intros (_ & _ & _ & H); discriminate | lia ] ].
    split; [ lia | intros _; repeat split; lia ].
Qed.

(** The loop of [flash_wait], started after [polls] reads with [count]
    the number of clear reads they end with, and no three in a row so
    far. *)
Lemma flash_wait_from_spec (status : nat -> Z) (fuel : nat) :
  forall (polls : nat) (count : Z) (k : nat),
    count = Z.of_nat (clear_run status polls) ->
    (forall j, (j <= polls)%nat -> (clear_run status j < 3)%nat) ->
    flash_wait_from fuel status count polls = Ok k <->
    (polls < k <= polls + fuel)%nat /\
    (3 <= clear_run status k)%nat /\
    (forall j, (j < k)%nat -> (clear_run status j < 3)%nat).
Proof.
  induction fuel as [|fuel IH]; intros polls count k Hc Hinv.
  - simpl. split; [ discriminate | intros (H & _); lia ].
  - cbn [flash_wait_from].
    pose proof (Hinv polls (Nat.le_refl _)) as Hrun.
    assert (Hstep : clear_run status (S polls) =
                    if ready (status polls) then S (clear_run status polls)
                    else O) by reflexivity.
    fold (ready (status polls)).
    destruct (ready (status polls)) eqn:Hr.
    + destruct (count <? 2) eqn:Hlt.
      * apply Z.ltb_lt in Hlt.
        assert (Hinv' : forall j, (j <= S polls)%nat ->
                                  (clear_run status j < 3)%nat).
        { intros j Hj. destruct (Nat.eq_dec j (S polls)) as [-> | Hne];
            [ lia | apply Hinv; lia ]. }
        rewrite (IH (S polls) (count + 1) k) by (trivial; lia).
        split; intros (Hk & H3 & Hmin); (split; [ | split; assumption ]).
        -- lia.
        -- destruct (Nat.eq_dec k (S polls)) as [-> | Hne]; [ | lia ].
           specialize (Hinv' (S polls)). lia.
      * apply Z.ltb_ge in Hlt.
        split.
        -- intros [= <-]. split; [ lia | split; [ lia | ] ].
           intros j Hj. apply Hinv. lia.
        -- intros (Hk & H3 & Hmin).
           destruct (Nat.eq_dec k (S polls)) as [-> | Hne]; [ reflexivity | ].
           specialize (Hmin (S polls)). lia.
    + assert (Hinv' : forall j, (j <= S polls)%nat ->
                                (clear_run status j < 3)%nat).
      { intros j Hj. destruct (Nat.eq_dec j (S polls)) as [-> | Hne];
          [ lia | apply Hinv; lia ]. }
      rewrite (IH (S polls) 0 k) by (trivial; lia).
      split; intros (Hk & H3 & Hmin); (split; [ | split; assumption ]).
      * lia.
      * destruct (Nat.eq_dec k (S polls)) as [-> | Hne]; [ | lia ].
        specialize (Hinv' (S polls)). lia.
Qed.

(** [flash_wait] has no undefined step and no exit: it returns or it
    is still polling. *)
Lemma flash_wait_from_outcome (status : nat -> Z) (fuel : nat) :
  forall (polls : nat) (count : Z),
    (exists k, flash_wait_from fuel status count polls = Ok k) \/
    flash_wait_from fuel status count polls = Timeout.
Proof.
  induction fuel as [|fuel IH]; intros polls count; simpl; [ now right | ].
  destruct (Z.land (status polls) 1 =? 0); [ | apply IH ].
  destruct (count <? 2); [ apply IH | left; eauto ].
Qed.

(** C9: over the stream of status bytes it reads, [flash_wait] returns
    after [k] reads exactly when these are the first [k] reads that end
    with three reads in a row showing the busy bit clear (and the fuel
    covers [k] reads): not earlier, not later; and on a stream that
    never shows the busy bit clear three times in a row it does not
    return, whatever the fuel. *)
Theorem flash_wait_three_clear (status : nat -> Z) :
  (forall fuel k,
      flash_wait fuel status = Ok k <->
      (k <= fuel)%nat /\ first_three_clear status k) /\
  ((forall k, ~ three_clear status k) ->
   forall fuel, flash_wait fuel status = Timeout).
Proof.
  assert (Hiff : forall fuel k,
             flash_wait fuel status = Ok k <->
             (k <= fuel)%nat /\ first_three_clear status k).
  { intros fuel k. unfold flash_wait, first_three_clear.
    rewrite (flash_wait_from_spec status fuel 0%nat 0 k)
      by (trivial; intros j Hj; replace j with 0%nat by lia; simpl; lia).
    rewrite three_clear_run.
    split.
    - intros (Hk & H3 & Hmin). split; [ lia | split; [ assumption | ] ].
      intros j Hj. rewrite three_clear_run. specialize (Hmin j Hj). lia.
    - intros (Hk & H3 & Hmin). split; [ | split; [ assumption | ] ].
      + destruct k; [ simpl in H3 | ]; lia.
      + intros j Hj. specialize (Hmin j Hj). rewrite three_clear_run in Hmin.
        lia. }
  split; [ exact Hiff | ].
  intros Hnever fuel.
  destruct (flash_wait_from_outcome status fuel 0%nat 0) as [[k Hk] | Ht];
    [ | exact Ht ].
  apply Hiff in Hk. destruct Hk as (_ & H3 & _). now apply Hnever in H3.
Qed.

Lemma flash_wait_three_clear_witness :
  (forall k, ~ three_clear (fun _ => 0x03) k) /\
  (forall fuel, flash_wait fuel (fun _ => 0x03) = Timeout) /\
  flash_wait 5 (fun n => nth n [0x02; 0x03; 0x02; 0x02; 0x02] 0x03) = Ok 5%nat.
Proof.
  assert (H : forall k, ~ three_clear (fun _ => 0x03) k)
    by (intros k (_ & H & _); discriminate H).
  split; [ exact H | split ].
  - exact (proj2 (flash_wait_three_clear (fun _ => 0x03)) H).
  - reflexivity.
Defined.

(* ===================================================================== *)
(** * The buffered shift, bit by bit *)
(* ===================================================================== *)

Lemma tdi_of_byte (byte_out : Z) :
  negb (Z.land byte_out 1 =? 0) = Z.testbit byte_out 0.
Proof.
  change 1 with (Z.ones 1). rewrite Z.land_ones by lia.
  change (2 ^ 1) with 2. rewrite <- Z.bit0_mod.
  destruct (Z.testbit byte_out 0); reflexivity.
Qed.

Lemma byte_pulses_S (must_end : bool) (byte_out bit_count : Z) (m : nat) :
  byte_pulses must_end byte_out bit_count (S m) =
    ((bit_count - 1 =? 0) && must_end, negb (Z.land byte_out 1 =? 0))
    :: byte_pulses must_end (Z.shiftr byte_out 1) (bit_count - 1) m.
Proof.
  unfold byte_pulses. cbn [seq map]. f_equal.
  - rewrite tdi_of_byte. f_equal. destruct must_end; zbool.
  - rewrite <- seq_shift, map_map. apply map_ext. intros j. f_equal.
    + do 2 f_equal. lia.
    + rewrite Z.shiftr_spec by lia. f_equal. lia.
Qed.

Lemma byte_pulses_flags (must_end : bool) (byte_out bit_count : Z) (m : nat) :
  map fst (byte_pulses must_end byte_out bit_count m) =
    tms_flags must_end bit_count m.
Proof. unfold byte_pulses, tms_flags. now rewrite map_map. Qed.

(** The inner loop, with the pulses it queues spelt out. *)
Lemma shift_byte_exact (must_end : bool) (left : nat) :
  forall (byte_out bit_count : Z) (st st1 : jtag) (b : cmdbuf)
         (ps : list (bool * bool)),
    0 <= bit_count < 4294967296 ->
    0 <= rx_cnt b < 256 ->
    data b = pulses_bytes ps ->
    3 * (Z.of_nat (length ps) + Z.min (Z.of_nat left) bit_count) <= DATA_SIZE ->
    (if must_end && (0 <? bit_count) && (bit_count <=? Z.of_nat left)
     then jtag_state_ack true st else Ok st) = Ok st1 ->
    shift_byte left must_end byte_out bit_count st b =
      Ok (if bit_count <? Z.of_nat left then 4294967295
          else bit_count - Z.of_nat left,
          st1,
          {| data :=
               pulses_bytes
                 (ps ++ byte_pulses must_end byte_out bit_count
                          (Z.to_nat (Z.min (Z.of_nat left) bit_count)));
             rx_cnt := uint8 (rx_cnt b + Z.min (Z.of_nat left) bit_count) |}).
Proof.
  induction left as [|left IH];
    intros byte_out bit_count st st1 b ps Hbc Hrx Hdata Hroom Hack.
  - replace (Z.min (Z.of_nat 0) bit_count) with 0 by lia.
    cbn [shift_byte].
    replace (must_end && (0 <? bit_count) && (bit_count <=? Z.of_nat 0))
      with false in Hack by (destruct must_end; zbool).
    injection Hack as <-.
    replace (bit_count <? Z.of_nat 0) with false by zbool.
    cbn [Z.to_nat byte_pulses seq map].
    rewrite app_nil_r, <- Hdata, Z.add_0_r. unfold uint8.
    rewrite Z.mod_small by lia.
    rewrite Z.sub_0_r. destruct b; reflexivity.
  - cbn [shift_byte].
    destruct (0 <? bit_count) eqn:Epos.
    + apply Z.ltb_lt in Epos.
      assert (Hu : uint32 (bit_count - 1) = bit_count - 1)
        by (unfold uint32; apply Z.mod_small; lia).
      rewrite Hu.
      set (tms := (bit_count - 1 =? 0) && must_end).
      set (tdi := negb (Z.land byte_out 1 =? 0)).
      assert (Hmin : Z.min (Z.of_nat (S left)) bit_count =
                     Z.min (Z.of_nat left) (bit_count - 1) + 1) by lia.
      assert (Hpulse : jtag_pulse_clock_and_read_tdo tms tdi b =
                Ok {| data := pulses_bytes (ps ++ [(tms, tdi)]);
                      rx_cnt := uint8 (rx_cnt b + 1) |}).
      { unfold jtag_pulse_clock_and_read_tdo.
        replace (Z.of_nat (length (data b)) + 3 <=? DATA_SIZE) with true.
        - rewrite Hdata, pulses_bytes_app. cbn [pulses_bytes flat_map fst snd].
          now rewrite app_nil_r.
        - symmetry. apply Z.leb_le. rewrite Hdata, length_pulses_bytes. lia. }
      assert (Hst : exists st0,
                 (if tms then jtag_state_ack true st else Ok st) = Ok st0 /\
                 (if must_end && (0 <? bit_count - 1)
                     && (bit_count - 1 <=? Z.of_nat left)
                  then jtag_state_ack true st0 else Ok st0) = Ok st1).
      { unfold tms. destruct must_end; cbn [andb] in *.
        - destruct (bit_count - 1 =? 0) eqn:E0; cbn [andb].
          + apply Z.eqb_eq in E0.
            replace (0 <? bit_count) with true in Hack by zbool.
            replace (bit_count <=? Z.of_nat (S left)) with true in Hack
              by zbool.
            exists st1. split; [ exact Hack | ].
            replace (0 <? bit_count - 1) with false by zbool.
            reflexivity.
          + apply Z.eqb_neq in E0. exists st. split; [ reflexivity | ].
            replace (0 <? bit_count) with true in Hack by zbool.
            replace (0 <? bit_count - 1) with true by zbool.
            replace (bit_count - 1 <=? Z.of_nat left)
              with (bit_count <=? Z.of_nat (S left)) by zbool.
            exact Hack.
        - rewrite andb_false_r. exists st. split; [ reflexivity | exact Hack ]. }
      destruct Hst as (st0 & Hnow & Hlater).
      rewrite Hnow. cbn [rbind]. rewrite Hpulse. cbn [rbind].
      rewrite (IH (Z.shiftr byte_out 1) (bit_count - 1) st0 st1
                 {| data := pulses_bytes (ps ++ [(tms, tdi)]);
                    rx_cnt := uint8 (rx_cnt b + 1) |}
                 (ps ++ [(tms, tdi)])).
      * cbn [rx_cnt data]. do 2 f_equal.
        -- f_equal. zbool.
        -- f_equal.
           ++ rewrite Hmin, Z2Nat.inj_add by lia.
              replace (Z.to_nat 1) with 1%nat by reflexivity.
              rewrite Nat.add_1_r, byte_pulses_S. fold tms tdi.
              now rewrite <- app_assoc.
           ++ rewrite uint8_add_1. f_equal. lia.
      * lia.
      * cbn [rx_cnt]. unfold uint8. apply Z.mod_pos_bound. lia.
      * reflexivity.
      * rewrite length_app. cbn [length]. lia.
      * exact Hlater.
    + apply Z.ltb_ge in Epos. assert (bit_count = 0) by lia. subst bit_count.
      replace (Z.min (Z.of_nat (S left)) 0) with 0 by lia.
      assert (Hst : st1 = st)
        by (destruct must_end; cbn [andb Z.ltb Z.compare] in Hack; congruence).
      subst st1.
      cbn [Z.to_nat byte_pulses seq map].
      rewrite app_nil_r, <- Hdata, Z.add_0_r.
      unfold uint8. rewrite (Z.mod_small (rx_cnt b)) by lia.
      replace (0 <? Z.of_nat (S left)) with true by zbool.
      destruct b; reflexivity.
Qed.

Lemma index_nth (l : list Z) (i : nat) :
  (i < length l)%nat -> index l (Z.of_nat i) = Ok (nth i l 0).
Proof.
  intros H. unfold index.
  replace (Z.of_nat i <? 0) with false by zbool.
  rewrite Nat2Z.id, nth_lookup.
  destruct (l !! i) eqn:E; [ reflexivity | ].
  apply lookup_ge_None in E. lia.
Qed.

Lemma pulses_from_byte (must_end : bool) (input_data : list Z) (i : nat)
    (bit_count : Z) (m : nat) :
  (m <= 8)%nat ->
  pulses_from must_end input_data i bit_count m =
    byte_pulses must_end (nth i input_data 0) bit_count m.
Proof.
  intros Hm. unfold pulses_from, byte_pulses.
  apply map_ext_in. intros k Hk. apply in_seq in Hk.
  rewrite Nat.div_small, Nat.mod_small, Nat.add_0_r by lia. reflexivity.
Qed.

Lemma pulses_from_split (must_end : bool) (input_data : list Z) (i : nat)
    (bit_count : Z) (m : nat) :
  pulses_from must_end input_data i bit_count (8 + m) =
    byte_pulses must_end (nth i input_data 0) bit_count 8 ++
    pulses_from must_end input_data (S i) (bit_count - 8) m.
Proof.
  rewrite <- (pulses_from_byte must_end input_data i bit_count 8) by lia.
  unfold pulses_from. rewrite seq_app, map_app. f_equal.
  cbn [Nat.add].
  replace (seq 8 m) with (map (Nat.add 8) (seq 0 m))
    by (apply (fmap_add_seq 8 0 m)).
  rewrite map_map. apply map_ext. intros k.
  replace (8 + k)%nat with (k + 1 * 8)%nat by lia.
  rewrite Nat.div_add, Nat.Div0.mod_add by lia.
  f_equal.
  - do 2 f_equal. lia.
  - do 2 f_equal. lia.
Qed.

(** The outer loop, with the pulses it queues spelt out. *)
Lemma shift_bytes_exact (must_end : bool) (input_data : list Z) (n : nat) :
  forall (i : nat) (bit_count : Z) (st st1 : jtag) (b : cmdbuf)
         (ps : list (bool * bool)),
    (i + S n <= length input_data)%nat ->
    8 * Z.of_nat n < bit_count <= 8 * Z.of_nat (S n) ->
    0 <= rx_cnt b < 256 ->
    data b = pulses_bytes ps ->
    3 * (Z.of_nat (length ps) + bit_count) <= DATA_SIZE ->
    (if must_end then jtag_state_ack true st else Ok st) = Ok st1 ->
    shift_bytes (S n) (Z.of_nat i) input_data must_end bit_count st b =
      Ok (st1,
          {| data :=
               pulses_bytes
                 (ps ++ pulses_from must_end input_data i bit_count
                          (Z.to_nat bit_count));
             rx_cnt := uint8 (rx_cnt b + bit_count) |}).
Proof.
  induction n as [|n IH];
    intros i bit_count st st1 b ps Hlen Hbc Hrx Hdata Hroom Hack;
    unfold DATA_SIZE in Hroom;
    rewrite shift_bytes_S, index_nth by lia;
    cbn [rbind].
  - rewrite (shift_byte_exact must_end 8 _ bit_count st st1 b ps);
      try assumption; try (unfold DATA_SIZE; lia).
    + cbn [rbind shift_bytes fst snd].
      replace (Z.min (Z.of_nat 8) bit_count) with bit_count by lia.
      rewrite pulses_from_byte by lia. reflexivity.
    + replace (must_end && (0 <? bit_count) && (bit_count <=? Z.of_nat 8))
        with must_end by (destruct must_end; zbool).
      exact Hack.
  - rewrite (shift_byte_exact must_end 8 _ bit_count st st b ps);
      try assumption; try (unfold DATA_SIZE; lia).
    + cbn [rbind fst snd].
      replace (Z.min (Z.of_nat 8) bit_count) with 8 by lia.
      replace (bit_count <? Z.of_nat 8) with false by zbool.
      change (Z.of_nat 8) with 8. change (Z.to_nat 8) with 8%nat.
      replace (Z.of_nat i + 1) with (Z.of_nat (S i)) by lia.
      rewrite (IH (S i) (bit_count - 8) st st1 _
                 (ps ++ byte_pulses must_end (nth i input_data 0) bit_count 8)).
      * cbn [rx_cnt data]. rewrite <- app_assoc, uint8_idemp_add.
        do 3 f_equal.
        -- f_equal.
           replace (Z.to_nat bit_count)
             with (8 + Z.to_nat (bit_count - 8))%nat by lia.
           now rewrite pulses_from_split.
        -- f_equal. lia.
      * lia.
      * lia.
      * cbn [rx_cnt]. unfold uint8. apply Z.mod_pos_bound. lia.
      * reflexivity.
      * rewrite length_app. unfold byte_pulses.
        rewrite length_map, length_seq. unfold DATA_SIZE. lia.
      * exact Hack.
    + replace (must_end && (0 <? bit_count) && (bit_count <=? Z.of_nat 8))
        with false by (destruct must_end; zbool).
      reflexivity.
Qed.

Lemma shift_pulses_from (must_end : bool) (input_data : list Z)
    (data_bits : Z) :
  shift_pulses must_end input_data data_bits =
    pulses_from must_end input_data 0 data_bits (Z.to_nat data_bits).
Proof. reflexivity. Qed.

(** [jtag_tap_shift] within the room of the command buffer, as one
    equation: the output buffer and the state it leaves. *)
Lemma jtag_tap_shift_exact (input_data output_data : list Z)
    (data_bits : Z) (must_end : bool) (st st1 : jtag) :
  0 <= data_bits <= 341 ->
  (data_bits + 7) / 8 <= Z.of_nat (length input_data) ->
  data_bits mod 256 / 8 <= Z.of_nat (length output_data) ->
  (if must_end && (0 <? data_bits) then jtag_state_ack true st else Ok st)
    = Ok st1 ->
  jtag_tap_shift input_data output_data data_bits must_end st =
    Ok (delivered st1 (Z.to_nat (data_bits mod 256 / 8)) output_data,
        after_shift must_end input_data data_bits st1).
Proof.
  intros HN Hin Hout Hack. unfold jtag_tap_shift, after_shift.
  assert (Hu : uint32 (data_bits + 7) = data_bits + 7)
    by (unfold uint32; apply Z.mod_small; lia).
  rewrite Hu.
  destruct (Z.eq_dec data_bits 0) as [-> | Hnz].
  - rewrite andb_false_r in Hack. injection Hack as <-. reflexivity.
  - replace (must_end && (0 <? data_bits)) with must_end in Hack
      by (destruct must_end; zbool).
    replace (data_bits =? 0) with false by zbool.
    set (n := Z.to_nat ((data_bits - 1) / 8)).
    assert (Hn : Z.of_nat n = (data_bits - 1) / 8)
      by (unfold n; rewrite Z2Nat.id; [ reflexivity | apply Z.div_pos; lia ]).
    assert (Hq : (data_bits + 7) / 8 = (data_bits - 1) / 8 + 1).
    { replace (data_bits + 7) with (data_bits - 1 + 1 * 8) by lia.
      now rewrite Z.div_add by lia. }
    pose proof (Z.mul_div_le (data_bits - 1) 8 ltac:(lia)) as Hlo.
    pose proof (Z.mul_succ_div_gt (data_bits - 1) 8 ltac:(lia)) as Hhi.
    replace (Z.to_nat ((data_bits + 7) / 8)) with (S n) by lia.
    change 0 with (Z.of_nat 0) at 1.
    rewrite (shift_bytes_exact must_end input_data n 0 data_bits st st1
               {| data := []; rx_cnt := 0 |} []);
      cbn [rx_cnt data length];
      [ | lia | lia | lia | reflexivity | unfold DATA_SIZE; lia | exact Hack ].
    cbn [rbind app rx_cnt data].
    rewrite <- shift_pulses_from.
    set (ps := shift_pulses must_end input_data data_bits).
    assert (Hlps : Z.of_nat (length ps) = data_bits).
    { unfold ps, shift_pulses. rewrite length_map, length_seq. lia. }
    assert (Hrxc : uint8 (0 + data_bits) = data_bits mod 256) by reflexivity.
    rewrite Hrxc.
    pose proof (Z.mod_pos_bound data_bits 256 ltac:(lia)) as Hmod.
    unfold mpsse_xfer, uint16.
    rewrite length_pulses_bytes.
    rewrite (Z.mod_small (Z.of_nat (3 * length ps))) by lia.
    rewrite (Z.mod_small (data_bits mod 256)) by lia.
    replace (Z.of_nat (3 * length ps) =? 0) with false by zbool.
    replace (take (Z.to_nat (Z.of_nat (3 * length ps))) (pulses_bytes ps))
      with (pulses_bytes ps)
      by (symmetry; apply take_ge; rewrite length_pulses_bytes; lia).
    destruct (data_bits mod 256 =? 0) eqn:E0.
    + apply Z.eqb_eq in E0. rewrite E0. reflexivity.
    + apply Z.eqb_neq in E0.
      pose proof (Z.mul_div_le (data_bits mod 256) 8 ltac:(lia)) as Hd.
      assert (Hd3 : 0 <= data_bits mod 256 / 8) by (apply Z.div_pos; lia).
      pose proof (copy_out_spec
                    (fun j => ftdi_rx st1 (rx_pos st1 + (7 + 8 * j))%nat)
                    (map (fun k => ftdi_rx st1 (rx_pos st1 + k)%nat)
                         (seq 0 (Z.to_nat (data_bits mod 256)))
                     ++ drop (Z.to_nat (data_bits mod 256)) (pulses_bytes ps))
                    (Z.to_nat (data_bits mod 256 / 8)) 0%nat output_data)
        as Hcopy.
      change (Z.of_nat 0) with 0 in Hcopy.
      cbn [emit ftdi_rx rx_pos current_state trace].
      rewrite Hcopy.
      * reflexivity.
      * intros j Hj.
        rewrite lookup_app_l by (rewrite length_map, length_seq; lia).
        rewrite list_lookup_fmap, lookup_seq_lt by lia. reflexivity.
      * lia.
Qed.

(* ===================================================================== *)
(** * Navigation: the wire and the state variable *)
(* ===================================================================== *)

Lemma state_code_cases (z : Z) :
  0 <= z < 16 -> exists s : TapState, z = state_code s.
Proof.
  intros H.
  exists (nth (Z.to_nat z) all_states STATE_TEST_LOGIC_RESET).
  replace z with (Z.of_nat (Z.to_nat z)) at 1 by lia.
  assert (Hn : (Z.to_nat z < 16)%nat) by lia.
  revert Hn. generalize (Z.to_nat z). intros n Hn.
  do 16 (destruct n as [|n]; [ reflexivity | ]). lia.
Qed.

Lemma state_code_range (s : TapState) : 0 <= state_code s < 16.
Proof. destruct s; cbn; lia. Qed.

Lemma jtag_state_ack_prepend (tr : list event) (tms : bool) (st st' : jtag) :
  jtag_state_ack tms st = Ok st' ->
  jtag_state_ack tms (prepend tr st) = Ok (prepend tr st').
Proof.
  unfold jtag_state_ack, jtag_current_state. cbn [prepend current_state].
  destruct (index tms_transitions (current_state st)); cbn [rbind];
    try discriminate.
  destruct tms; intros H; injection H as <-;
    unfold prepend, jtag_set_current_state, emit;
    cbn [current_state ftdi_rx rx_pos trace]; now rewrite app_assoc.
Qed.

Lemma mpsse_xfer_prepend (tr : list event) (d : list Z) (n : Z) (st : jtag) :
  snd (mpsse_xfer d n 0 (prepend tr st)) =
    prepend tr (snd (mpsse_xfer d n 0 st)).
Proof.
  unfold mpsse_xfer. change (uint16 0 =? 0) with true. cbv iota.
  destruct (uint16 n =? 0); cbn [snd]; [ reflexivity | ].
  unfold prepend, emit. cbn [current_state ftdi_rx rx_pos trace].
  now rewrite app_assoc.
Qed.

Lemma go_to_state_loop_prepend (tr : list event) (fuel : nat) (state : Z) :
  forall st st',
    go_to_state_loop fuel state st = Ok st' ->
    go_to_state_loop fuel state (prepend tr st) = Ok (prepend tr st').
Proof.
  induction fuel as [|fuel IH]; intros st st'; cbn [go_to_state_loop];
    unfold jtag_current_state; cbn [prepend current_state];
    destruct (current_state st =? state); try discriminate;
    try (intros H; injection H as <-; reflexivity).
  intros H.
  apply rbind_ok in H as (m & -> & H). cbn [rbind] in *.
  apply rbind_ok in H as (st1 & Hack & H).
  rewrite (jtag_state_ack_prepend tr _ _ _ Hack). cbn [rbind].
  rewrite mpsse_xfer_prepend. now apply IH.
Qed.

Lemma ack_times_prepend (tr : list event) (tms : bool) (n : nat) :
  forall st st',
    ack_times n tms st = Ok st' ->
    ack_times n tms (prepend tr st) = Ok (prepend tr st').
Proof.
  induction n as [|n IH]; intros st st'; cbn [ack_times].
  - intros H. injection H as <-. reflexivity.
  - intros H. apply rbind_ok in H as (st1 & Hack & H).
    rewrite (jtag_state_ack_prepend tr _ _ _ Hack). cbn [rbind].
    now apply IH.
Qed.

Lemma jtag_go_to_state_prepend (tr : list event) (fuel : nat) (state : Z)
    (st st' : jtag) :
  jtag_go_to_state fuel state st = Ok st' ->
  jtag_go_to_state fuel state (prepend tr st) = Ok (prepend tr st').
Proof.
  unfold jtag_go_to_state.
  destruct (state =? STATE_TEST_LOGIC_RESET).
  - intros H. apply rbind_ok in H as (st1 & Hack & H).
    rewrite (ack_times_prepend tr _ _ _ _ Hack). cbn [rbind].
    injection H as <-. now rewrite mpsse_xfer_prepend.
  - apply go_to_state_loop_prepend.
Qed.

(** From a state variable that holds [s], [jtag_go_to_state (t)]
    returns, with the events of the navigation added to the trace. *)
Lemma go_to_state_run (s t : TapState) (st : jtag) (k : nat) :
  current_state st = s ->
  jtag_go_to_state (8 + k) t st = Ok (moved t (nav_events s t) st).
Proof.
  destruct st as [cs rx pos tr]. cbn [current_state]. intros ->.
  apply jtag_go_to_state_more.
  assert (Hrun : jtag_go_to_state 8 t
                   {| current_state := s; ftdi_rx := rx; rx_pos := pos;
                      trace := [] |} =
                 Ok (moved t (nav_events s t)
                       {| current_state := s; ftdi_rx := rx; rx_pos := pos;
                          trace := [] |}))
    by (destruct s, t; vm_compute; reflexivity).
  apply (jtag_go_to_state_prepend tr) in Hrun.
  unfold prepend, moved in *. cbn [current_state ftdi_rx rx_pos trace] in *.
  rewrite app_nil_r in Hrun. exact Hrun.
Qed.

Lemma go_to_state_run8 (s t : TapState) (st : jtag) :
  current_state st = s ->
  jtag_go_to_state 8 t st = Ok (moved t (nav_events s t) st).
Proof. exact (go_to_state_run s t st 0). Qed.

Lemma nav_events_sync (s t : TapState) :
  tms_pulses (nav_events s t) = acks_of (nav_events s t).
Proof. destruct s, t; vm_compute; reflexivity. Qed.

Lemma nav_events_replay (s t : TapState) :
  tap_replay s (acks_of (nav_events s t)) = Ok (state_code t).
Proof. destruct s, t; vm_compute; reflexivity. Qed.

Lemma nav_events_quiet (s t : TapState) :
  reads_of (nav_events s t) = [] /\ shift_writes (nav_events s t) = [].
Proof. destruct s, t; vm_compute; split; reflexivity. Qed.

Lemma nav_events_shortest (s t : TapState) :
  t <> STATE_TEST_LOGIC_RESET ->
  no_shorter (length (acks_of (nav_events s t))) s t = true.
Proof.
  intros Ht. destruct s, t; try (vm_compute; reflexivity); now destruct Ht.
Qed.

Lemma tap_replay_reach (bits : list bool) :
  forall s t, tap_replay s bits = Ok t -> In t (tap_reach (length bits) s).
Proof.
  induction bits as [|b bits IH]; intros s t; cbn [tap_replay tap_reach length].
  - intros H. injection H as <-. now left.
  - intros H. apply rbind_ok in H as (u & Hu & H).
    apply IH in H. apply in_or_app.
    destruct b; rewrite Hu; [ now right | now left ].
Qed.

(** X1: [jtag_state_ack] keeps the state variable within the sixteen
    states of the transition table: from a state with a number from 0 to
    15 it returns with such a state again, the one the table gives for
    the level of TMS, and touches neither the bytes received nor the
    transport; from any other value of the state variable the table is
    read outside its bounds. *)
Theorem state_ack_stays_in_table (tms : bool) (st : jtag) :
  (0 <= current_state st < 16 /\
   exists st',
     jtag_state_ack tms st = Ok st' /\
     0 <= current_state st' < 16 /\
     tap_next (current_state st) tms = Ok (current_state st') /\
     trace st' = trace st ++ [EvAck tms] /\ rx_pos st' = rx_pos st) \/
  (~ 0 <= current_state st < 16 /\ jtag_state_ack tms st = Undef).
Proof.
  destruct (Z_lt_le_dec (current_state st) 0) as [Hneg | Hpos].
  - right. split; [ lia | ].
    unfold jtag_state_ack, jtag_current_state, index.
    now replace (current_state st <? 0) with true by zbool.
  - destruct (Z_lt_le_dec (current_state st) 16) as [Hlt | Hge].
    + left. split; [ lia | ].
      destruct (state_code_cases (current_state st)) as (s & Hs); [ lia | ].
      destruct st as [cs rx pos tr]. cbn [current_state] in *. subst cs.
      destruct s, tms; (eexists; split; [ reflexivity | ]);
        repeat split; try reflexivity; vm_compute; congruence.
    + right. split; [ lia | ].
      unfold jtag_state_ack, jtag_current_state, index.
      replace (current_state st <? 0) with false by zbool.
      destruct (tms_transitions !! Z.to_nat (current_state st)) eqn:E;
        [ | reflexivity ].
      apply lookup_lt_Some in E. cbn [tms_transitions length] in E. lia.
Qed.

(** X2: whatever states [s] and [t], [jtag_go_to_state (t)] called with
    the state variable at [s] returns with the state variable at [t],
    reads nothing, and has put on the wire exactly the TMS levels it
    has applied to the state variable; a TAP that was in state [s] and
    is clocked with the levels sent is in state [t]. *)
Theorem go_to_state_wire_follows_state (s t : TapState) (st : jtag) :
  current_state st = s ->
  exists st' evs,
    jtag_go_to_state 8 t st = Ok st' /\
    trace st' = trace st ++ evs /\
    current_state st' = t /\
    rx_pos st' = rx_pos st /\
    reads_of evs = [] /\
    tms_pulses evs = acks_of evs /\
    tap_replay s (tms_pulses evs) = Ok (state_code t).
Proof.
  intros Hs. exists (moved t (nav_events s t) st), (nav_events s t).
  split; [ exact (go_to_state_run s t st 0 Hs) | ].
  repeat split.
  - apply nav_events_quiet.
  - apply nav_events_sync.
  - rewrite nav_events_sync. apply nav_events_replay.
Qed.

Lemma go_to_state_wire_follows_state_witness :
  exists st' evs,
    jtag_go_to_state 8 STATE_SHIFT_DR
      (jtag_at STATE_RUN_TEST_IDLE (fun _ => 0)) = Ok st' /\
    trace st' = [] ++ evs /\
    current_state st' = STATE_SHIFT_DR /\
    rx_pos st' = 0%nat /\
    reads_of evs = [] /\
    tms_pulses evs = acks_of evs /\
    tap_replay STATE_RUN_TEST_IDLE (tms_pulses evs) = Ok (state_code STATE_SHIFT_DR).
Proof.
  apply (go_to_state_wire_follows_state STATE_RUN_TEST_IDLE STATE_SHIFT_DR
           (jtag_at STATE_RUN_TEST_IDLE (fun _ => 0))).
  reflexivity.
Defined.

(** X3: to a state [t] other than Test-Logic-Reset the next-hop table
    leads by a shortest way: [jtag_go_to_state (t)] returns, and no
    sequence of TMS levels that takes a TAP from [s] to [t] is shorter
    than the one it has sent. *)
Theorem go_to_state_shortest (s t : TapState) (rx : nat -> Z) :
  t <> STATE_TEST_LOGIC_RESET ->
  exists st',
    jtag_go_to_state 8 t (jtag_at s rx) = Ok st' /\
    forall bits : list bool,
      tap_replay s bits = Ok (state_code t) ->
      (length (tms_pulses (trace st')) <= length bits)%nat.
Proof.
  intros Ht. eexists. split.
  - exact (go_to_state_run8 s t (jtag_at s rx) eq_refl).
  - intros bits Hbits. cbn [moved trace jtag_at app].
    rewrite nav_events_sync.
    destruct (Nat.le_gt_cases (length (acks_of (nav_events s t)))
                (length bits)) as [Hle | Hgt]; [ exact Hle | exfalso ].
    pose proof (nav_events_shortest s t Ht) as Hno.
    unfold no_shorter in Hno. rewrite forallb_forall in Hno.
    specialize (Hno (length bits)).
    rewrite in_seq in Hno. specialize (Hno ltac:(lia)).
    apply negb_true_iff in Hno.
    apply tap_replay_reach in Hbits.
    assert (Hyes : reachable_in (length bits) s t = true).
    { unfold reachable_in. apply existsb_exists.
      exists (state_code t). split; [ exact Hbits | apply Z.eqb_refl ]. }
    congruence.
Qed.

Lemma go_to_state_shortest_witness :
  exists st',
    jtag_go_to_state 8 STATE_SHIFT_IR
      (jtag_at STATE_RUN_TEST_IDLE (fun _ => 0)) = Ok st' /\
    forall bits : list bool,
      tap_replay STATE_RUN_TEST_IDLE bits = Ok (state_code STATE_SHIFT_IR) ->
      (length (tms_pulses (trace st')) <= length bits)%nat.
Proof.
  apply (go_to_state_shortest STATE_RUN_TEST_IDLE STATE_SHIFT_IR
           (fun _ => 0)).
  discriminate.
Defined.

(** X4: [jtag_init] needs to know nothing: whatever the state variable
    held and whatever state [s] the TAP of the device is in, it returns
    with the state variable at Test-Logic-Reset, and the five TMS
    pulses it has sent take the TAP from [s] to Test-Logic-Reset. *)
Theorem jtag_init_resets_any_tap (s : TapState) (st : jtag) :
  exists st' evs,
    jtag_init st = Ok st' /\
    trace st' = trace st ++ evs /\
    current_state st' = STATE_TEST_LOGIC_RESET /\
    tms_pulses evs = [true; true; true; true; true] /\
    tap_replay s (tms_pulses evs) = Ok (state_code STATE_TEST_LOGIC_RESET).
Proof.
  unfold jtag_init.
  pose proof (go_to_state_run STATE_TEST_LOGIC_RESET STATE_TEST_LOGIC_RESET
                (jtag_set_current_state STATE_TEST_LOGIC_RESET st) 0 eq_refl)
    as Hrun.
  eexists _, _. split; [ exact Hrun | ].
  cbn [moved trace current_state jtag_set_current_state].
  repeat split. destruct s; vm_compute; reflexivity.
Qed.

(* ===================================================================== *)
(** * Navigation to a number that is no state *)
(* ===================================================================== *)

Lemma tms_map_entry (s : TapState) :
  exists m, index tms_map s = Ok m /\ 0 <= m < 65536.
Proof.
  destruct s; (eexists; split; [ vm_compute; reflexivity | ]);
    vm_compute; split; congruence.
Qed.

Lemma tap_next_valid (s : TapState) (tms : bool) :
  exists u : TapState, tap_next s tms = Ok (state_code u).
Proof.
  destruct s, tms;
    [ exists STATE_TEST_LOGIC_RESET | exists STATE_RUN_TEST_IDLE
    | exists STATE_SELECT_DR_SCAN | exists STATE_RUN_TEST_IDLE
    | exists STATE_SELECT_IR_SCAN | exists STATE_CAPTURE_DR
    | exists STATE_EXIT1_DR | exists STATE_SHIFT_DR
    | exists STATE_EXIT1_DR | exists STATE_SHIFT_DR
    | exists STATE_UPDATE_DR | exists STATE_PAUSE_DR
    | exists STATE_EXIT2_DR | exists STATE_PAUSE_DR
    | exists STATE_UPDATE_DR | exists STATE_SHIFT_DR
    | exists STATE_SELECT_DR_SCAN | exists STATE_RUN_TEST_IDLE
    | exists STATE_TEST_LOGIC_RESET | exists STATE_CAPTURE_IR
    | exists STATE_EXIT1_IR | exists STATE_SHIFT_IR
    | exists STATE_EXIT1_IR | exists STATE_SHIFT_IR
    | exists STATE_UPDATE_IR | exists STATE_PAUSE_IR
    | exists STATE_EXIT2_IR | exists STATE_PAUSE_IR
    | exists STATE_UPDATE_IR | exists STATE_SHIFT_IR
    | exists STATE_SELECT_DR_SCAN | exists STATE_RUN_TEST_IDLE ];
    reflexivity.
Qed.

(** [jtag_state_ack] in terms of the table step. *)
Lemma jtag_state_ack_next (tms : bool) (st : jtag) (u : Z) :
  tap_next (current_state st) tms = Ok u ->
  jtag_state_ack tms st = Ok (moved u [EvAck tms] st).
Proof.
  unfold tap_next, jtag_state_ack, jtag_current_state.
  destruct (index tms_transitions (current_state st)) as [e| | |];
    cbn [rbind]; try discriminate.
  assert (Hnib : forall x, uint8 (Z.land x 0xf) = Z.land x 0xf).
  { intros x. unfold uint8. change 0xf with (Z.ones 4).
    rewrite Z.land_ones by lia.
    pose proof (Z.mod_pos_bound x (2 ^ 4) ltac:(lia)).
    apply Z.mod_small. change (2 ^ 4) with 16 in *. lia. }
  destruct tms; intros H; injection H as <-;
    unfold jtag_set_current_state, emit, moved;
    cbn [current_state ftdi_rx rx_pos trace]; now rewrite Hnib.
Qed.

Lemma mpsse_xfer_state (d : list Z) (n : Z) (st : jtag) :
  current_state (snd (mpsse_xfer d n 0 st)) = current_state st.
Proof.
  unfold mpsse_xfer. change (uint16 0 =? 0) with true. cbv iota.
  destruct (uint16 n =? 0); reflexivity.
Qed.

Lemma go_to_state_loop_invalid (state : Z) (fuel : nat) :
  16 <= state ->
  forall st, 0 <= current_state st < 16 ->
             go_to_state_loop fuel state st = Timeout.
Proof.
  intros Hstate. induction fuel as [|fuel IH]; intros st Hcur;
    cbn [go_to_state_loop]; unfold jtag_current_state;
    replace (current_state st =? state) with false by zbool;
    [ reflexivity | ].
  destruct (state_code_cases _ Hcur) as (s & Hs). rewrite Hs.
  destruct (tms_map_entry s) as (m & -> & Hm). cbn [rbind].
  assert (Htms : Z.land (Z.shiftr m state) 1 = 0).
  { rewrite Z.shiftr_div_pow2 by lia.
    rewrite Z.div_small; [ reflexivity | ].
    assert (2 ^ 16 <= 2 ^ state) by (apply Z.pow_le_mono_r; lia).
    change (2 ^ 16) with 65536 in *. lia. }
  rewrite Htms. change (negb (0 =? 0)) with false.
  destruct (tap_next_valid s false) as (u & Hu).
  rewrite <- Hs in Hu.
  rewrite (jtag_state_ack_next false st u Hu). cbn [rbind].
  apply IH. rewrite mpsse_xfer_state. cbn [moved current_state].
  apply state_code_range.
Qed.

(** X5: a target of [jtag_go_to_state] that is no state, a number from
    16 to 31, is never reached: the next-hop table has no bit for it,
    TMS is held low, the state variable stays among the sixteen states,
    and the loop does not end, whatever the fuel. *)
Theorem go_to_invalid_state_never_returns (state : Z) (st : jtag)
    (fuel : nat) :
  16 <= state < 32 ->
  0 <= current_state st < 16 ->
  jtag_go_to_state fuel state st = Timeout.
Proof.
  intros Hstate Hcur. unfold jtag_go_to_state.
  replace (state =? STATE_TEST_LOGIC_RESET) with false
    by (cbn [state_code]; zbool).
  apply go_to_state_loop_invalid; [ lia | exact Hcur ].
Qed.

Lemma go_to_invalid_state_never_returns_witness :
  jtag_go_to_state 100 16 (jtag_at STATE_RUN_TEST_IDLE (fun _ => 0)) = Timeout.
Proof.
  apply (go_to_invalid_state_never_returns 16
           (jtag_at STATE_RUN_TEST_IDLE (fun _ => 0)) 100).
  - lia.
  - simpl. lia.
Defined.

(* ===================================================================== *)
(** * The shift on the wire *)
(* ===================================================================== *)

Lemma mpsse_tdi_pulses_bytes (ps : list (bool * bool)) :
  mpsse_tdi (pulses_bytes ps) = map snd ps.
Proof.
  induction ps as [|[tms tdi] ps IH]; [ reflexivity | ].
  cbn [pulses_bytes flat_map pulse_bytes app fst snd map].
  change (flat_map (fun p => pulse_bytes (fst p) (snd p)) ps)
    with (pulses_bytes ps).
  cbn [mpsse_tdi]. rewrite IH.
  destruct tms, tdi; reflexivity.
Qed.

Lemma shift_tdi_app (tr1 tr2 : list event) :
  shift_tdi (tr1 ++ tr2) = shift_tdi tr1 ++ shift_tdi tr2.
Proof. unfold shift_tdi, shift_writes, writes_of. now rewrite !flat_map_app. Qed.

Lemma reads_of_app (tr1 tr2 : list event) :
  reads_of (tr1 ++ tr2) = reads_of tr1 ++ reads_of tr2.
Proof. unfold reads_of. now rewrite flat_map_app. Qed.

Lemma shift_pulses_fst (must_end : bool) (input_data : list Z) (n : nat) :
  map fst (shift_pulses must_end input_data (Z.of_nat (S n))) =
    replicate n false ++ [must_end].
Proof.
  rewrite <- tms_flags_all. unfold shift_pulses, tms_flags.
  rewrite map_map, Nat2Z.id. reflexivity.
Qed.

Lemma shift_pulses_snd (must_end : bool) (input_data : list Z) (data_bits : Z) :
  map snd (shift_pulses must_end input_data data_bits) =
    input_bits input_data (Z.to_nat data_bits).
Proof. unfold shift_pulses, input_bits. now rewrite map_map. Qed.

Lemma pulses_bytes_head (ps : list (bool * bool)) :
  ps <> [] ->
  exists rest,
    pulses_bytes ps =
      Z.lor (Z.lor (Z.lor MC_DATA_TMS MC_DATA_IN) MC_DATA_LSB) MC_DATA_BITS
      :: rest.
Proof.
  destruct ps as [|p ps]; [ congruence | ]. intros _.
  cbn [pulses_bytes flat_map pulse_bytes app]. eauto.
Qed.

(** What the events of a shift put on the wire. *)
Lemma shift_events_wire (must_end : bool) (input_data : list Z) (n : nat) :
  tms_pulses (shift_events must_end input_data (Z.of_nat (S n))) =
    replicate n false ++ [must_end] /\
  shift_tdi (shift_events must_end input_data (Z.of_nat (S n))) =
    input_bits input_data (S n) /\
  acks_of (shift_events must_end input_data (Z.of_nat (S n))) =
    (if must_end then [true] else []).
Proof.
  unfold shift_events.
  replace (0 <? Z.of_nat (S n)) with true by zbool.
  replace (Z.of_nat (S n) =? 0) with false by zbool.
  rewrite andb_true_r.
  set (ps := shift_pulses must_end input_data (Z.of_nat (S n))).
  assert (Hne : ps <> []).
  { unfold ps, shift_pulses. rewrite Nat2Z.id. cbn [seq map]. congruence. }
  destruct (pulses_bytes_head ps Hne) as (rest & Hhead).
  assert (Hw : tms_pulses [EvWrite (pulses_bytes ps)] = map fst ps).
  { unfold tms_pulses, writes_of. cbn [flat_map app]. rewrite app_nil_r.
    apply mpsse_tms_pulses_bytes. }
  assert (Hd : shift_tdi [EvWrite (pulses_bytes ps)] = map snd ps).
  { unfold shift_tdi, shift_writes, writes_of. cbn [flat_map app].
    rewrite Hhead. change (Z.land _ MC_DATA_IN =? 0) with false. cbv iota.
    cbn [flat_map app]. rewrite app_nil_r, <- Hhead.
    apply mpsse_tdi_pulses_bytes. }
  rewrite !tms_pulses_app, !shift_tdi_app, !acks_of_app, Hw, Hd.
  unfold ps at 1 2. rewrite shift_pulses_fst, shift_pulses_snd, Nat2Z.id.
  destruct must_end, (Z.of_nat (S n) mod 256 =? 0);
    cbn [app]; rewrite ?app_nil_r; repeat split; reflexivity.
Qed.

(** [jtag_tap_shift] within the room of the command buffer, from a
    state variable that holds a state. *)
Lemma jtag_tap_shift_run (input_data output_data : list Z) (data_bits : Z)
    (must_end : bool) (st : jtag) (u : Z) :
  0 <= data_bits <= 341 ->
  (data_bits + 7) / 8 <= Z.of_nat (length input_data) ->
  data_bits mod 256 / 8 <= Z.of_nat (length output_data) ->
  (if must_end && (0 <? data_bits) then tap_next (current_state st) true
   else Ok (current_state st)) = Ok u ->
  jtag_tap_shift input_data output_data data_bits must_end st =
    Ok (delivered st (Z.to_nat (data_bits mod 256 / 8)) output_data,
        advanced u (shift_events must_end input_data data_bits)
          (Z.to_nat (data_bits mod 256)) st).
Proof.
  intros HN Hin Hout Hu.
  assert (Hack : (if must_end && (0 <? data_bits)
                  then jtag_state_ack true st else Ok st) =
                 Ok (if must_end && (0 <? data_bits)
                     then moved u [EvAck true] st else st)).
  { destruct (must_end && (0 <? data_bits));
      [ now apply jtag_state_ack_next | reflexivity ]. }
  rewrite (jtag_tap_shift_exact _ _ _ _ _ _ HN Hin Hout Hack).
  f_equal. f_equal.
  - destruct (must_end && (0 <? data_bits)); reflexivity.
  - unfold after_shift, advanced, shift_events.
    destruct (must_end && (0 <? data_bits)) eqn:Eme;
      [ | injection Hu as <- ];
      destruct (data_bits =? 0) eqn:E0;
      destruct (data_bits mod 256 =? 0) eqn:E256;
      unfold emit, moved; cbn [current_state ftdi_rx rx_pos trace app];
      rewrite ?app_nil_r, <- ?app_assoc; cbn [app];
      try (apply Z.eqb_eq in E256; rewrite E256);
      try (apply Z.eqb_eq in E0; subst data_bits);
      try discriminate;
      try (rewrite andb_false_r in Eme; discriminate);
      cbn [Z.to_nat]; rewrite ?Nat.add_0_r;
      try reflexivity; destruct st; reflexivity.
Qed.

Lemma tap_replay_app (a b : list bool) :
  forall s, tap_replay s (a ++ b) = (u <-- tap_replay s a ;; tap_replay u b).
Proof.
  induction a as [|x a IH]; intros s; cbn [app tap_replay rbind];
    [ reflexivity | ].
  destruct (tap_next s x); cbn [rbind]; [ apply IH | | | ]; reflexivity.
Qed.

Lemma tap_replay_hold (s : Z) (n : nat) :
  tap_next s false = Ok s -> tap_replay s (replicate n false) = Ok s.
Proof.
  intros Hs. induction n as [|n IH]; cbn [replicate tap_replay];
    [ reflexivity | ].
  rewrite Hs. exact IH.
Qed.

(** X6: a shift of [data_bits] bits (at least one, and within the room
    of the command buffer) puts the bits of the input on TDI byte after
    byte, each byte from bit 0 on, one bit per clock pulse, and holds
    TMS low on all the pulses but the last, where TMS is [must_end]. *)
Theorem shift_sends_input_lsb_first (input_data output_data : list Z)
    (data_bits : Z) (must_end : bool) (st : jtag) :
  0 < data_bits <= 341 ->
  (data_bits + 7) / 8 <= Z.of_nat (length input_data) ->
  data_bits mod 256 / 8 <= Z.of_nat (length output_data) ->
  0 <= current_state st < 16 ->
  exists out st' evs,
    jtag_tap_shift input_data output_data data_bits must_end st
      = Ok (out, st') /\
    trace st' = trace st ++ evs /\
    shift_tdi evs = input_bits input_data (Z.to_nat data_bits) /\
    tms_pulses evs =
      replicate (Z.to_nat (data_bits - 1)) false ++ [must_end].
Proof.
  intros HN Hin Hout Hcur.
  destruct (state_code_cases _ Hcur) as (s & Hs).
  destruct (tap_next_valid s true) as (u & Hu). rewrite <- Hs in Hu.
  assert (Hnext : (if must_end && (0 <? data_bits)
                   then tap_next (current_state st) true
                   else Ok (current_state st)) =
                  Ok (if must_end && (0 <? data_bits) then state_code u
                      else current_state st))
    by (destruct (must_end && (0 <? data_bits)); [ exact Hu | reflexivity ]).
  eexists _, _, _. split.
  - apply jtag_tap_shift_run; [ lia | exact Hin | exact Hout | exact Hnext ].
  - cbn [advanced trace]. split; [ reflexivity | ].
    replace data_bits with (Z.of_nat (S (Z.to_nat (data_bits - 1)))) at 1 3
      by lia.
    destruct (shift_events_wire must_end input_data (Z.to_nat (data_bits - 1)))
      as (Htms & Htdi & _).
    rewrite Htms, Htdi. split; [ | reflexivity ].
    f_equal. lia.
Qed.

Lemma shift_sends_input_lsb_first_witness :
  exists out st' evs,
    jtag_tap_shift [0xA5; 0x01] [0; 0] 9 true
      (jtag_at STATE_SHIFT_IR (fun _ => 0)) = Ok (out, st') /\
    trace st' = [] ++ evs /\
    shift_tdi evs = input_bits [0xA5; 0x01] (Z.to_nat 9) /\
    tms_pulses evs = replicate (Z.to_nat (9 - 1)) false ++ [true].
Proof.
  apply (shift_sends_input_lsb_first [0xA5; 0x01] [0; 0] 9 true
           (jtag_at STATE_SHIFT_IR (fun _ => 0))).
  - lia.
  - vm_compute. congruence.
  - vm_compute. congruence.
  - simpl. lia.
Defined.

(** X7: for a shift of at most 341 bits, the most whose commands fit
    the buffer of 1024 bytes, started with the state variable at a state
    in which a TAP stays while TMS is low (Run-Test/Idle, Shift-DR,
    Pause-DR, Shift-IR, Pause-IR): the shift returns and leaves the
    state variable where the TMS levels it has sent take a TAP from
    that state, which is where it was when [must_end] is false or no
    bit is shifted, and one step with TMS high further when [must_end]
    is true and at least one bit is shifted. *)
Theorem shift_keeps_tap_in_step (input_data output_data : list Z)
    (data_bits : Z) (must_end : bool) (st : jtag) :
  0 <= data_bits <= 341 ->
  (data_bits + 7) / 8 <= Z.of_nat (length input_data) ->
  data_bits mod 256 / 8 <= Z.of_nat (length output_data) ->
  0 <= current_state st < 16 ->
  tap_next (current_state st) false = Ok (current_state st) ->
  exists out st' evs,
    jtag_tap_shift input_data output_data data_bits must_end st
      = Ok (out, st') /\
    trace st' = trace st ++ evs /\
    tap_replay (current_state st) (tms_pulses evs) = Ok (current_state st') /\
    (if must_end && (0 <? data_bits) then tap_next (current_state st) true
     else Ok (current_state st)) = Ok (current_state st').
Proof.
  intros HN Hin Hout Hcur Hstable.
  destruct (state_code_cases _ Hcur) as (s & Hs).
  destruct (tap_next_valid s true) as (u & Hu). rewrite <- Hs in Hu.
  assert (Hnext : (if must_end && (0 <? data_bits)
                   then tap_next (current_state st) true
                   else Ok (current_state st)) =
                  Ok (if must_end && (0 <? data_bits)
                      then state_code u else current_state st)).
  { destruct (must_end && (0 <? data_bits)); [ exact Hu | reflexivity ]. }
  eexists _, _, _. split.
  - apply jtag_tap_shift_run; [ lia | exact Hin | exact Hout | exact Hnext ].
  - cbn [advanced trace current_state]. split; [ reflexivity | ].
    destruct (Z.eq_dec data_bits 0) as [-> | Hpos].
    + change (0 <? 0) with false. rewrite andb_false_r.
      unfold shift_events. rewrite andb_false_r.
      change (0 =? 0) with true. change (0 mod 256 =? 0) with true.
      split; reflexivity.
    + replace (0 <? data_bits) with true by zbool. rewrite andb_true_r.
      replace data_bits with (Z.of_nat (S (Z.to_nat (data_bits - 1)))) at 1
        by lia.
      destruct (shift_events_wire must_end input_data
                  (Z.to_nat (data_bits - 1))) as (Htms & _ & _).
      rewrite Htms, tap_replay_app, tap_replay_hold by exact Hstable.
      cbn [rbind tap_replay].
      destruct must_end; [ rewrite Hu | rewrite Hstable ]; split; reflexivity.
Qed.

Lemma shift_keeps_tap_in_step_witness :
  exists out st' evs,
    jtag_tap_shift [0xA5; 0x01] [0; 0] 9 true
      (jtag_at STATE_SHIFT_DR (fun _ => 0)) = Ok (out, st') /\
    trace st' = [] ++ evs /\
    tap_replay STATE_SHIFT_DR (tms_pulses evs) = Ok (current_state st') /\
    tap_next STATE_SHIFT_DR true = Ok (current_state st').
Proof.
  apply (shift_keeps_tap_in_step [0xA5; 0x01] [0; 0] 9 true
           (jtag_at STATE_SHIFT_DR (fun _ => 0))).
  - lia.
  - vm_compute. congruence.
  - vm_compute. congruence.
  - simpl. lia.
  - reflexivity.
Defined.

(* ===================================================================== *)
(** * What a shift reads back *)
(* ===================================================================== *)

Lemma ftdi_answers_length (tdo : list bool) :
  forall sr, length (ftdi_answers sr tdo) = length tdo.
Proof.
  induction tdo as [|b tdo IH]; intros sr; cbn [ftdi_answers length];
    [ reflexivity | now rewrite IH ].
Qed.

Lemma ftdi_answers_app (a b : list bool) :
  forall sr,
    ftdi_answers sr (a ++ b) =
      ftdi_answers sr a ++ ftdi_answers (fold_left sr_shift a sr) b.
Proof.
  induction a as [|x a IH]; intros sr; cbn [app ftdi_answers fold_left];
    [ reflexivity | now rewrite IH ].
Qed.

Lemma sr_after_byte (sr a : list bool) :
  length sr = 8%nat -> length a = 8%nat -> fold_left sr_shift a sr = a.
Proof.
  intros Hsr Ha.
  do 9 (destruct sr as [|? sr]; try discriminate Hsr).
  do 9 (destruct a as [|? a]; try discriminate Ha).
  reflexivity.
Qed.

(** Every eighth answer of the FTDI holds the last eight TDO bits, the
    first of them in bit 0. *)
Lemma ftdi_answers_byte (k : nat) :
  forall (sr tdo : list bool),
    length sr = 8%nat -> (8 * S k <= length tdo)%nat ->
    ftdi_answers sr tdo !! (7 + 8 * k)%nat =
      Some (byte_of_bits (take 8 (drop (8 * k) tdo))).
Proof.
  induction k as [|k IH]; intros sr tdo Hsr Htdo.
  - do 9 (destruct sr as [|? sr]; try discriminate Hsr).
    do 8 (destruct tdo as [|? tdo]; [ cbn in Htdo; lia | ]).
    reflexivity.
  - rewrite <- (take_drop 8 tdo) at 1.
    rewrite ftdi_answers_app.
    assert (Hlen : length (take 8 tdo) = 8%nat)
      by (rewrite length_take; lia).
    rewrite lookup_app_r by (rewrite ftdi_answers_length; lia).
    rewrite ftdi_answers_length, Hlen, (sr_after_byte sr _ Hsr Hlen).
    replace (7 + 8 * S k - 8)%nat with (7 + 8 * k)%nat by lia.
    rewrite IH by (rewrite ?length_drop; lia).
    rewrite drop_drop. repeat f_equal. lia.
Qed.

Lemma stream_of_lookup (bytes : list Z) (rest : nat -> Z) (k : nat) (b : Z) :
  bytes !! k = Some b -> stream_of bytes rest k = b.
Proof. unfold stream_of. now intros ->. Qed.

(** X8: a shift of fewer than 256 bits hands over the whole bytes of
    what TDO has shown: with the FTDI answering for the TDO bits [tdo],
    byte [i] of the output is made of the bits [8 i] to [8 i + 7], the
    first in bit 0, for every whole byte of the shift; the bits of a
    last, partial byte are not handed over and the rest of the output
    is left as it was. *)
Theorem shift_delivers_tdo_bytes (sr tdo : list bool) (rest : nat -> Z)
    (input_data output_data : list Z) (data_bits : Z) (must_end : bool)
    (s : TapState) :
  length sr = 8%nat ->
  0 < data_bits < 256 ->
  Z.of_nat (length tdo) = data_bits ->
  (data_bits + 7) / 8 <= Z.of_nat (length input_data) ->
  data_bits / 8 <= Z.of_nat (length output_data) ->
  exists st',
    jtag_tap_shift input_data output_data data_bits must_end
      (jtag_at s (stream_of (ftdi_answers sr tdo) rest))
    = Ok (map (fun i => byte_of_bits (take 8 (drop (8 * i) tdo)))
              (seq 0 (Z.to_nat (data_bits / 8)))
          ++ drop (Z.to_nat (data_bits / 8)) output_data,
          st').
Proof.
  intros Hsr HN Htdo Hin Hout.
  destruct (tap_next_valid s true) as (u & Hu).
  assert (Hmod : data_bits mod 256 = data_bits) by (apply Z.mod_small; lia).
  eexists.
  rewrite (jtag_tap_shift_run input_data output_data data_bits must_end
             (jtag_at s (stream_of (ftdi_answers sr tdo) rest))
             (if must_end && (0 <? data_bits) then state_code u
              else state_code s)).
  - rewrite Hmod. unfold delivered. cbn [jtag_at ftdi_rx rx_pos].
    f_equal. f_equal. f_equal. apply map_ext_in. intros i Hi.
    apply in_seq in Hi. apply stream_of_lookup.
    cbn [Nat.add]. apply (ftdi_answers_byte i sr tdo Hsr).
    pose proof (Z.mul_div_le data_bits 8 ltac:(lia)). lia.
  - lia.
  - exact Hin.
  - now rewrite Hmod.
  - cbn [jtag_at current_state].
    destruct (must_end && (0 <? data_bits)); [ exact Hu | reflexivity ].
Qed.

Lemma shift_delivers_tdo_bytes_witness :
  exists st',
    jtag_tap_shift [0xFF; 0x0F] [0; 0] 12 true
      (jtag_at STATE_SHIFT_DR
         (stream_of
            (ftdi_answers (replicate 8 false)
               [true; false; true; false; false; false; false; false;
                true; true; true; true])
            (fun _ => 0)))
    = Ok (map (fun i =>
                 byte_of_bits
                   (take 8 (drop (8 * i)
                      [true; false; true; false; false; false; false; false;
                       true; true; true; true])))
              (seq 0 (Z.to_nat (12 / 8)))
          ++ drop (Z.to_nat (12 / 8)) [0; 0],
          st').
Proof.
  apply (shift_delivers_tdo_bytes (replicate 8 false)
           [true; false; true; false; false; false; false; false;
            true; true; true; true]
           (fun _ => 0) [0xFF; 0x0F] [0; 0] 12 true STATE_SHIFT_DR).
  - reflexivity.
  - lia.
  - reflexivity.
  - vm_compute. congruence.
  - vm_compute. congruence.
Defined.

(* ===================================================================== *)
(** * The bit order of SPI *)
(* ===================================================================== *)

Lemma byte_cases (P : Z -> bool) :
  forallb P (map Z.of_nat (seq 0 256)) = true ->
  forall x, 0 <= x < 256 -> P x = true.
Proof.
  rewrite forallb_forall. intros H x Hx. apply H.
  apply in_map_iff. exists (Z.to_nat x). split; [ lia | ].
  apply in_seq. lia.
Qed.

Lemma bit_reverse_testbit (x : Z) (j : nat) :
  0 <= x < 256 -> (j < 8)%nat ->
  Z.testbit (bit_reverse x) (Z.of_nat j) = Z.testbit x (7 - Z.of_nat j).
Proof.
  intros Hx Hj.
  pose proof (byte_cases
                (fun x => forallb
                            (fun j => Bool.eqb
                                        (Z.testbit (bit_reverse x) (Z.of_nat j))
                                        (Z.testbit x (7 - Z.of_nat j)))
                            (seq 0 8))
                ltac:(vm_compute; reflexivity) x Hx) as H.
  cbv beta in H. rewrite forallb_forall in H.
  apply eqb_prop, H, in_seq. lia.
Qed.

Lemma bit_reverse_range (x : Z) :
  0 <= x < 256 -> 0 <= bit_reverse x < 256.
Proof.
  intros Hx.
  pose proof (byte_cases
                (fun x => (0 <=? bit_reverse x) && (bit_reverse x <? 256))
                ltac:(vm_compute; reflexivity) x Hx) as H.
  cbv beta in H. apply andb_true_iff in H as (H1 & H2).
  apply Z.leb_le in H1. apply Z.ltb_lt in H2. lia.
Qed.

(** X9: [bit_reverse] mirrors a byte: bit [i] of the result is bit
    [7 - i] of the argument, for each of the eight bits, and the result
    is a byte again. *)
Theorem bit_reverse_mirrors (x i : Z) :
  0 <= x < 256 -> 0 <= i < 8 ->
  Z.testbit (bit_reverse x) i = Z.testbit x (7 - i) /\
  0 <= bit_reverse x < 256.
Proof.
  intros Hx Hi. split; [ | now apply bit_reverse_range ].
  replace i with (Z.of_nat (Z.to_nat i)) by lia.
  apply bit_reverse_testbit; [ exact Hx | lia ].
Qed.

Lemma bit_reverse_mirrors_witness :
  Z.testbit (bit_reverse 0x02) 6 = Z.testbit 0x02 (7 - 6) /\
  0 <= bit_reverse 0x02 < 256.
Proof. apply (bit_reverse_mirrors 0x02 6); lia. Defined.

(** X10: reversing the bits of a byte twice gives the byte back, which
    is what lets [xfer_spi] and [send_spi] reverse an array in place
    before the shift and once more after it. *)
Theorem bit_reverse_involutive (x : Z) :
  0 <= x < 256 -> bit_reverse (bit_reverse x) = x.
Proof.
  intros Hx.
  pose proof (byte_cases (fun x => bit_reverse (bit_reverse x) =? x)
                ltac:(vm_compute; reflexivity) x Hx) as H.
  now apply Z.eqb_eq in H.
Qed.

Lemma bit_reverse_involutive_witness :
  bit_reverse (bit_reverse 0x3A) = 0x3A.
Proof. apply (bit_reverse_involutive 0x3A). lia. Defined.

(* ===================================================================== *)
(** * The SPI bridge *)
(* ===================================================================== *)

Lemma take_as_nth (n : nat) :
  forall l : list Z,
    (n <= length l)%nat -> take n l = map (fun j => nth j l 0) (seq 0 n).
Proof.
  induction n as [|n IH]; intros l Hl; [ reflexivity | ].
  destruct l as [|x l]; [ cbn in Hl; lia | ].
  cbn [take seq map nth]. f_equal.
  rewrite <- seq_shift, map_map. cbn [nth].
  apply IH. cbn in Hl. lia.
Qed.

(** The loop that reverses the bits of the first [n] bytes. *)
Lemma reverse_bits_from (n : nat) :
  forall (i : nat) (data : list Z),
    (i + n <= length data)%nat ->
    reverse_bits n (Z.of_nat i) data =
      Ok (take i data ++
          map (fun j => bit_reverse (nth j data 0)) (seq i n) ++
          drop (i + n) data).
Proof.
  induction n as [|n IH]; intros i data Hlen.
  - cbn [reverse_bits seq map app]. now rewrite Nat.add_0_r, take_drop.
  - cbn [reverse_bits]. rewrite index_nth by lia. cbn [rbind].
    unfold store.
    replace ((0 <=? Z.of_nat i) && (Z.of_nat i <? Z.of_nat (length data)))
      with true by zbool.
    cbn [rbind]. rewrite Nat2Z.id.
    replace (Z.of_nat i + 1) with (Z.of_nat (S i)) by lia.
    rewrite IH by (rewrite length_insert; lia).
    rewrite (take_S_r _ _ (bit_reverse (nth i data 0)))
      by (apply list_lookup_insert_eq; lia).
    rewrite take_insert_ge, drop_insert_lt by lia.
    cbn [seq map]. rewrite <- app_assoc. cbn [app].
    replace (S i + n)%nat with (i + S n)%nat by lia.
    do 3 f_equal. f_equal. apply map_ext_in. intros j Hj. apply in_seq in Hj.
    f_equal. rewrite !nth_lookup, list_lookup_insert_ne by lia. reflexivity.
Qed.

Lemma reverse_bits_spec (n : nat) (data : list Z) :
  (n <= length data)%nat -> reverse_bits n 0 data = Ok (reversed n data).
Proof.
  intros Hlen. change 0 with (Z.of_nat 0).
  rewrite reverse_bits_from by lia. cbn [take app Nat.add].
  unfold reversed. rewrite (take_as_nth n data Hlen), map_map. reflexivity.
Qed.

Lemma length_reversed (n : nat) (data : list Z) :
  length (reversed n data) = length data.
Proof.
  unfold reversed. rewrite length_app, length_map, length_take, length_drop.
  lia.
Qed.

Lemma reversed_delivered (st : jtag) (n : nat) (data : list Z) :
  (n <= length data)%nat ->
  reversed n (delivered st n (reversed n data)) = spi_received st n data.
Proof.
  intros Hlen. unfold reversed, delivered, spi_received.
  set (got := map (fun i => ftdi_rx st (rx_pos st + (7 + 8 * i))%nat) (seq 0 n)).
  assert (Hgot : length got = n) by (unfold got; now rewrite length_map, length_seq).
  assert (Hrev : length (map bit_reverse (take n data)) = n)
    by (rewrite length_map, length_take; lia).
  rewrite (drop_app_length' _ _ n (eq_sym Hrev)).
  rewrite (take_app_length' _ _ n (eq_sym Hgot)),
    (drop_app_length' _ _ n (eq_sym Hgot)).
  unfold got. now rewrite map_map.
Qed.

Lemma input_bits_bytes (n : nat) :
  forall l : list Z,
    (n <= length l)%nat -> input_bits l (8 * n) = jtag_bits (take n l).
Proof.
  induction n as [|n IH]; intros l Hl; [ reflexivity | ].
  destruct l as [|x l]; [ cbn in Hl; lia | ].
  cbn [take]. unfold jtag_bits. cbn [flat_map].
  change (flat_map _ (take n l)) with (jtag_bits (take n l)).
  rewrite <- IH by (cbn in Hl; lia).
  unfold input_bits.
  replace (8 * S n)%nat with (8 + 8 * n)%nat by lia.
  rewrite seq_app, map_app. f_equal.
  cbn [Nat.add].
  replace (seq 8 (8 * n)) with (map (Nat.add 8) (seq 0 (8 * n)))
    by (apply (fmap_add_seq 8 0 (8 * n))).
  rewrite map_map. apply map_ext. intros k.
  replace (8 + k)%nat with (k + 1 * 8)%nat by lia.
  rewrite Nat.div_add, Nat.Div0.mod_add by lia.
  now rewrite Nat.add_1_r.
Qed.

Lemma jtag_bits_reverse (l : list Z) :
  bytes_ok l -> jtag_bits (map bit_reverse l) = spi_bits l.
Proof.
  unfold bytes_ok, jtag_bits, spi_bits.
  induction 1 as [|x l Hx _ IH]; [ reflexivity | ].
  cbn [map flat_map]. rewrite IH. f_equal.
  apply map_ext_in. intros j Hj. apply in_seq in Hj.
  apply bit_reverse_testbit; [ exact Hx | lia ].
Qed.

Lemma bytes_ok_take (n : nat) (l : list Z) : bytes_ok l -> bytes_ok (take n l).
Proof. apply Forall_take. Qed.

(** The data bits of a shift of [n] whole bytes of an array whose first
    [n] bytes have been reversed. *)
Lemma shift_events_spi (must_end : bool) (n : nat) (data : list Z) :
  (1 <= n <= length data)%nat -> bytes_ok data ->
  shift_tdi (shift_events must_end (reversed n data) (Z.of_nat n * 8)) =
    spi_bits (take n data) /\
  tms_pulses (shift_events must_end (reversed n data) (Z.of_nat n * 8)) =
    replicate (8 * n - 1) false ++ [must_end] /\
  acks_of (shift_events must_end (reversed n data) (Z.of_nat n * 8)) =
    (if must_end then [true] else []).
Proof.
  intros Hn Hok.
  replace (Z.of_nat n * 8) with (Z.of_nat (S (8 * n - 1))) by lia.
  destruct (shift_events_wire must_end (reversed n data) (8 * n - 1))
    as (Htms & Htdi & Hack).
  rewrite Htms, Htdi, Hack. repeat split.
  replace (S (8 * n - 1)) with (8 * n)%nat by lia.
  rewrite input_bits_bytes by (rewrite length_reversed; lia).
  unfold reversed.
  rewrite take_app_length' by (rewrite length_map, length_take; lia).
  apply jtag_bits_reverse, bytes_ok_take, Hok.
Qed.

(** [send_spi] of at most 31 bytes, from a state variable that holds
    [s]. *)
Lemma send_spi_run (s : TapState) (data : list Z) (len : Z) (st : jtag)
    (k : nat) :
  current_state st = s ->
  0 < len <= 31 -> len <= Z.of_nat (length data) ->
  send_spi (8 + k) data len st =
    Ok (spi_received st (Z.to_nat len) data,
        advanced STATE_SHIFT_DR
          (shift_events false (reversed (Z.to_nat len) data) (len * 8))
          (Z.to_nat (len * 8))
          (moved STATE_SHIFT_DR (nav_events s STATE_SHIFT_DR) st)).
Proof.
  intros Hs Hlen Hdata. unfold send_spi.
  assert (Hu : uint32 len = len) by (unfold uint32; apply Z.mod_small; lia).
  assert (Hu8 : uint32 (len * 8) = len * 8)
    by (unfold uint32; apply Z.mod_small; lia).
  assert (Hm : len * 8 mod 256 = len * 8) by (apply Z.mod_small; lia).
  assert (Hd : len * 8 / 8 = len) by (apply Z.div_mul; lia).
  rewrite Hu, Hu8, reverse_bits_spec by lia. cbn [rbind].
  rewrite (go_to_state_run s STATE_SHIFT_DR st k Hs). cbn [rbind].
  rewrite (jtag_tap_shift_run _ _ _ false _ STATE_SHIFT_DR).
  - cbn [rbind]. rewrite Hm, Hd.
    rewrite reverse_bits_spec
      by (unfold delivered; rewrite length_app, length_map, length_seq,
            length_drop, length_reversed; lia).
    cbn [rbind].
    change (delivered (moved STATE_SHIFT_DR (nav_events s STATE_SHIFT_DR) st))
      with (delivered st).
    rewrite reversed_delivered by lia. reflexivity.
  - lia.
  - rewrite length_reversed.
    replace (len * 8 + 7) with (7 + len * 8) by lia.
    rewrite Z.div_add by lia. change (7 / 8) with 0. lia.
  - rewrite Hm, Hd, length_reversed. lia.
  - reflexivity.
Qed.

Lemma moved_nowhere (st : jtag) :
  current_state st = STATE_SHIFT_DR ->
  moved STATE_SHIFT_DR (nav_events STATE_SHIFT_DR STATE_SHIFT_DR) st = st.
Proof.
  destruct st as [cs rx pos tr]. cbn [current_state]. intros ->.
  unfold moved. cbn [ftdi_rx rx_pos trace].
  change (nav_events STATE_SHIFT_DR STATE_SHIFT_DR) with (@nil event).
  now rewrite app_nil_r.
Qed.

(** [xfer_spi] of at most 31 bytes, from a state variable that holds
    [s]. *)
Lemma xfer_spi_run (s : TapState) (data : list Z) (len : Z) (st : jtag)
    (k : nat) :
  current_state st = s ->
  0 < len <= 31 -> len <= Z.of_nat (length data) ->
  xfer_spi (8 + k) data len st =
    Ok (spi_received st (Z.to_nat len) data,
        advanced STATE_EXIT1_DR
          (shift_events true (reversed (Z.to_nat len) data) (len * 8))
          (Z.to_nat (len * 8))
          (moved STATE_SHIFT_DR (nav_events s STATE_SHIFT_DR) st)).
Proof.
  intros Hs Hlen Hdata. unfold xfer_spi.
  assert (Hu : uint32 len = len) by (unfold uint32; apply Z.mod_small; lia).
  assert (Hu8 : uint32 (len * 8) = len * 8)
    by (unfold uint32; apply Z.mod_small; lia).
  assert (Hm : len * 8 mod 256 = len * 8) by (apply Z.mod_small; lia).
  assert (Hd : len * 8 / 8 = len) by (apply Z.div_mul; lia).
  rewrite Hu, Hu8, reverse_bits_spec by lia. cbn [rbind].
  assert (Hnav : (if jtag_current_state st =? STATE_SHIFT_DR then Ok st
                  else jtag_go_to_state (8 + k) STATE_SHIFT_DR st) =
                 Ok (moved STATE_SHIFT_DR (nav_events s STATE_SHIFT_DR) st)).
  { unfold jtag_current_state.
    destruct (current_state st =? STATE_SHIFT_DR) eqn:E.
    - apply Z.eqb_eq in E.
      assert (s = STATE_SHIFT_DR)
        by (rewrite E in Hs; destruct s; try discriminate Hs; reflexivity).
      subst s. now rewrite moved_nowhere.
    - now apply go_to_state_run. }
  rewrite Hnav. cbn [rbind].
  rewrite (jtag_tap_shift_run _ _ _ true _ STATE_EXIT1_DR).
  - cbn [rbind]. rewrite Hm, Hd.
    rewrite reverse_bits_spec
      by (unfold delivered; rewrite length_app, length_map, length_seq,
            length_drop, length_reversed; lia).
    cbn [rbind].
    change (delivered (moved STATE_SHIFT_DR (nav_events s STATE_SHIFT_DR) st))
      with (delivered st).
    rewrite reversed_delivered by lia. reflexivity.
  - lia.
  - rewrite length_reversed.
    replace (len * 8 + 7) with (7 + len * 8) by lia.
    rewrite Z.div_add by lia. change (7 / 8) with 0. lia.
  - rewrite Hm, Hd, length_reversed. lia.
  - replace (0 <? len * 8) with true by zbool. reflexivity.
Qed.

Lemma send_spi_run8 (s : TapState) (data : list Z) (len : Z) (st : jtag) :
  current_state st = s ->
  0 < len <= 31 -> len <= Z.of_nat (length data) ->
  send_spi 8 data len st =
    Ok (spi_received st (Z.to_nat len) data,
        advanced STATE_SHIFT_DR
          (shift_events false (reversed (Z.to_nat len) data) (len * 8))
          (Z.to_nat (len * 8))
          (moved STATE_SHIFT_DR (nav_events s STATE_SHIFT_DR) st)).
Proof. exact (send_spi_run s data len st 0). Qed.

Lemma xfer_spi_run8 (s : TapState) (data : list Z) (len : Z) (st : jtag) :
  current_state st = s ->
  0 < len <= 31 -> len <= Z.of_nat (length data) ->
  xfer_spi 8 data len st =
    Ok (spi_received st (Z.to_nat len) data,
        advanced STATE_EXIT1_DR
          (shift_events true (reversed (Z.to_nat len) data) (len * 8))
          (Z.to_nat (len * 8))
          (moved STATE_SHIFT_DR (nav_events s STATE_SHIFT_DR) st)).
Proof. exact (xfer_spi_run s data len st 0). Qed.

Lemma shift_tdi_nav (s t : TapState) : shift_tdi (nav_events s t) = [].
Proof.
  unfold shift_tdi. now rewrite (proj2 (nav_events_quiet s t)).
Qed.

(** A TAP led to [t] and then clocked with TMS low, where [t] is a
    state in which it stays while TMS is low. *)
Lemma nav_then_hold (s t : TapState) (n : nat) (rest : list bool) :
  tap_next t false = Ok (state_code t) ->
  tap_replay s (tms_pulses (nav_events s t) ++ replicate n false ++ rest) =
    tap_replay t rest.
Proof.
  intros Hstable.
  rewrite tap_replay_app, nav_events_sync, nav_events_replay. cbn [rbind].
  rewrite tap_replay_app, tap_replay_hold by exact Hstable. reflexivity.
Qed.

Lemma bit_reverse_byte_of_bits (bits : list bool) :
  length bits = 8%nat ->
  bit_reverse (byte_of_bits bits) = spi_byte bits.
Proof.
  intros H.
  do 8 (destruct bits as [|[] bits]; try discriminate H);
    (destruct bits; [ reflexivity | discriminate H ]).
Qed.

(** X11: [xfer_spi] of [len] bytes (from 1 to 31, what the shift can
    read back in one piece) sends the bytes of [data] in the bit order
    of SPI, each byte from bit 7 down to bit 0, whatever state the TAP
    is in when it is called, and ends the transfer: it leaves the state
    variable, and a TAP clocked with the TMS levels sent, in Exit1-DR. *)
Theorem xfer_spi_sends_msb_first (s : TapState) (data : list Z) (len : Z)
    (st : jtag) :
  current_state st = s ->
  0 < len <= 31 -> len <= Z.of_nat (length data) -> bytes_ok data ->
  exists data' st' evs,
    xfer_spi 8 data len st = Ok (data', st') /\
    trace st' = trace st ++ evs /\
    shift_tdi evs = spi_bits (take (Z.to_nat len) data) /\
    current_state st' = STATE_EXIT1_DR /\
    tap_replay s (tms_pulses evs) = Ok (state_code STATE_EXIT1_DR).
Proof.
  intros Hs Hlen Hdata Hok.
  eexists _, _, _. split; [ exact (xfer_spi_run8 s data len st Hs Hlen Hdata) | ].
  cbn [advanced moved trace current_state].
  split; [ rewrite <- app_assoc; reflexivity | ].
  destruct (shift_events_spi true (Z.to_nat len) data ltac:(lia) Hok)
    as (Htdi & Htms & _).
  rewrite Z2Nat.id in Htdi, Htms by lia.
  rewrite shift_tdi_app, tms_pulses_app, shift_tdi_nav, Htdi, Htms.
  repeat split.
  now rewrite nav_then_hold.
Qed.

Lemma xfer_spi_sends_msb_first_witness :
  exists data' st' evs,
    xfer_spi 8 [0x05; 0x00] 2 (jtag_at STATE_RUN_TEST_IDLE (fun _ => 0))
      = Ok (data', st') /\
    trace st' = [] ++ evs /\
    shift_tdi evs = spi_bits (take (Z.to_nat 2) [0x05; 0x00]) /\
    current_state st' = STATE_EXIT1_DR /\
    tap_replay STATE_RUN_TEST_IDLE (tms_pulses evs)
      = Ok (state_code STATE_EXIT1_DR).
Proof.
  apply (xfer_spi_sends_msb_first STATE_RUN_TEST_IDLE [0x05; 0x00] 2
           (jtag_at STATE_RUN_TEST_IDLE (fun _ => 0))).
  - reflexivity.
  - lia.
  - simpl. lia.
  - repeat constructor; lia.
Defined.

(** X12: [xfer_spi] of [len] bytes (from 1 to 31) returns in [data]
    what the device has answered, in the bit order of SPI: with the
    FTDI answering for the TDO bits [tdo], byte [i] is made of the bits
    [8 i] to [8 i + 7], the first of them in bit 7; the bytes of the
    array from [len] on are left as they were. *)
Theorem xfer_spi_returns_miso_msb_first (s : TapState) (sr tdo : list bool)
    (rest : nat -> Z) (data : list Z) (len : Z) :
  length sr = 8%nat ->
  0 < len <= 31 -> len <= Z.of_nat (length data) ->
  Z.of_nat (length tdo) = 8 * len ->
  exists st',
    xfer_spi 8 data len (jtag_at s (stream_of (ftdi_answers sr tdo) rest))
    = Ok (map (fun i => spi_byte (take 8 (drop (8 * i) tdo)))
              (seq 0 (Z.to_nat len))
          ++ drop (Z.to_nat len) data,
          st').
Proof.
  intros Hsr Hlen Hdata Htdo. eexists.
  rewrite (xfer_spi_run8 s data len
             (jtag_at s (stream_of (ftdi_answers sr tdo) rest)) eq_refl
             Hlen Hdata).
  f_equal. f_equal. unfold spi_received. cbn [jtag_at ftdi_rx rx_pos].
  f_equal. apply map_ext_in. intros i Hi. apply in_seq in Hi.
  cbn [Nat.add].
  rewrite (stream_of_lookup _ _ _ _ (ftdi_answers_byte i sr tdo Hsr ltac:(lia))).
  apply bit_reverse_byte_of_bits.
  rewrite length_take, length_drop. lia.
Qed.

Lemma xfer_spi_returns_miso_msb_first_witness :
  exists st',
    xfer_spi 8 [0x05; 0x00] 1
      (jtag_at STATE_SHIFT_DR
         (stream_of
            (ftdi_answers (replicate 8 false)
               [true; false; false; false; false; false; true; true])
            (fun _ => 0)))
    = Ok (map (fun i =>
                 spi_byte
                   (take 8 (drop (8 * i)
                      [true; false; false; false; false; false; true; true])))
              (seq 0 (Z.to_nat 1))
          ++ drop (Z.to_nat 1) [0x05; 0x00],
          st').
Proof.
  apply (xfer_spi_returns_miso_msb_first STATE_SHIFT_DR (replicate 8 false)
           [true; false; false; false; false; false; true; true]
           (fun _ => 0) [0x05; 0x00] 1).
  - reflexivity.
  - lia.
  - simpl. lia.
  - reflexivity.
Defined.

(** X13: [send_spi] of [len] bytes (from 1 to 31) sends the bytes of
    [data] in the bit order of SPI like [xfer_spi], but keeps the
    transfer open: TMS stays low on every bit, and the state variable,
    and a TAP clocked with the TMS levels sent, are left in Shift-DR.
    The array comes back holding the bytes received, bits reversed. *)
Theorem send_spi_keeps_shift_dr (s : TapState) (data : list Z) (len : Z)
    (st : jtag) :
  current_state st = s ->
  0 < len <= 31 -> len <= Z.of_nat (length data) -> bytes_ok data ->
  exists st' evs,
    send_spi 8 data len st = Ok (spi_received st (Z.to_nat len) data, st') /\
    trace st' = trace st ++ evs /\
    shift_tdi evs = spi_bits (take (Z.to_nat len) data) /\
    current_state st' = STATE_SHIFT_DR /\
    tap_replay s (tms_pulses evs) = Ok (state_code STATE_SHIFT_DR) /\
    acks_of evs = acks_of (nav_events s STATE_SHIFT_DR).
Proof.
  intros Hs Hlen Hdata Hok.
  eexists _, _. split; [ exact (send_spi_run8 s data len st Hs Hlen Hdata) | ].
  cbn [advanced moved trace current_state].
  split; [ rewrite <- app_assoc; reflexivity | ].
  destruct (shift_events_spi false (Z.to_nat len) data ltac:(lia) Hok)
    as (Htdi & Htms & Hack).
  rewrite Z2Nat.id in Htdi, Htms, Hack by lia.
  rewrite shift_tdi_app, tms_pulses_app, acks_of_app, shift_tdi_nav, Htdi,
    Htms, Hack, app_nil_r.
  repeat split.
  now rewrite nav_then_hold.
Qed.

Lemma send_spi_keeps_shift_dr_witness :
  exists st' evs,
    send_spi 8 [0x03; 0x00; 0x00; 0x00] 4
      (jtag_at STATE_EXIT1_DR (fun _ => 0))
    = Ok (spi_received (jtag_at STATE_EXIT1_DR (fun _ => 0)) (Z.to_nat 4)
            [0x03; 0x00; 0x00; 0x00], st') /\
    trace st' = [] ++ evs /\
    shift_tdi evs = spi_bits (take (Z.to_nat 4) [0x03; 0x00; 0x00; 0x00]) /\
    current_state st' = STATE_SHIFT_DR /\
    tap_replay STATE_EXIT1_DR (tms_pulses evs)
      = Ok (state_code STATE_SHIFT_DR) /\
    acks_of evs = acks_of (nav_events STATE_EXIT1_DR STATE_SHIFT_DR).
Proof.
  apply (send_spi_keeps_shift_dr STATE_EXIT1_DR [0x03; 0x00; 0x00; 0x00] 4
           (jtag_at STATE_EXIT1_DR (fun _ => 0))).
  - reflexivity.
  - lia.
  - simpl. lia.
  - repeat constructor; lia.
Defined.

Lemma bytes_ok_command (cmd addr : Z) :
  0 <= cmd < 256 -> bytes_ok (command cmd addr).
Proof.
  intros Hc. unfold command, uint8.
  repeat constructor; try lia; apply Z.mod_pos_bound; lia.
Qed.

Lemma spi_bits_app (a b : list Z) : spi_bits (a ++ b) = spi_bits a ++ spi_bits b.
Proof. unfold spi_bits. apply flat_map_app. Qed.

(** X14: [flash_prog] on the TAP is one SPI transfer: the four bytes of
    the page program command and the [n] bytes of data (from 1 to 31)
    go out one after the other, each byte from bit 7 down, and between
    the first bit of the command and the last bit of the data TMS is
    never raised; a TAP led to Shift-DR by the first pulses stays there
    for all the bits but the last, which takes it to Exit1-DR. *)
Theorem flash_prog_on_tap_one_transfer (s : TapState) (addr : Z)
    (data : list Z) (n : Z) (st : jtag) :
  current_state st = s ->
  0 < n <= 31 -> n <= Z.of_nat (length data) -> bytes_ok data ->
  exists data' st' evs navs,
    flash_prog_on_tap 8 addr data n st = Ok (data', st') /\
    trace st' = trace st ++ evs /\
    shift_tdi evs = spi_bits (command FC_PP addr ++ take (Z.to_nat n) data) /\
    tms_pulses evs =
      navs ++ replicate (8 * (4 + Z.to_nat n) - 1) false ++ [true] /\
    tap_replay s navs = Ok (state_code STATE_SHIFT_DR) /\
    current_state st' = STATE_EXIT1_DR.
Proof.
  intros Hs Hn Hdata Hok. unfold flash_prog_on_tap.
  rewrite (send_spi_run8 s (command FC_PP addr) 4 st Hs)
    by (cbn [command length]; lia).
  cbn [rbind snd].
  rewrite (xfer_spi_run8 STATE_SHIFT_DR data n) by first [ reflexivity | lia ].
  rewrite moved_nowhere by reflexivity.
  eexists _, _, _, (tms_pulses (nav_events s STATE_SHIFT_DR)).
  split; [ reflexivity | ].
  cbn [advanced moved trace current_state].
  split; [ rewrite <- !app_assoc; reflexivity | ].
  destruct (shift_events_spi false 4 (command FC_PP addr)
              ltac:(cbn [command length]; lia)
              (bytes_ok_command FC_PP addr ltac:(unfold FC_PP; lia)))
    as (Htdi1 & Htms1 & _).
  destruct (shift_events_spi true (Z.to_nat n) data ltac:(lia) Hok)
    as (Htdi2 & Htms2 & _).
  rewrite Z2Nat.id in Htdi2, Htms2 by lia.
  change (Z.of_nat 4 * 8) with (4 * 8) in Htdi1, Htms1.
  change (Z.to_nat 4) with 4%nat.
  rewrite !shift_tdi_app, !tms_pulses_app, shift_tdi_nav, Htdi1, Htdi2,
    Htms1, Htms2, spi_bits_app.
  cbn [app]. repeat split.
  - f_equal. change [false] with (replicate 1 false).
    rewrite <- replicate_add, app_assoc, <- replicate_add.
    do 2 f_equal. lia.
  - rewrite nav_events_sync. apply nav_events_replay.
Qed.

Lemma flash_prog_on_tap_one_transfer_witness :
  exists data' st' evs navs,
    flash_prog_on_tap 8 0x012345 [0xDE; 0xAD] 2
      (jtag_at STATE_RUN_TEST_IDLE (fun _ => 0)) = Ok (data', st') /\
    trace st' = [] ++ evs /\
    shift_tdi evs =
      spi_bits (command FC_PP 0x012345 ++ take (Z.to_nat 2) [0xDE; 0xAD]) /\
    tms_pulses evs =
      navs ++ replicate (8 * (4 + Z.to_nat 2) - 1) false ++ [true] /\
    tap_replay STATE_RUN_TEST_IDLE navs = Ok (state_code STATE_SHIFT_DR) /\
    current_state st' = STATE_EXIT1_DR.
Proof.
  apply (flash_prog_on_tap_one_transfer STATE_RUN_TEST_IDLE 0x012345
           [0xDE; 0xAD] 2 (jtag_at STATE_RUN_TEST_IDLE (fun _ => 0))).
  - reflexivity.
  - lia.
  - simpl. lia.
  - repeat constructor; lia.
Defined.

(** X15: [xfer_spi] of no bytes does not end the transfer: it leads the
    TAP to Shift-DR and shifts nothing, so that no bit with TMS high
    follows and the state variable is left in Shift-DR, not in
    Exit1-DR; the array is not touched. *)
Theorem xfer_spi_empty_stays_in_shift_dr (s : TapState) (data : list Z)
    (st : jtag) :
  current_state st = s ->
  exists st' evs,
    xfer_spi 8 data 0 st = Ok (data, st') /\
    trace st' = trace st ++ evs /\
    shift_tdi evs = [] /\
    current_state st' = STATE_SHIFT_DR /\
    tap_replay s (tms_pulses evs) = Ok (state_code STATE_SHIFT_DR).
Proof.
  intros Hs. unfold xfer_spi.
  change (Z.to_nat (uint32 0)) with 0%nat. cbn [reverse_bits rbind].
  assert (Hnav : (if jtag_current_state st =? STATE_SHIFT_DR then Ok st
                  else jtag_go_to_state 8 STATE_SHIFT_DR st) =
                 Ok (moved STATE_SHIFT_DR (nav_events s STATE_SHIFT_DR) st)).
  { unfold jtag_current_state.
    destruct (current_state st =? STATE_SHIFT_DR) eqn:E.
    - apply Z.eqb_eq in E.
      assert (s = STATE_SHIFT_DR)
        by (rewrite E in Hs; destruct s; try discriminate Hs; reflexivity).
      subst s. now rewrite moved_nowhere.
    - exact (go_to_state_run8 s STATE_SHIFT_DR st Hs). }
  rewrite Hnav. cbn [rbind]. change (uint32 (0 * 8)) with 0.
  rewrite (jtag_tap_shift_run data data 0 true _ STATE_SHIFT_DR);
    [ | lia | change ((0 + 7) / 8) with 0; lia
      | change (0 mod 256 / 8) with 0; lia | reflexivity ].
  cbn [rbind]. change (Z.to_nat (0 mod 256 / 8)) with 0%nat.
  unfold delivered. cbn [seq map app drop reverse_bits rbind].
  eexists _, _. split; [ reflexivity | ].
  cbn [advanced moved trace current_state].
  split; [ rewrite <- app_assoc; reflexivity | ].
  unfold shift_events. cbn [andb app]. rewrite app_nil_r.
  rewrite shift_tdi_nav, nav_events_sync, nav_events_replay.
  repeat split.
Qed.

Lemma xfer_spi_empty_stays_in_shift_dr_witness :
  exists st' evs,
    xfer_spi 8 [0x06] 0 (jtag_at STATE_EXIT1_DR (fun _ => 0))
      = Ok ([0x06], st') /\
    trace st' = [] ++ evs /\
    shift_tdi evs = [] /\
    current_state st' = STATE_SHIFT_DR /\
    tap_replay STATE_EXIT1_DR (tms_pulses evs)
      = Ok (state_code STATE_SHIFT_DR).
Proof.
  apply (xfer_spi_empty_stays_in_shift_dr STATE_EXIT1_DR [0x06]
           (jtag_at STATE_EXIT1_DR (fun _ => 0))).
  reflexivity.
Defined.

(* ===================================================================== *)
(** * Shifts that reuse their array *)
(* ===================================================================== *)

Lemma store_0 (x v : Z) (l : list Z) : store (x :: l) 0 v = Ok (v :: l).
Proof.
  unfold store. cbn [length].
  now replace ((0 <=? 0) && (0 <? Z.of_nat (S (length l)))) with true by zbool.
Qed.

Lemma store_1 (x y v : Z) (l : list Z) :
  store (x :: y :: l) 1 v = Ok (x :: v :: l).
Proof.
  unfold store. cbn [length].
  now replace ((0 <=? 1) && (1 <? Z.of_nat (S (S (length l))))) with true
    by zbool.
Qed.

Lemma input_bits_first (d : Z) (l : list Z) (n : nat) :
  (n <= 8)%nat ->
  input_bits (d :: l) n = map (fun j => Z.testbit d (Z.of_nat j)) (seq 0 n).
Proof.
  intros Hn. unfold input_bits. apply map_ext_in. intros k Hk.
  apply in_seq in Hk.
  rewrite Nat.div_small, Nat.mod_small by lia. reflexivity.
Qed.

Lemma shift_events_tdi (must_end : bool) (input_data : list Z) (n : Z) :
  0 < n ->
  shift_tdi (shift_events must_end input_data n) =
    input_bits input_data (Z.to_nat n).
Proof.
  intros Hn.
  replace n with (Z.of_nat (S (Z.to_nat (n - 1)))) at 1 by lia.
  replace (Z.to_nat n) with (S (Z.to_nat (n - 1))) by lia.
  apply shift_events_wire.
Qed.

(** X16: [flash_reset] shifts one array three times, and every shift
    writes what it has read into the array it reads from.  The first
    shift sends the 64 ones of the array; after it the array holds the
    bytes received, so the two bits of the second shift and the eight
    bits of the third are not ones but bits 0 and 1, and bits 0 to 7,
    of the first byte received in the first shift (the eighth byte the
    FTDI has answered with). *)
Theorem flash_reset_resends_received_byte (s : TapState) (st : jtag) :
  current_state st = s ->
  exists st' evs,
    flash_reset 8 st = Ok st' /\
    trace st' = trace st ++ evs /\
    shift_tdi evs =
      replicate 64 true ++
      map (fun j => Z.testbit (ftdi_rx st (rx_pos st + 7)%nat) (Z.of_nat j))
          (seq 0 2) ++
      map (fun j => Z.testbit (ftdi_rx st (rx_pos st + 7)%nat) (Z.of_nat j))
          (seq 0 8) /\
    current_state st' = STATE_EXIT1_DR.
Proof.
  intros Hs. unfold flash_reset.
  rewrite (go_to_state_run8 s STATE_SHIFT_DR st Hs). cbn [rbind].
  rewrite (jtag_tap_shift_run _ _ 64 true _ STATE_EXIT1_DR);
    [ | lia | vm_compute; congruence | vm_compute; congruence | reflexivity ].
  cbn [rbind].
  change (Z.to_nat (64 mod 256 / 8)) with 8%nat.
  change (Z.to_nat (64 mod 256)) with 64%nat.
  unfold delivered at 1.
  cbn [seq map app drop moved advanced ftdi_rx rx_pos Nat.mul Nat.add].
  rewrite (go_to_state_run8 STATE_EXIT1_DR STATE_SHIFT_DR) by reflexivity.
  cbn [rbind].
  rewrite (jtag_tap_shift_run _ _ 2 true _ STATE_EXIT1_DR);
    [ | lia | vm_compute; congruence | vm_compute; congruence | reflexivity ].
  cbn [rbind].
  change (Z.to_nat (2 mod 256 / 8)) with 0%nat.
  change (Z.to_nat (2 mod 256)) with 2%nat.
  unfold delivered at 1. cbn [seq map app drop].
  rewrite (go_to_state_run8 STATE_EXIT1_DR STATE_SHIFT_DR) by reflexivity.
  cbn [rbind].
  rewrite (jtag_tap_shift_run _ _ 8 true _ STATE_EXIT1_DR);
    [ | lia | vm_compute; congruence | vm_compute; congruence | reflexivity ].
  cbn [rbind snd].
  eexists _, _. split; [ reflexivity | ].
  cbn [advanced moved trace current_state].
  split; [ rewrite <- !app_assoc; reflexivity | ].
  split; [ | reflexivity ].
  rewrite !shift_tdi_app, !shift_tdi_nav.
  rewrite !shift_events_tdi by lia.
  change (Z.to_nat 64) with 64%nat. change (Z.to_nat 2) with 2%nat.
  change (Z.to_nat 8) with 8%nat.
  unfold delivered.
  cbn [seq map app drop moved advanced ftdi_rx rx_pos Nat.mul Nat.add].
  replace (input_bits [255; 255; 255; 255; 255; 255; 255; 255] 64)
    with (replicate 64 true) by (vm_compute; reflexivity).
  rewrite (input_bits_first _ _ 2), (input_bits_first _ _ 8) by lia.
  reflexivity.
Qed.

Lemma flash_reset_resends_received_byte_witness :
  exists st' evs,
    flash_reset 8 (jtag_at STATE_RUN_TEST_IDLE (fun _ => 0)) = Ok st' /\
    trace st' = [] ++ evs /\
    shift_tdi evs =
      replicate 64 true ++
      map (fun j => Z.testbit 0 (Z.of_nat j)) (seq 0 2) ++
      map (fun j => Z.testbit 0 (Z.of_nat j)) (seq 0 8) /\
    current_state st' = STATE_EXIT1_DR.
Proof.
  apply (flash_reset_resends_received_byte STATE_RUN_TEST_IDLE
           (jtag_at STATE_RUN_TEST_IDLE (fun _ => 0))).
  reflexivity.
Defined.

(* ===================================================================== *)
(** * Numbers read from the device *)
(* ===================================================================== *)

Lemma lor_disjoint (a b n : Z) :
  0 <= n -> 0 <= a -> 0 <= b < 2 ^ n ->
  Z.lor (a * 2 ^ n) b = a * 2 ^ n + b.
Proof.
  intros Hn Ha Hb.
  assert (Hland : Z.land (a * 2 ^ n) b = 0).
  { apply Z.bits_inj'. intros k Hk. rewrite Z.land_spec, Z.bits_0.
    destruct (Z.lt_ge_cases k n) as [Hlt | Hge].
    - now rewrite Z.mul_pow2_bits_low by lia.
    - destruct (Z.eq_dec b 0) as [-> | Hb0].
      + now rewrite Z.bits_0, andb_false_r.
      + rewrite (Z.bits_above_log2 b k), andb_false_r; [ reflexivity | lia | ].
        assert (Z.log2 b < n) by (apply Z.log2_lt_pow2; lia). lia. }
  now rewrite <- Z.lxor_lor, <- Z.add_nocarry_lxor.
Qed.

(** One turn of the loop [v = data[i] << (w - 8) | v >> 8]. *)
Lemma format_le_step (w v d : Z) :
  8 <= w -> 0 <= v < 2 ^ w -> 0 <= d < 256 ->
  Z.lor (Z.shiftl d (w - 8) mod 2 ^ w) (Z.shiftr v 8) =
    d * 2 ^ (w - 8) + v / 256.
Proof.
  intros Hw Hv Hd.
  rewrite Z.shiftl_mul_pow2, Z.shiftr_div_pow2 by lia.
  change (2 ^ 8) with 256.
  assert (Hpow : 2 ^ w = 256 * 2 ^ (w - 8)).
  { replace w with (8 + (w - 8)) at 1 by lia.
    now rewrite Z.pow_add_r by lia. }
  assert (Hpos : 0 < 2 ^ (w - 8)) by (apply Z.pow_pos_nonneg; lia).
  rewrite Z.mod_small by nia.
  apply lor_disjoint; [ lia | lia | ].
  split; [ apply Z.div_pos; lia | apply Z.div_lt_upper_bound; lia ].
Qed.

Lemma le_value_snoc (p : list Z) (d : Z) :
  le_value (p ++ [d]) = le_value p + d * 2 ^ (8 * Z.of_nat (length p)).
Proof.
  induction p as [|x p IH]; cbn [app le_value fold_right length].
  - change (2 ^ (8 * Z.of_nat 0)) with 1. lia.
  - fold (le_value (p ++ [d])). fold (le_value p). rewrite IH.
    replace (8 * Z.of_nat (S (length p)))
      with (8 + 8 * Z.of_nat (length p)) by lia.
    rewrite Z.pow_add_r by lia. change (2 ^ 8) with 256. lia.
Qed.

Lemma le_value_range (p : list Z) :
  bytes_ok p -> 0 <= le_value p < 2 ^ (8 * Z.of_nat (length p)).
Proof.
  unfold bytes_ok. induction 1 as [|x p Hx _ IH];
    cbn [le_value fold_right length].
  - change (2 ^ (8 * Z.of_nat 0)) with 1. lia.
  - fold (le_value p).
    replace (8 * Z.of_nat (S (length p)))
      with (8 + 8 * Z.of_nat (length p)) by lia.
    rewrite Z.pow_add_r by lia. change (2 ^ 8) with 256. lia.
Qed.

Lemma format_le_from (n : nat) (rest : list Z) :
  forall p : list Z,
    bytes_ok rest -> bytes_ok p ->
    (length p + length rest = n)%nat ->
    fold_left
      (fun v d =>
         Z.lor (Z.shiftl d (8 * Z.of_nat n - 8) mod 2 ^ (8 * Z.of_nat n))
               (Z.shiftr v 8))
      rest
      (le_value p * 2 ^ (8 * Z.of_nat n - 8 * Z.of_nat (length p)))
    = le_value (p ++ rest).
Proof.
  induction rest as [|d rest IH]; intros p Hrest Hp Hlen.
  - cbn [fold_left length] in *. rewrite app_nil_r.
    replace (8 * Z.of_nat n - 8 * Z.of_nat (length p)) with 0 by lia.
    change (2 ^ 0) with 1. lia.
  - cbn [fold_left length] in *.
    apply Forall_cons in Hrest as (Hd & Hrest).
    pose proof (le_value_range p Hp) as Hrange.
    set (k := Z.of_nat (length p)) in *.
    set (W := 8 * Z.of_nat n) in *.
    assert (HkW : 8 * k + 8 <= W) by (unfold k, W; lia).
    assert (Hsplit : 2 ^ (W - 8 * k) = 2 ^ (W - 8 * k - 8) * 256).
    { replace (W - 8 * k) with ((W - 8 * k - 8) + 8) at 1 by lia.
      now rewrite Z.pow_add_r by lia. }
    assert (HW : 2 ^ W = 2 ^ (8 * k) * 2 ^ (W - 8 * k)).
    { rewrite <- Z.pow_add_r by lia. f_equal. lia. }
    assert (HW8 : 2 ^ (W - 8) = 2 ^ (8 * k) * 2 ^ (W - 8 * k - 8)).
    { rewrite <- Z.pow_add_r by lia. f_equal. lia. }
    assert (Hp1 : 0 < 2 ^ (W - 8 * k - 8)) by (apply Z.pow_pos_nonneg; lia).
    assert (Hp2 : 0 < 2 ^ (8 * k)) by (apply Z.pow_pos_nonneg; lia).
    rewrite format_le_step; [ | lia | nia | lia ].
    rewrite Hsplit, Z.mul_assoc, Z.div_mul by lia.
    replace (d * 2 ^ (W - 8) + le_value p * 2 ^ (W - 8 * k - 8))
      with (le_value (p ++ [d]) *
            2 ^ (W - 8 * Z.of_nat (length (p ++ [d])))).
    + rewrite IH.
      * now rewrite <- app_assoc.
      * exact Hrest.
      * apply Forall_app. split; [ exact Hp | now constructor ].
      * rewrite length_app. cbn [length]. lia.
    + rewrite le_value_snoc, length_app. cbn [length]. fold k.
      replace (W - 8 * Z.of_nat (length p + 1)) with (W - 8 * k - 8)
        by (unfold k; lia).
      rewrite HW8. ring.
Qed.

Lemma format_le_value (bytes : list Z) :
  bytes_ok bytes ->
  format_le (8 * Z.of_nat (length bytes)) bytes = le_value bytes.
Proof.
  intros Hok. unfold format_le.
  pose proof (format_le_from (length bytes) bytes [] Hok
                ltac:(constructor) eq_refl) as H.
  cbn [le_value fold_right length app] in H.
  rewrite Z.mul_0_l in H. exact H.
Qed.

(** X17: the loop that formats a status or an identity, run over the
    bytes of a register as wide as the bytes are many (4 bytes into 32
    bits, 8 bytes into 64 bits), reads them as one number, least
    significant byte first, and the number fits the register. *)
Theorem format_le_little_endian (bytes : list Z) :
  bytes_ok bytes ->
  format_le (8 * Z.of_nat (length bytes)) bytes = le_value bytes /\
  0 <= format_le (8 * Z.of_nat (length bytes)) bytes
    < 2 ^ (8 * Z.of_nat (length bytes)).
Proof.
  intros Hok. rewrite (format_le_value bytes Hok).
  split; [ reflexivity | apply le_value_range, Hok ].
Qed.

Lemma format_le_little_endian_witness :
  format_le (8 * Z.of_nat (length [0x43; 0x10; 0x11; 0x41]))
    [0x43; 0x10; 0x11; 0x41] = le_value [0x43; 0x10; 0x11; 0x41] /\
  0 <= format_le (8 * Z.of_nat (length [0x43; 0x10; 0x11; 0x41]))
         [0x43; 0x10; 0x11; 0x41]
    < 2 ^ (8 * Z.of_nat (length [0x43; 0x10; 0x11; 0x41])).
Proof.
  apply (format_le_little_endian [0x43; 0x10; 0x11; 0x41]).
  repeat constructor; lia.
Defined.

(** X18: every device of the two tables of [print_idcode] is found
    under its own name and with the type of its table, whatever the
    identity held before: no identity code occurs twice, in one table
    or in both. *)
Theorem print_idcode_knows_its_tables (nm : string) (i : Z)
    (ty : device_type) (dev : device_info) :
  In (nm, i, ty) known_devices ->
  print_idcode i dev = {| name := Some nm; id := i; type := ty |}.
Proof.
  unfold known_devices. cbn [ecp_devices nx_devices map app fst snd].
  intros H.
  repeat (destruct H as [H | H];
          [ injection H as <- <- <-; reflexivity | ]).
  destruct H.
Qed.

Lemma print_idcode_knows_its_tables_witness :
  print_idcode 0x110F1043 connected_device =
    {| name := Some "LIFCL-40"%string; id := 0x110F1043; type := TYPE_NX |}.
Proof.
  apply (print_idcode_knows_its_tables "LIFCL-40" 0x110F1043 TYPE_NX
           connected_device).
  vm_compute. tauto.
Defined.

Lemma byte_of_bits_app (a b : list bool) :
  byte_of_bits (a ++ b) =
    byte_of_bits a + 2 ^ Z.of_nat (length a) * byte_of_bits b.
Proof.
  unfold byte_of_bits.
  induction a as [|x a IH]; cbn [app fold_right length].
  - change (2 ^ Z.of_nat 0) with 1. lia.
  - rewrite IH, Nat2Z.inj_succ, Z.pow_succ_r by lia. lia.
Qed.

Lemma byte_of_bits_range (bits : list bool) :
  0 <= byte_of_bits bits < 2 ^ Z.of_nat (length bits).
Proof.
  unfold byte_of_bits.
  induction bits as [|x bits IH]; cbn [fold_right length].
  - change (2 ^ Z.of_nat 0) with 1. lia.
  - rewrite Nat2Z.inj_succ, Z.pow_succ_r by lia. destruct x; lia.
Qed.

Lemma le_value_cons (x : Z) (l : list Z) :
  le_value (x :: l) = x + 256 * le_value l.
Proof. reflexivity. Qed.

(** The bytes cut out of a bit sequence, read as one number with the
    least significant byte first, are the bit sequence read as one
    number with the least significant bit first. *)
Lemma le_value_chunks (n : nat) :
  forall bits : list bool,
    length bits = (8 * n)%nat ->
    le_value (map (fun i => byte_of_bits (take 8 (drop (8 * i) bits)))
                  (seq 0 n)) = byte_of_bits bits /\
    bytes_ok (map (fun i => byte_of_bits (take 8 (drop (8 * i) bits)))
                  (seq 0 n)).
Proof.
  induction n as [|n IH]; intros bits Hlen.
  - destruct bits; [ | discriminate Hlen ]. split; [ reflexivity | constructor ].
  - cbn [seq map]. rewrite <- seq_shift, map_map.
    destruct (IH (drop 8 bits)) as (Hval & Hok);
      [ rewrite length_drop; lia | ].
    assert (Hext : map (fun i => byte_of_bits (take 8 (drop (8 * S i) bits)))
                       (seq 0 n) =
                   map (fun i => byte_of_bits
                                   (take 8 (drop (8 * i) (drop 8 bits))))
                       (seq 0 n)).
    { apply map_ext. intros i. rewrite drop_drop. do 3 f_equal. lia. }
    rewrite Hext. change (drop (8 * 0) bits) with bits. split.
    + rewrite le_value_cons, Hval. rewrite <- (take_drop 8 bits) at 3.
      rewrite byte_of_bits_app, length_take.
      replace (Z.of_nat (8 `min` length bits)) with 8 by lia.
      change (2 ^ 8) with 256. reflexivity.
    + constructor; [ | exact Hok ].
      pose proof (byte_of_bits_range (take 8 bits)) as Hr.
      rewrite length_take in Hr.
      replace (Z.of_nat (8 `min` length bits)) with 8 in Hr by lia.
      change (2 ^ 8) with 256 in Hr. exact Hr.
Qed.

(** The bytes a shift of [n] whole bytes hands over, when [off] bytes
    have been read before it, read as a number. *)
Lemma answers_value (sr tdo : list bool) (rest : nat -> Z) (off n : nat) :
  length sr = 8%nat -> length tdo = (8 * (off + n))%nat ->
  let got :=
    map (fun i => stream_of (ftdi_answers sr tdo) rest
                    (8 * off + (7 + 8 * i))%nat) (seq 0 n) in
  le_value got = byte_of_bits (drop (8 * off) tdo) /\ bytes_ok got.
Proof.
  intros Hsr Htdo got.
  assert (Hgot : got =
            map (fun i => byte_of_bits
                            (take 8 (drop (8 * i) (drop (8 * off) tdo))))
                (seq 0 n)).
  { unfold got. apply map_ext_in. intros i Hi. apply in_seq in Hi.
    rewrite drop_drop.
    replace (8 * off + (7 + 8 * i))%nat with (7 + 8 * (off + i))%nat by lia.
    rewrite (stream_of_lookup _ _ _ _
               (ftdi_answers_byte (off + i) sr tdo Hsr ltac:(lia))).
    do 3 f_equal. lia. }
  rewrite Hgot. apply le_value_chunks. rewrite length_drop. lia.
Qed.

Lemma prints_of_app (tr1 tr2 : list event) :
  prints_of (tr1 ++ tr2) = prints_of tr1 ++ prints_of tr2.
Proof. unfold prints_of. now rewrite flat_map_app. Qed.

Lemma prints_of_nav (s t : TapState) : prints_of (nav_events s t) = [].
Proof. destruct s, t; vm_compute; reflexivity. Qed.

Lemma prints_of_shift (must_end : bool) (input_data : list Z) (n : Z) :
  prints_of (shift_events must_end input_data n) = [].
Proof.
  unfold shift_events.
  destruct (must_end && (0 <? n)), (n =? 0), (n mod 256 =? 0); reflexivity.
Qed.

(** X19: [read_idcode] identifies the device by the 32 bits its data
    register shows on TDO after the instruction: with the FTDI
    answering for the TDO bits [tdo] of the two shifts (8 bits of
    instruction, 32 bits of data), the identity looked up is the number
    these 32 bits make up, the first of them as bit 0.  What goes out
    on TDI is the instruction [READ_ID], bit 0 first, and then 32
    zeros; the state variable is left in Exit1-DR. *)
Theorem read_idcode_decodes_tdo (s : TapState) (sr tdo : list bool)
    (rest : nat -> Z) (dev : device_info) :
  length sr = 8%nat -> length tdo = 40%nat ->
  exists st',
    read_idcode 8 dev (jtag_at s (stream_of (ftdi_answers sr tdo) rest))
    = Ok (print_idcode (byte_of_bits (drop 8 tdo)) dev, st') /\
    shift_tdi (trace st') = jtag_bits [READ_ID] ++ replicate 32 false /\
    current_state st' = STATE_EXIT1_DR.
Proof.
  intros Hsr Htdo. unfold read_idcode.
  set (rx := stream_of (ftdi_answers sr tdo) rest).
  rewrite (go_to_state_run8 s STATE_SHIFT_IR (jtag_at s rx) eq_refl).
  cbn [rbind].
  rewrite (jtag_tap_shift_run _ _ 8 true _ STATE_EXIT1_IR);
    [ | lia | vm_compute; congruence | vm_compute; congruence | reflexivity ].
  cbn [rbind].
  change (Z.to_nat (8 mod 256 / 8)) with 1%nat.
  change (Z.to_nat (8 mod 256)) with 8%nat.
  unfold delivered at 1. cbn [seq map app drop].
  rewrite store_0. cbn [rbind].
  rewrite (go_to_state_run8 STATE_EXIT1_IR STATE_SHIFT_DR) by reflexivity.
  cbn [rbind].
  rewrite (jtag_tap_shift_run _ _ 32 true _ STATE_EXIT1_DR);
    [ | lia | vm_compute; congruence | vm_compute; congruence | reflexivity ].
  cbn [rbind].
  change (Z.to_nat (32 mod 256 / 8)) with 4%nat.
  change (Z.to_nat (32 mod 256)) with 32%nat.
  unfold delivered.
  cbn [moved advanced jtag_at ftdi_rx rx_pos current_state trace drop app].
  rewrite app_nil_r.
  set (got := map (fun i => rx (0 + 8 + (7 + 8 * i))%nat) (seq 0 4)).
  destruct (answers_value sr tdo rest 1 4 Hsr Htdo) as (Hval & Hok).
  change (map _ (seq 0 4)) with got in Hval, Hok.
  replace (format_le 32 (take 4 got)) with (byte_of_bits (drop 8 tdo)).
  - eexists. split; [ reflexivity | ]. split; [ | reflexivity ].
    cbn [trace advanced moved jtag_at app].
    rewrite !shift_tdi_app, !shift_tdi_nav.
    rewrite !shift_events_tdi by lia.
    change (Z.to_nat 8) with 8%nat. change (Z.to_nat 32) with 32%nat.
    rewrite (input_bits_first _ _ 8) by lia.
    vm_compute. reflexivity.
  - symmetry. change (take 4 got) with got.
    change 32 with (8 * Z.of_nat (length got)).
    rewrite (format_le_value got Hok). exact Hval.
Qed.

Lemma read_idcode_decodes_tdo_witness :
  exists st',
    read_idcode 8 connected_device
      (jtag_at STATE_TEST_LOGIC_RESET
         (stream_of (ftdi_answers (replicate 8 false) (replicate 40 true))
            (fun _ => 0)))
    = Ok (print_idcode (byte_of_bits (drop 8 (replicate 40 true)))
            connected_device, st') /\
    shift_tdi (trace st') = jtag_bits [READ_ID] ++ replicate 32 false /\
    current_state st' = STATE_EXIT1_DR.
Proof.
  apply (read_idcode_decodes_tdo STATE_TEST_LOGIC_RESET (replicate 8 false)
           (replicate 40 true) (fun _ => 0) connected_device);
    reflexivity.
Defined.

(** X20: [read_status_register] prints the status the device shows on
    TDO: for a device of a known type, with the FTDI answering for the
    TDO bits [tdo] of the two shifts (8 bits of instruction, then 32
    bits of data for an ECP5 and 64 for an NX device), the one value
    printed is the number the data bits make up, the first of them as
    bit 0; the state variable is left in Exit1-DR. *)
Theorem read_status_register_prints_tdo (s : TapState) (sr tdo : list bool)
    (rest : nat -> Z) (dev : device_info) :
  length sr = 8%nat ->
  type dev <> TYPE_NONE ->
  Z.of_nat (length tdo) = 8 + status_bits (type dev) ->
  exists st',
    read_status_register 8 dev
      (jtag_at s (stream_of (ftdi_answers sr tdo) rest)) = Ok st' /\
    prints_of (trace st') = [byte_of_bits (drop 8 tdo)] /\
    current_state st' = STATE_EXIT1_DR.
Proof.
  intros Hsr Hty Htdo. unfold read_status_register.
  set (rx := stream_of (ftdi_answers sr tdo) rest).
  rewrite (go_to_state_run8 s STATE_SHIFT_IR (jtag_at s rx) eq_refl).
  cbn [rbind].
  rewrite (jtag_tap_shift_run _ _ 8 true _ STATE_EXIT1_IR);
    [ | lia | vm_compute; congruence | vm_compute; congruence | reflexivity ].
  cbn [rbind].
  change (Z.to_nat (8 mod 256 / 8)) with 1%nat.
  change (Z.to_nat (8 mod 256)) with 8%nat.
  unfold delivered at 1. cbn [seq map app drop].
  rewrite store_0. cbn [rbind].
  rewrite (go_to_state_run8 STATE_EXIT1_IR STATE_SHIFT_DR) by reflexivity.
  cbn [rbind].
  destruct (type dev) eqn:Ety; [ congruence | | ]; cbn [status_bits] in Htdo.
  - rewrite (jtag_tap_shift_run _ _ 32 true _ STATE_EXIT1_DR);
      [ | lia | vm_compute; congruence | vm_compute; congruence
        | reflexivity ].
    cbn [rbind].
    change (Z.to_nat (32 mod 256 / 8)) with 4%nat.
    change (Z.to_nat (32 mod 256)) with 32%nat.
    unfold delivered.
    cbn [moved advanced jtag_at ftdi_rx rx_pos current_state trace drop app].
    set (got := map (fun i => rx (0 + 8 + (7 + 8 * i))%nat) (seq 0 4)).
    destruct (answers_value sr tdo rest 1 4 Hsr ltac:(lia)) as (Hval & Hok).
    change (map _ (seq 0 4)) with got in Hval, Hok.
    eexists. split; [ reflexivity | ]. split; [ | reflexivity ].
    unfold print_ecp5_status_register, emit.
    cbn [trace advanced moved jtag_at app].
    rewrite !prints_of_app, !prints_of_nav, !prints_of_shift. cbn [app].
    unfold prints_of. cbn [flat_map app]. f_equal.
    rewrite take_app_length' by reflexivity.
    change 32 with (8 * Z.of_nat (length got)).
    rewrite (format_le_value got Hok). exact Hval.
  - rewrite (jtag_tap_shift_run _ _ 64 true _ STATE_EXIT1_DR);
      [ | lia | vm_compute; congruence | vm_compute; congruence
        | reflexivity ].
    cbn [rbind].
    change (Z.to_nat (64 mod 256 / 8)) with 8%nat.
    change (Z.to_nat (64 mod 256)) with 64%nat.
    unfold delivered.
    cbn [moved advanced jtag_at ftdi_rx rx_pos current_state trace drop app].
    set (got := map (fun i => rx (0 + 8 + (7 + 8 * i))%nat) (seq 0 8)).
    destruct (answers_value sr tdo rest 1 8 Hsr ltac:(lia)) as (Hval & Hok).
    change (map _ (seq 0 8)) with got in Hval, Hok.
    eexists. split; [ reflexivity | ]. split; [ | reflexivity ].
    unfold print_nx_status_register, emit.
    cbn [trace advanced moved jtag_at app].
    rewrite !prints_of_app, !prints_of_nav, !prints_of_shift. cbn [app].
    unfold prints_of. cbn [flat_map app]. f_equal.
    rewrite take_app_length' by reflexivity.
    change 64 with (8 * Z.of_nat (length got)).
    rewrite (format_le_value got Hok). exact Hval.
Qed.

Lemma read_status_register_prints_tdo_witness :
  exists st',
    read_status_register 8
      {| name := None; id := 0x110F1043; type := TYPE_NX |}
      (jtag_at STATE_RUN_TEST_IDLE
         (stream_of (ftdi_answers (replicate 8 false) (replicate 72 true))
            (fun _ => 0))) = Ok st' /\
    prints_of (trace st') = [byte_of_bits (drop 8 (replicate 72 true))] /\
    current_state st' = STATE_EXIT1_DR.
Proof.
  apply (read_status_register_prints_tdo STATE_RUN_TEST_IDLE
           (replicate 8 false) (replicate 72 true) (fun _ => 0)
           {| name := None; id := 0x110F1043; type := TYPE_NX |}).
  - reflexivity.
  - discriminate.
  - reflexivity.
Defined.

(* ===================================================================== *)
(** * Waiting *)
(* ===================================================================== *)

(** X21: [jtag_wait_time] sends the number of whole groups of eight
    clocks as a 16-bit count, low byte first, with the command for
    groups of eight clocks, and after it, only when the number of
    microseconds is no multiple of eight, the remainder with the
    command for single clocks.  The count is cut to 16 bits.  These
    writes are all the function does: it reads nothing, consumes none
    of the bytes received, and leaves the state variable where it
    was. *)
Theorem jtag_wait_time_sends_count (microseconds : Z) (st : jtag) :
  0 <= microseconds < 4294967296 ->
  exists lo hi,
    trace (jtag_wait_time microseconds st) =
      trace st ++ [EvWrite [MC_CLK_N8; lo; hi]] ++
      (if microseconds mod 8 =? 0 then []
       else [EvWrite [MC_CLK_N; microseconds mod 8]]) /\
    0 <= lo < 256 /\ 0 <= hi < 256 /\
    lo + 256 * hi = (microseconds / 8) mod 65536 /\
    current_state (jtag_wait_time microseconds st) = current_state st /\
    rx_pos (jtag_wait_time microseconds st) = rx_pos st /\
    ftdi_rx (jtag_wait_time microseconds st) = ftdi_rx st /\
    reads_of (trace (jtag_wait_time microseconds st)) =
      reads_of (trace st) /\
    acks_of (trace (jtag_wait_time microseconds st)) =
      acks_of (trace st).
Proof.
  intros Hus.
  set (bytes := uint16 (microseconds / 8)).
  assert (Hb : 0 <= bytes < 65536)
    by (unfold bytes, uint16; apply Z.mod_pos_bound; lia).
  exists (Z.land bytes 0xFF), (Z.land (Z.shiftr bytes 8) 0xFF).
  assert (Hlo : Z.land bytes 0xFF = bytes mod 256)
    by (change 0xFF with (Z.ones 8); now rewrite Z.land_ones by lia).
  assert (Hhi : Z.land (Z.shiftr bytes 8) 0xFF = bytes / 256).
  { change 0xFF with (Z.ones 8).
    rewrite Z.land_ones, Z.shiftr_div_pow2 by lia.
    change (2 ^ 8) with 256. apply Z.mod_small.
    split; [ apply Z.div_pos; lia | apply Z.div_lt_upper_bound; lia ]. }
  assert (Hrem : uint8 (microseconds mod 8) = microseconds mod 8).
  { unfold uint8. apply Z.mod_small.
    pose proof (Z.mod_pos_bound microseconds 8 ltac:(lia)). lia. }
  unfold jtag_wait_time. fold bytes. rewrite Hrem.
  unfold mpsse_xfer.
  change (uint16 3 =? 0) with false. change (uint16 0 =? 0) with true.
  change (uint16 2 =? 0) with false. cbv iota.
  change (Z.to_nat (uint16 3)) with 3%nat.
  change (Z.to_nat (uint16 2)) with 2%nat.
  cbn [take].
  destruct (microseconds mod 8 =? 0) eqn:E;
    cbn [snd emit trace current_state rx_pos ftdi_rx app];
    rewrite ?app_nil_r, <- ?app_assoc; cbn [app];
    rewrite Hlo, Hhi;
    (split; [ reflexivity | ]);
    (split; [ apply Z.mod_pos_bound; lia | ]);
    (split; [ split; [ apply Z.div_pos; lia
                     | apply Z.div_lt_upper_bound; lia ] | ]);
    (split; [ unfold bytes, uint16 in *;
              pose proof (Z.div_mod (microseconds / 8 mod 65536) 256
                            ltac:(lia)); lia | ]);
    (split; [ reflexivity | ]);
    (split; [ reflexivity | ]);
    (split; [ reflexivity | ]);
    unfold reads_of, acks_of; rewrite !flat_map_app;
    cbn [flat_map app]; now rewrite ?app_nil_r.
Qed.

Lemma jtag_wait_time_sends_count_witness :
  exists lo hi,
    trace (jtag_wait_time 32 (jtag_at STATE_RUN_TEST_IDLE (fun _ => 0))) =
      [] ++ [EvWrite [MC_CLK_N8; lo; hi]] ++
      (if 32 mod 8 =? 0 then [] else [EvWrite [MC_CLK_N; 32 mod 8]]) /\
    0 <= lo < 256 /\ 0 <= hi < 256 /\
    lo + 256 * hi = (32 / 8) mod 65536 /\
    current_state
      (jtag_wait_time 32 (jtag_at STATE_RUN_TEST_IDLE (fun _ => 0))) =
      STATE_RUN_TEST_IDLE /\
    rx_pos (jtag_wait_time 32 (jtag_at STATE_RUN_TEST_IDLE (fun _ => 0))) =
      0%nat /\
    ftdi_rx (jtag_wait_time 32 (jtag_at STATE_RUN_TEST_IDLE (fun _ => 0))) =
      (fun _ => 0) /\
    reads_of
      (trace (jtag_wait_time 32 (jtag_at STATE_RUN_TEST_IDLE (fun _ => 0)))) =
      reads_of [] /\
    acks_of
      (trace (jtag_wait_time 32 (jtag_at STATE_RUN_TEST_IDLE (fun _ => 0)))) =
      acks_of [].
Proof.
  apply (jtag_wait_time_sends_count 32
           (jtag_at STATE_RUN_TEST_IDLE (fun _ => 0))).
  lia.
Defined.

(* ===================================================================== *)
(** * Instructions and their operands *)
(* ===================================================================== *)

Lemma mpsse_wire_pulses_bytes (ps : list (bool * bool)) :
  mpsse_wire (pulses_bytes ps) = ps.
Proof.
  induction ps as [|[tms tdi] ps IH]; [ reflexivity | ].
  cbn [pulses_bytes flat_map pulse_bytes app fst snd].
  change (flat_map (fun p => pulse_bytes (fst p) (snd p)) ps)
    with (pulses_bytes ps).
  cbn [mpsse_wire]. rewrite IH.
  destruct tms, tdi; reflexivity.
Qed.

Lemma wire_app (tr1 tr2 : list event) : wire (tr1 ++ tr2) = wire tr1 ++ wire tr2.
Proof. unfold wire, writes_of. now rewrite !flat_map_app. Qed.

Lemma wire_shift_events (must_end : bool) (input_data : list Z) (n : Z) :
  0 < n ->
  wire (shift_events must_end input_data n) =
    shift_pulses must_end input_data n.
Proof.
  intros Hn. unfold shift_events.
  replace (n =? 0) with false by zbool.
  rewrite !wire_app.
  assert (H1 : forall b : bool, wire (if b then [EvAck true] else []) = [])
    by (intros []; reflexivity).
  assert (H2 : forall b : bool,
             wire (if b then [] else [EvRead (n mod 256)]) = [])
    by (intros []; reflexivity).
  rewrite H1, H2, app_nil_r. cbn [app].
  unfold wire, writes_of. cbn [flat_map app]. rewrite app_nil_r.
  apply mpsse_wire_pulses_bytes.
Qed.

Lemma tap_clock_app (a b : list (bool * bool)) :
  forall s,
    tap_clock s (a ++ b) =
      (r1 <-- tap_clock s a ;;
       let '(u, ir1, dr1) := r1 in
       r2 <-- tap_clock u b ;;
       let '(t, ir2, dr2) := r2 in
       Ok (t, ir1 ++ ir2, dr1 ++ dr2)).
Proof.
  induction a as [|[tms tdi] a IH]; intros s; cbn [app tap_clock rbind].
  - destruct (tap_clock s b) as [[[t ir] dr]| | |]; reflexivity.
  - destruct (tap_next s tms) as [u| | |]; cbn [rbind]; try reflexivity.
    rewrite IH.
    destruct (tap_clock u a) as [[[v ir1] dr1]| | |]; cbn [rbind];
      try reflexivity.
    destruct (tap_clock v b) as [[[t ir2] dr2]| | |]; cbn [rbind];
      try reflexivity.
    now rewrite !app_assoc.
Qed.

(** A TAP in Shift-IR or Shift-DR clocked with the pulses of a shift
    that ends: all the bits go into the register of that state, and
    the TAP leaves for Exit1. *)
Lemma tap_clock_bits (bits : list bool) (last : bool) :
  tap_clock STATE_SHIFT_IR (map (fun b => (false, b)) bits ++ [(true, last)])
    = Ok (state_code STATE_EXIT1_IR, bits ++ [last], []) /\
  tap_clock STATE_SHIFT_DR (map (fun b => (false, b)) bits ++ [(true, last)])
    = Ok (state_code STATE_EXIT1_DR, [], bits ++ [last]).
Proof.
  induction bits as [|b bits (IHir & IHdr)]; [ split; reflexivity | ].
  cbn [map app tap_clock].
  change (tap_next STATE_SHIFT_IR false) with (Ok (state_code STATE_SHIFT_IR)).
  change (tap_next STATE_SHIFT_DR false) with (Ok (state_code STATE_SHIFT_DR)).
  cbn [rbind]. rewrite IHir, IHdr. split; reflexivity.
Qed.

Lemma shift_pulses_split (input_data : list Z) (m : nat) :
  shift_pulses true input_data (Z.of_nat (S m)) =
    map (fun b => (false, b)) (input_bits input_data m) ++
    [(true, Z.testbit (nth (m / 8) input_data 0) (Z.of_nat (m mod 8)))] /\
  input_bits input_data (S m) =
    input_bits input_data m ++
    [Z.testbit (nth (m / 8) input_data 0) (Z.of_nat (m mod 8))].
Proof.
  unfold shift_pulses, input_bits. rewrite Nat2Z.id.
  replace (S m) with (m + 1)%nat by lia.
  rewrite seq_app, !map_app. cbn [seq map Nat.add]. split; [ | reflexivity ].
  f_equal.
  - rewrite map_map. apply map_ext_in. intros k Hk. apply in_seq in Hk.
    f_equal. cbn [andb]. zbool.
  - do 2 f_equal. cbn [andb]. zbool.
Qed.

Lemma tap_clock_shift (input_data : list Z) (n : Z) :
  0 < n ->
  tap_clock STATE_SHIFT_IR (shift_pulses true input_data n)
    = Ok (state_code STATE_EXIT1_IR, input_bits input_data (Z.to_nat n), [])
  /\
  tap_clock STATE_SHIFT_DR (shift_pulses true input_data n)
    = Ok (state_code STATE_EXIT1_DR, [], input_bits input_data (Z.to_nat n)).
Proof.
  intros Hn.
  replace n with (Z.of_nat (S (Z.to_nat (n - 1)))) at 1 3 by lia.
  replace (Z.to_nat n) with (S (Z.to_nat (n - 1))) by lia.
  destruct (shift_pulses_split input_data (Z.to_nat (n - 1))) as (-> & ->).
  apply tap_clock_bits.
Qed.

Lemma tap_clock_nav_ir (s : TapState) :
  s <> STATE_SHIFT_DR ->
  tap_clock s (wire (nav_events s STATE_SHIFT_IR))
    = Ok (state_code STATE_SHIFT_IR, [], []).
Proof.
  intros Hs. destruct s; try (vm_compute; reflexivity); now destruct Hs.
Qed.

Lemma jtag_wait_time_32 (st : jtag) :
  jtag_wait_time 32 st = emit (EvWrite [MC_CLK_N8; 4; 0]) st.
Proof. reflexivity. Qed.

Lemma input_bits_byte (d : Z) : input_bits [d] 8 = jtag_bits [d].
Proof.
  rewrite input_bits_first by lia. unfold jtag_bits. cbn [flat_map].
  now rewrite app_nil_r.
Qed.

(** X22: [ecp_jtag_cmd8] loads the command into the instruction
    register and the parameter into the data register: a TAP that is in
    state [s] (any state but Shift-DR, where the first pulse of the way
    out would shift one more bit) and is clocked with the pulses the
    function sends meets the eight bits of [cmd], bit 0 first, in
    Shift-IR, the eight bits of [param] in Shift-DR, no other bit in
    either state, and ends in Run-Test/Idle, where the state variable
    is as well. *)
Theorem ecp_jtag_cmd8_loads_ir_and_dr (s : TapState) (cmd param : Z)
    (st : jtag) :
  current_state st = s ->
  s <> STATE_SHIFT_DR ->
  exists st' evs,
    ecp_jtag_cmd8 8 cmd param st = Ok st' /\
    trace st' = trace st ++ evs /\
    current_state st' = STATE_RUN_TEST_IDLE /\
    tap_clock s (wire evs) =
      Ok (state_code STATE_RUN_TEST_IDLE, jtag_bits [cmd], jtag_bits [param]).
Proof.
  intros Hs Hns. unfold ecp_jtag_cmd8.
  rewrite (go_to_state_run8 s STATE_SHIFT_IR st Hs). cbn [rbind].
  rewrite (jtag_tap_shift_run _ _ 8 true _ STATE_EXIT1_IR);
    [ | lia | vm_compute; congruence | vm_compute; congruence | reflexivity ].
  cbn [rbind].
  change (Z.to_nat (8 mod 256 / 8)) with 1%nat.
  change (Z.to_nat (8 mod 256)) with 8%nat.
  unfold delivered at 1. cbn [seq map app drop].
  rewrite store_0. cbn [rbind].
  rewrite (go_to_state_run8 STATE_EXIT1_IR STATE_SHIFT_DR) by reflexivity.
  cbn [rbind].
  rewrite (jtag_tap_shift_run _ _ 8 true _ STATE_EXIT1_DR);
    [ | lia | vm_compute; congruence | vm_compute; congruence | reflexivity ].
  cbn [rbind snd].
  rewrite (go_to_state_run8 STATE_EXIT1_DR STATE_RUN_TEST_IDLE)
    by reflexivity.
  cbn [rbind]. rewrite jtag_wait_time_32.
  eexists _, _. split; [ reflexivity | ].
  cbn [emit advanced moved trace current_state].
  split; [ rewrite <- !app_assoc; reflexivity | ].
  split; [ reflexivity | ].
  rewrite !wire_app, !wire_shift_events by lia.
  rewrite tap_clock_app, (tap_clock_nav_ir s Hns). cbn [rbind].
  rewrite tap_clock_app, (proj1 (tap_clock_shift [cmd] 8 ltac:(lia))).
  cbn [rbind].
  rewrite tap_clock_app.
  change (tap_clock STATE_EXIT1_IR
            (wire (nav_events STATE_EXIT1_IR STATE_SHIFT_DR)))
    with (@Ok (Z * list bool * list bool) (state_code STATE_SHIFT_DR, [], [])).
  cbn [rbind].
  rewrite tap_clock_app, (proj2 (tap_clock_shift [param] 8 ltac:(lia))).
  cbn [rbind].
  rewrite tap_clock_app.
  change (tap_clock STATE_EXIT1_DR
            (wire (nav_events STATE_EXIT1_DR STATE_RUN_TEST_IDLE)))
    with (@Ok (Z * list bool * list bool)
            (state_code STATE_RUN_TEST_IDLE, [], [])).
  cbn [rbind].
  change (wire [EvWrite [MC_CLK_N8; 4; 0]]) with (@nil (bool * bool)).
  cbn [tap_clock rbind app]. rewrite !app_nil_r.
  change (Z.to_nat 8) with 8%nat. now rewrite !input_bits_byte.
Qed.

Lemma ecp_jtag_cmd8_loads_ir_and_dr_witness :
  exists st' evs,
    ecp_jtag_cmd8 8 0xC6 0x08 (jtag_at STATE_EXIT1_DR (fun _ => 0)) = Ok st' /\
    trace st' = [] ++ evs /\
    current_state st' = STATE_RUN_TEST_IDLE /\
    tap_clock STATE_EXIT1_DR (wire evs) =
      Ok (state_code STATE_RUN_TEST_IDLE, jtag_bits [0xC6], jtag_bits [0x08]).
Proof.
  apply (ecp_jtag_cmd8_loads_ir_and_dr STATE_EXIT1_DR 0xC6 0x08
           (jtag_at STATE_EXIT1_DR (fun _ => 0))).
  - reflexivity.
  - discriminate.
Defined.

(* ===================================================================== *)
(** * Erasing and programming, seen from the flash *)
(* ===================================================================== *)

(** X23: the three address bytes of a flash command carry the address
    modulo 16 MiB: an address below 16 MiB is read back from them as it
    is, and a larger one comes out reduced, the commands having no
    fourth address byte. *)
Theorem command_carries_24_bits (cmd addr : Z) :
  0 <= addr ->
  command_addr (command cmd addr) = addr mod 16777216.
Proof.
  intros Ha. unfold command, command_addr, uint8.
  rewrite !Z.shiftr_div_pow2 by lia.
  change (2 ^ 16) with 65536. change (2 ^ 8) with 256.
  pose proof (Z.div_mod addr 16777216 ltac:(lia)) as H24.
  pose proof (Z.mod_pos_bound addr 16777216 ltac:(lia)) as Hb24.
  pose proof (Z.div_mod addr 256 ltac:(lia)) as H0.
  pose proof (Z.mod_pos_bound addr 256 ltac:(lia)) as Hb0.
  pose proof (Z.div_mod (addr / 256) 256 ltac:(lia)) as H1.
  pose proof (Z.mod_pos_bound (addr / 256) 256 ltac:(lia)) as Hb1.
  pose proof (Z.div_mod (addr / 65536) 256 ltac:(lia)) as H2.
  pose proof (Z.mod_pos_bound (addr / 65536) 256 ltac:(lia)) as Hb2.
  assert (H16 : addr / 65536 = addr / 256 / 256)
    by (rewrite Z.div_div by lia; reflexivity).
  assert (H24' : addr / 16777216 = addr / 65536 / 256)
    by (rewrite Z.div_div by lia; reflexivity).
  lia.
Qed.

Lemma command_carries_24_bits_witness :
  command_addr (command FC_PP 0x1012345) = 0x1012345 mod 16777216.
Proof. apply (command_carries_24_bits FC_PP 0x1012345). lia. Defined.

(** X24: the erase branch erases every byte that is going to be
    programmed: for a request that ends within the 16 MiB the address
    bytes of a command reach, and each address from [rw_offset] up to
    the end of the file, the run returns and among the erase commands
    it has sent is one, with the opcode of the block size, whose
    address bytes carry the start of a block, a multiple of the block
    size, that holds the address. *)
Theorem erase_covers_every_byte (verbose : bool)
    (erase_block_size rw_offset file_size a : Z) :
  erase_block_size = 4 \/ erase_block_size = 32 \/ erase_block_size = 64 ->
  0 <= rw_offset -> 0 <= file_size ->
  rw_offset + file_size <= 16777216 ->
  rw_offset <= a < rw_offset + file_size ->
  exists evs c,
    erase_blocks
      (length (aligned_blocks (erase_block_size * 1024) rw_offset file_size))
      verbose erase_block_size rw_offset file_size = Ok evs /\
    In c (erase_commands evs) /\
    hd 0 c = erase_opcode erase_block_size /\
    command_addr c mod (erase_block_size * 1024) = 0 /\
    command_addr c <= a < command_addr c + erase_block_size * 1024.
Proof.
  intros HB Ho Hl Hmax Ha.
  pose proof (erase_blocks_run verbose erase_block_size rw_offset file_size 0
                HB Ho Hl ltac:(lia)) as Hrun.
  cbv zeta in Hrun. rewrite Nat.add_0_r in Hrun.
  set (B := erase_block_size * 1024) in *.
  assert (HBpos : 0 < B) by (unfold B; lia).
  pose proof (Z.mul_div_le a B HBpos) as Hlo.
  pose proof (Z.mul_succ_div_gt a B HBpos) as Hhi.
  assert (Hin : In (a / B * B) (aligned_blocks B rw_offset file_size)).
  { unfold aligned_blocks. apply in_map_iff.
    assert (H1 : rw_offset / B <= a / B) by (apply Z.div_le_mono; lia).
    assert (H2 : a / B < (rw_offset + file_size + B - 1) / B).
    { apply Z.lt_le_trans with (m := (a + B) / B).
      - replace (a + B) with (a + 1 * B) by lia.
        rewrite Z.div_add by lia. lia.
      - apply Z.div_le_mono; lia. }
    exists (Z.to_nat (a / B - rw_offset / B)). split.
    - rewrite Z2Nat.id by lia. f_equal. lia.
    - apply in_seq. lia. }
  exists (flat_map (erase_step verbose erase_block_size)
            (aligned_blocks B rw_offset file_size)),
         (command (erase_opcode erase_block_size) (a / B * B)).
  split; [ exact Hrun | ].
  rewrite erase_commands_steps by exact HB.
  split; [ now apply in_map | ].
  split; [ reflexivity | ].
  rewrite command_addr_small
    by (apply (aligned_blocks_below_16MiB erase_block_size rw_offset
                 file_size); assumption).
  split; [ apply Z.mod_mul; lia | lia ].
Qed.

Lemma erase_covers_every_byte_witness :
  exists evs c,
    erase_blocks (length (aligned_blocks (64 * 1024) 0x00F000 0x2000))
      false 64 0x00F000 0x2000 = Ok evs /\
    In c (erase_commands evs) /\
    hd 0 c = erase_opcode 64 /\
    command_addr c mod (64 * 1024) = 0 /\
    command_addr c <= 0x010FFF < command_addr c + 64 * 1024.
Proof.
  apply (erase_covers_every_byte false 64 0x00F000 0x2000 0x010FFF); lia.
Defined.

(* ===================================================================== *)
(** * The SPI bridge beyond the command buffer *)
(* ===================================================================== *)

(** A shift of 342 bits or more stores past the end of the command
    buffer. *)
Lemma shift_overrun (input_data output_data : list Z) (data_bits : Z)
    (must_end : bool) (st : jtag) :
  342 <= data_bits < 4294967289 ->
  jtag_tap_shift input_data output_data data_bits must_end st = Undef.
Proof.
  intros HN. unfold jtag_tap_shift.
  assert (Hu : uint32 (data_bits + 7) = data_bits + 7)
    by (unfold uint32; apply Z.mod_small; lia).
  rewrite Hu.
  set (n := Z.to_nat ((data_bits - 1) / 8)).
  assert (Hn : Z.of_nat n = (data_bits - 1) / 8)
    by (unfold n; rewrite Z2Nat.id; [ reflexivity | apply Z.div_pos; lia ]).
  assert (Hq : (data_bits + 7) / 8 = (data_bits - 1) / 8 + 1).
  { replace (data_bits + 7) with (data_bits - 1 + 1 * 8) by lia.
    now rewrite Z.div_add by lia. }
  pose proof (Z.mul_div_le (data_bits - 1) 8 ltac:(lia)) as Hlo.
  pose proof (Z.mul_succ_div_gt (data_bits - 1) 8 ltac:(lia)) as Hhi.
  replace (Z.to_nat ((data_bits + 7) / 8)) with (S n) by lia.
  now rewrite (shift_bytes_overrun must_end input_data n 0 data_bits st _ [])
    by first [ exact eq_refl | cbn [rx_cnt length]; lia ].
Qed.

(** [send_spi] of 43 bytes or more. *)
Lemma send_spi_overrun (s : TapState) (data : list Z) (len : Z) (st : jtag)
    (k : nat) :
  current_state st = s ->
  43 <= len < 536870912 -> len <= Z.of_nat (length data) ->
  send_spi (8 + k) data len st = Undef.
Proof.
  intros Hs Hlen Hdata. unfold send_spi.
  assert (Hu : uint32 len = len) by (unfold uint32; apply Z.mod_small; lia).
  assert (Hu8 : uint32 (len * 8) = len * 8)
    by (unfold uint32; apply Z.mod_small; lia).
  rewrite Hu, Hu8, reverse_bits_spec by lia. cbn [rbind].
  rewrite (go_to_state_run s STATE_SHIFT_DR st k Hs). cbn [rbind].
  now rewrite shift_overrun by lia.
Qed.

(** [xfer_spi] of 43 bytes or more. *)
Lemma xfer_spi_overrun (s : TapState) (data : list Z) (len : Z) (st : jtag)
    (k : nat) :
  current_state st = s ->
  43 <= len < 536870912 -> len <= Z.of_nat (length data) ->
  xfer_spi (8 + k) data len st = Undef.
Proof.
  intros Hs Hlen Hdata. unfold xfer_spi.
  assert (Hu : uint32 len = len) by (unfold uint32; apply Z.mod_small; lia).
  assert (Hu8 : uint32 (len * 8) = len * 8)
    by (unfold uint32; apply Z.mod_small; lia).
  rewrite Hu, Hu8, reverse_bits_spec by lia. cbn [rbind].
  assert (Hnav : exists st1,
             (if jtag_current_state st =? STATE_SHIFT_DR then Ok st
              else jtag_go_to_state (8 + k) STATE_SHIFT_DR st) = Ok st1).
  { destruct (jtag_current_state st =? STATE_SHIFT_DR);
      [ now exists st | ].
    rewrite (go_to_state_run s STATE_SHIFT_DR st k Hs). now eexists. }
  destruct Hnav as (st1 & ->). cbn [rbind].
  now rewrite shift_overrun by lia.
Qed.

(** X25: [flash_prog] of 43 bytes or more, and so of each whole page of
    256 bytes, is undefined on the TAP, from whatever state and
    whatever the data: the command goes out, and the shift of the data,
    344 bits or more, stores past the end of the command buffer of
    [jtag_tap_shift]. *)
Theorem flash_prog_over_42_bytes_overruns (s : TapState) (addr : Z)
    (data : list Z) (n : Z) (st : jtag) (k : nat) :
  current_state st = s ->
  43 <= n < 536870912 -> n <= Z.of_nat (length data) ->
  (exists r, send_spi (8 + k) (command FC_PP addr) 4 st = Ok r /\
             xfer_spi (8 + k) data n (snd r) = Undef) /\
  flash_prog_on_tap (8 + k) addr data n st = Undef.
Proof.
  intros Hs Hn Hdata.
  pose proof (send_spi_run s (command FC_PP addr) 4 st k Hs ltac:(lia)
                ltac:(cbn [command length]; lia)) as Hsend.
  assert (Hx : forall r, send_spi (8 + k) (command FC_PP addr) 4 st = Ok r ->
                         xfer_spi (8 + k) data n (snd r) = Undef).
  { intros r Hr. rewrite Hsend in Hr. injection Hr as <-. cbn [snd].
    now apply (xfer_spi_overrun STATE_SHIFT_DR). }
  split.
  - eexists. split; [ exact Hsend | now apply Hx ].
  - unfold flash_prog_on_tap. rewrite Hsend. cbn [rbind].
    now apply Hx.
Qed.

Lemma flash_prog_over_42_bytes_overruns_witness :
  (exists r,
      send_spi (8 + 0) (command FC_PP 0x100) 4
        (jtag_at STATE_RUN_TEST_IDLE (fun _ => 0)) = Ok r /\
      xfer_spi (8 + 0) (replicate 256 0xA5) 256 (snd r) = Undef) /\
  flash_prog_on_tap (8 + 0) 0x100 (replicate 256 0xA5) 256
    (jtag_at STATE_RUN_TEST_IDLE (fun _ => 0)) = Undef.
Proof.
  apply (flash_prog_over_42_bytes_overruns STATE_RUN_TEST_IDLE 0x100
           (replicate 256 0xA5) 256
           (jtag_at STATE_RUN_TEST_IDLE (fun _ => 0)) 0).
  - reflexivity.
  - lia.
  - vm_compute. congruence.
Defined.

(* ===================================================================== *)
(** * Reading back and verifying *)
(* ===================================================================== *)

Lemma map_seq_from (flash : nat -> Z) (pos n : nat) :
  map (fun k => flash (pos + k)%nat) (seq 0 n) = map flash (seq pos n).
Proof.
  replace (seq pos n) with (map (Nat.add pos) (seq 0 n)).
  - now rewrite map_map.
  - change (map (Nat.add pos) (seq 0 n)) with (Nat.add pos <$> seq 0 n).
    rewrite fmap_add_seq. f_equal. lia.
Qed.

Lemma bytes_eqb_eq (a : list Z) :
  forall b, bytes_eqb a b = true <-> a = b.
Proof.
  induction a as [|x a IH]; intros [|y b]; cbn [bytes_eqb];
    try (split; [ discriminate | congruence ]);
    try (split; reflexivity).
  rewrite andb_true_iff, Z.eqb_eq, IH.
  split; [ intros (-> & ->); reflexivity | intros H; injection H; auto ].
Qed.

(** [flash_start_read] from a state variable that holds [s]. *)
Lemma flash_start_read_run (s : TapState) (addr : Z) (st : jtag) (k : nat) :
  current_state st = s ->
  flash_start_read_on_tap (8 + k) addr st =
    Ok (advanced STATE_SHIFT_DR
          (shift_events false (reversed 4 (command FC_RD addr)) 32) 32
          (moved STATE_SHIFT_DR (nav_events s STATE_SHIFT_DR) st)).
Proof.
  intros Hs. unfold flash_start_read_on_tap.
  rewrite (send_spi_run s (command FC_RD addr) 4 st k Hs)
    by (cbn [command length]; lia).
  reflexivity.
Qed.

Lemma memset_0_run (data : list Z) (n : Z) :
  0 <= n <= Z.of_nat (length data) ->
  memset_0 data n = Ok (replicate (Z.to_nat n) 0 ++ drop (Z.to_nat n) data).
Proof.
  intros Hn. unfold memset_0.
  replace (0 <=? n) with true by zbool.
  replace (n <=? Z.of_nat (length data)) with true by zbool.
  reflexivity.
Qed.

Lemma length_memset_0 (data : list Z) (n : nat) :
  (n <= length data)%nat ->
  length (replicate n 0 ++ drop n data) = length data.
Proof. intros Hn. rewrite length_app, length_replicate, length_drop. lia. Qed.

(** [flash_continue_read] of 43 bytes or more, once the read has been
    started. *)
Lemma flash_continue_read_overrun (data : list Z) (n : Z) (st : jtag)
    (k : nat) :
  current_state st = STATE_SHIFT_DR ->
  43 <= n < 536870912 -> n <= Z.of_nat (length data) ->
  flash_continue_read_on_tap (8 + k) data n st = Undef.
Proof.
  intros Hs Hn Hdata. unfold flash_continue_read_on_tap.
  rewrite memset_0_run by lia. cbn [rbind].
  apply (send_spi_overrun STATE_SHIFT_DR); [ exact Hs | exact Hn | ].
  rewrite length_memset_0; lia.
Qed.

Lemma verify_loop_on_tap_done (turns fuel : nat) (file_size addr : Z)
    (file buffer_flash : list Z) (st : jtag) :
  file_size <= addr ->
  verify_loop_on_tap turns fuel file_size addr file buffer_flash st = Ok st.
Proof.
  intros H. destruct turns; cbn [verify_loop_on_tap];
    replace (addr <? file_size) with false by zbool; reflexivity.
Qed.

(** X26: the verify branch is undefined on the TAP for every file of 43
    bytes or more: the read command goes out, and the first
    [flash_continue_read], of [read_blocksize] bytes or of the whole
    file when it is shorter, is a shift of 344 bits or more, which
    stores past the end of the command buffer of [jtag_tap_shift]; no
    byte of the file is compared with the flash. *)
Theorem verify_over_42_bytes_overruns (s : TapState) (rw_offset : Z)
    (file buffer_flash : list Z) (st : jtag) (turns k : nat) :
  current_state st = s ->
  (43 <= length file)%nat ->
  length buffer_flash = Z.to_nat read_blocksize ->
  verify_on_tap (S turns) (8 + k) rw_offset (Z.of_nat (length file)) file
    buffer_flash st = Undef.
Proof.
  intros Hs Hfile Hbuf. unfold verify_on_tap.
  rewrite (flash_start_read_run s rw_offset st k Hs). cbn [rbind].
  cbn [verify_loop_on_tap].
  replace (0 <? Z.of_nat (length file)) with true by zbool.
  set (rc := Z.min (Z.of_nat (length file)) read_blocksize).
  assert (Hrc : 43 <= rc <= read_blocksize)
    by (unfold rc, read_blocksize; lia).
  replace (rc <=? 0) with false by zbool.
  rewrite flash_continue_read_overrun;
    [ reflexivity | reflexivity | unfold read_blocksize in Hrc; lia | ].
  rewrite Hbuf. unfold read_blocksize in *. lia.
Qed.

Lemma verify_over_42_bytes_overruns_witness :
  verify_on_tap 1 (8 + 0) 0 (Z.of_nat (length (replicate 43 0xFF)))
    (replicate 43 0xFF) (replicate (Z.to_nat read_blocksize) 0)
    (jtag_at STATE_RUN_TEST_IDLE (fun _ => 0xFF)) = Undef.
Proof.
  apply (verify_over_42_bytes_overruns STATE_RUN_TEST_IDLE 0
           (replicate 43 0xFF) (replicate (Z.to_nat read_blocksize) 0)
           (jtag_at STATE_RUN_TEST_IDLE (fun _ => 0xFF)) 0 0).
  - reflexivity.
  - simpl. lia.
  - vm_compute. reflexivity.
Defined.

(** X27: the read branch is undefined on the TAP whenever there is
    something to read: the read command goes out, and the first
    [flash_continue_read], always of [read_blocksize] = 8192 bytes, is
    a shift of 65536 bits, which stores past the end of the command
    buffer of [jtag_tap_shift]; nothing is written to the file. *)
Theorem read_mode_overruns (s : TapState) (rw_offset read_size : Z)
    (buffer : list Z) (st : jtag) (turns k : nat) :
  current_state st = s ->
  0 < read_size ->
  length buffer = Z.to_nat read_blocksize ->
  read_mode_on_tap (S turns) (8 + k) rw_offset read_size buffer st = Undef.
Proof.
  intros Hs Hsize Hbuf. unfold read_mode_on_tap.
  rewrite (flash_start_read_run s rw_offset st k Hs). cbn [rbind].
  cbn [read_loop_on_tap].
  replace (0 <? read_size) with true by zbool.
  rewrite flash_continue_read_overrun;
    [ reflexivity | reflexivity | unfold read_blocksize; lia | ].
  rewrite Hbuf. unfold read_blocksize. lia.
Qed.

Lemma read_mode_overruns_witness :
  read_mode_on_tap 1 (8 + 0) 0 256 (replicate (Z.to_nat read_blocksize) 0)
    (jtag_at STATE_RUN_TEST_IDLE (fun _ => 0xFF)) = Undef.
Proof.
  apply (read_mode_overruns STATE_RUN_TEST_IDLE 0 256
           (replicate (Z.to_nat read_blocksize) 0)
           (jtag_at STATE_RUN_TEST_IDLE (fun _ => 0xFF)) 0 0).
  - reflexivity.
  - lia.
  - vm_compute. reflexivity.
Defined.

(** What the verify branch makes of the flash for a file of [n] bytes:
    the bytes received after the 32 bits of the read command. *)
Lemma flash_continue_read_small (sr tdo : list bool) (rest : nat -> Z)
    (tr : list event) (buffer_flash : list Z) (n k : nat) :
  length sr = 8%nat ->
  (1 <= n <= 31)%nat -> (n <= length buffer_flash)%nat ->
  length tdo = (32 + 8 * n)%nat ->
  exists st',
    flash_continue_read_on_tap (8 + k) buffer_flash (Z.of_nat n)
      {| current_state := STATE_SHIFT_DR;
         ftdi_rx := stream_of (ftdi_answers sr tdo) rest;
         rx_pos := 32; trace := tr |} =
      Ok (map (fun i => spi_byte (take 8 (drop (32 + 8 * i) tdo))) (seq 0 n)
          ++ drop n buffer_flash, st') /\
    current_state st' = STATE_SHIFT_DR.
Proof.
  intros Hsr Hn Hbuf Htdo. unfold flash_continue_read_on_tap.
  rewrite memset_0_run by lia. cbn [rbind]. rewrite Nat2Z.id.
  eexists. split.
  - rewrite (send_spi_run STATE_SHIFT_DR)
      by first [ lia | reflexivity | rewrite length_memset_0 by lia; lia ].
    rewrite Nat2Z.id. f_equal. f_equal. unfold spi_received.
    cbn [ftdi_rx rx_pos].
    rewrite drop_app_length' by (now rewrite length_replicate).
    f_equal. apply map_ext_in. intros i Hi. apply in_seq in Hi.
    replace (32 + (7 + 8 * i))%nat with (7 + 8 * (4 + i))%nat by lia.
    rewrite (stream_of_lookup _ _ _ _
               (ftdi_answers_byte (4 + i) sr tdo Hsr ltac:(lia))).
    replace (8 * (4 + i))%nat with (32 + 8 * i)%nat by lia.
    apply bit_reverse_byte_of_bits.
    rewrite length_take, length_drop. lia.
  - reflexivity.
Qed.

(** X28: for a file of 1 to 31 bytes the verify branch compares the
    file with what the flash sends after the 32 bits of the read
    command: with the FTDI answering for the TDO bits [tdo], byte [i]
    of the flash is made of the bits [32 + 8 i] to [32 + 8 i + 7], the
    first of them in bit 7.  The branch returns, with the transfer
    still open in Shift-DR, exactly when these bytes are the file, and
    ends the run with exit status 3 when they are not. *)
Theorem verify_small_file_compares_miso (s : TapState) (sr tdo : list bool)
    (rest : nat -> Z) (rw_offset : Z) (file buffer_flash : list Z)
    (turns k : nat) :
  length sr = 8%nat ->
  (1 <= length file <= 31)%nat ->
  length buffer_flash = Z.to_nat read_blocksize ->
  length tdo = (32 + 8 * length file)%nat ->
  let flash :=
    map (fun i => spi_byte (take 8 (drop (32 + 8 * i) tdo)))
        (seq 0 (length file)) in
  let run :=
    verify_on_tap (S turns) (8 + k) rw_offset (Z.of_nat (length file)) file
      buffer_flash (jtag_at s (stream_of (ftdi_answers sr tdo) rest)) in
  (file = flash ->
   exists st', run = Ok st' /\ current_state st' = STATE_SHIFT_DR) /\
  (file <> flash -> run = jtag_error 3).
Proof.
  intros Hsr Hfile Hbuf Htdo flash run.
  assert (Hrun : exists st',
             current_state st' = STATE_SHIFT_DR /\
             run = if bytes_eqb file flash then Ok st' else jtag_error 3).
  { unfold run, verify_on_tap.
    rewrite (flash_start_read_run s) by reflexivity. cbn [rbind].
    cbn [verify_loop_on_tap].
    replace (0 <? Z.of_nat (length file)) with true by zbool.
    replace (Z.min (Z.of_nat (length file)) read_blocksize)
      with (Z.of_nat (length file)) by (unfold read_blocksize; lia).
    replace (Z.of_nat (length file) <=? 0) with false by zbool.
    rewrite Nat2Z.id.
    destruct (flash_continue_read_small sr tdo rest
                (trace
                   (advanced STATE_SHIFT_DR
                      (shift_events false
                         (reversed 4 (command FC_RD rw_offset)) 32) 32
                      (moved STATE_SHIFT_DR (nav_events s STATE_SHIFT_DR)
                         (jtag_at s (stream_of (ftdi_answers sr tdo) rest)))))
                buffer_flash (length file) k Hsr Hfile
                ltac:(rewrite Hbuf; unfold read_blocksize; lia) Htdo)
      as (st' & Hread & Hst').
    exists st'. split; [ exact Hst' | ].
    unfold advanced, moved, jtag_at in *.
    cbn [current_state ftdi_rx rx_pos trace Nat.add] in *.
    rewrite Hread. cbn [rbind fst snd].
    rewrite take_app_length' by (now rewrite length_map, length_seq).
    rewrite firstn_all. fold flash.
    destruct (bytes_eqb file flash); [ | reflexivity ].
    apply verify_loop_on_tap_done.
    change (int32 (0 + read_blocksize)) with 8192. lia. }
  destruct Hrun as (st' & Hst' & Hrun). split.
  - intros Heq. exists st'. split; [ | exact Hst' ].
    rewrite Hrun. now rewrite (proj2 (bytes_eqb_eq file flash) Heq).
  - intros Hne. rewrite Hrun.
    destruct (bytes_eqb file flash) eqn:E; [ | reflexivity ].
    now apply bytes_eqb_eq in E.
Qed.

Lemma verify_small_file_compares_miso_witness :
  exists st',
    verify_on_tap 1 (8 + 0) 0x100 (Z.of_nat (length [0xA5])) [0xA5]
      (replicate (Z.to_nat read_blocksize) 0)
      (jtag_at STATE_RUN_TEST_IDLE
         (stream_of
            (ftdi_answers (replicate 8 false)
               (replicate 32 false ++
                [true; false; true; false; false; true; false; true]))
            (fun _ => 0))) = Ok st' /\
    current_state st' = STATE_SHIFT_DR.
Proof.
  apply (verify_small_file_compares_miso STATE_RUN_TEST_IDLE
           (replicate 8 false)
           (replicate 32 false ++
            [true; false; true; false; false; true; false; true])
           (fun _ => 0) 0x100 [0xA5]
           (replicate (Z.to_nat read_blocksize) 0) 0 0).
  - reflexivity.
  - simpl. lia.
  - vm_compute. reflexivity.
  - reflexivity.
  - reflexivity.
Defined.

(* ===================================================================== *)
(** * The transport: pieces of an answer *)
(* ===================================================================== *)

Lemma mpsse_read_loop_collects (rx : nat -> Z) (receive_length : Z)
    (rets : list Z) :
  0 <= receive_length < 65536 ->
  forall (pos : nat) (data_buffer : list Z) (rx_len : Z) (out : list Z)
         (pos' : nat),
    0 <= rx_len <= receive_length ->
    receive_length <= Z.of_nat (length data_buffer) ->
    reads_fit rets (receive_length - rx_len) ->
    mpsse_read_loop rets rx pos data_buffer rx_len receive_length
      = Ok (out, pos') ->
    out = take (Z.to_nat rx_len) data_buffer ++
          map rx (seq pos (Z.to_nat (receive_length - rx_len))) ++
          drop (Z.to_nat receive_length) data_buffer /\
    pos' = (pos + Z.to_nat (receive_length - rx_len))%nat.
Proof.
  intros Hrl.
  induction rets as [|rc rets IH];
    intros pos data_buffer rx_len out pos' Hlen Hbuf Hfit Hrun;
    cbn [mpsse_read_loop] in Hrun;
    destruct (rx_len =? receive_length) eqn:Edone;
    try discriminate Hrun.
  - apply Z.eqb_eq in Edone. subst rx_len. injection Hrun as <- <-.
    rewrite Z.sub_diag. change (Z.to_nat 0) with 0%nat. cbn [seq map app].
    now rewrite take_drop, Nat.add_0_r.
  - apply Z.eqb_eq in Edone. subst rx_len. injection Hrun as <- <-.
    rewrite Z.sub_diag. change (Z.to_nat 0) with 0%nat. cbn [seq map app].
    now rewrite take_drop, Nat.add_0_r.
  - apply Z.eqb_neq in Edone.
    destruct (rc <? 0) eqn:Eneg; [ discriminate Hrun | ].
    apply Z.ltb_ge in Eneg.
    cbn [reads_fit] in Hfit.
    destruct Hfit as [H0 | [Hneg | (Hrc & Hfit)]]; [ lia | lia | ].
    apply rbind_ok in Hrun as (buf1 & Hstore & Hrun).
    unfold store_block in Hstore.
    rewrite length_map, length_seq in Hstore.
    replace ((0 <=? rx_len)
             && (rx_len + Z.of_nat (Z.to_nat rc)
                 <=? Z.of_nat (length data_buffer)))
      with true in Hstore by zbool.
    injection Hstore as <-.
    unfold uint16 in Hrun. rewrite Z.mod_small in Hrun by lia.
    apply IH in Hrun.
    + destruct Hrun as (-> & ->). split; [ | lia ].
      rewrite map_seq_from.
      assert (Hl1 : length (take (Z.to_nat rx_len) data_buffer)
                    = Z.to_nat rx_len) by (rewrite length_take; lia).
      assert (Hl2 : length (map rx (seq pos (Z.to_nat rc))) = Z.to_nat rc)
        by (now rewrite length_map, length_seq).
      replace (Z.to_nat (rx_len + rc)) with (Z.to_nat rx_len + Z.to_nat rc)%nat
        by lia.
      rewrite take_app_ge by lia. rewrite Hl1.
      replace (Z.to_nat rx_len + Z.to_nat rc - Z.to_nat rx_len)%nat
        with (Z.to_nat rc) by lia.
      rewrite take_app_length' by lia.
      rewrite !drop_app_ge by lia.
      rewrite Hl1, Hl2, drop_drop.
      replace (Z.to_nat (receive_length - rx_len))
        with (Z.to_nat rc + Z.to_nat (receive_length - (rx_len + rc)))%nat
        by lia.
      rewrite seq_app, map_app, <- !app_assoc.
      do 3 f_equal. f_equal. lia.
    + lia.
    + rewrite !length_app, length_take, length_map, length_seq, length_drop.
      lia.
    + replace (receive_length - (rx_len + rc))
        with (receive_length - rx_len - rc) by lia.
      exact Hfit.
Qed.

Lemma mpsse_read_loop_returns (rx : nat -> Z) (receive_length : Z)
    (rets : list Z) :
  0 <= receive_length < 65536 ->
  forall (pos : nat) (data_buffer : list Z) (rx_len : Z),
    0 <= rx_len <= receive_length ->
    receive_length <= Z.of_nat (length data_buffer) ->
    Forall (fun rc => 0 <= rc) rets ->
    reads_fit rets (receive_length - rx_len) ->
    fold_right Z.add 0 rets = receive_length - rx_len ->
    exists out pos',
      mpsse_read_loop rets rx pos data_buffer rx_len receive_length
        = Ok (out, pos').
Proof.
  intros Hrl.
  induction rets as [|rc rets IH];
    intros pos data_buffer rx_len Hlen Hbuf Hpos Hfit Hsum;
    cbn [mpsse_read_loop];
    destruct (rx_len =? receive_length) eqn:Edone; eauto;
    apply Z.eqb_neq in Edone; cbn [fold_right] in Hsum; [ lia | ].
  apply Forall_cons in Hpos as (Hrc0 & Hpos).
  replace (rc <? 0) with false by zbool.
  cbn [reads_fit] in Hfit.
  destruct Hfit as [H0 | [Hneg | (Hrc & Hfit)]]; [ lia | lia | ].
  unfold store_block. rewrite length_map, length_seq.
  replace ((0 <=? rx_len)
           && (rx_len + Z.of_nat (Z.to_nat rc)
               <=? Z.of_nat (length data_buffer)))
    with true by zbool.
  cbn [rbind]. unfold uint16. rewrite Z.mod_small by lia.
  apply IH.
  - lia.
  - rewrite !length_app, length_take, length_map, length_seq, length_drop.
    lia.
  - exact Hpos.
  - replace (receive_length - (rx_len + rc))
      with (receive_length - rx_len - rc) by lia.
    exact Hfit.
  - lia.
Qed.

(** X29: the read loop of [mpsse_xfer] puts the answer together from
    whatever pieces [ftdi_read_data] returns it in.  When every call
    returns at most what it was asked for and the pieces add up to
    [receive_length], the loop returns; whenever it returns, it has
    filled the first [receive_length] places of the buffer with the
    next [receive_length] bytes of the stream, in order, and left the
    rest of the buffer as it was, which is the transfer the other
    functions count on; and when the first call returns an error, the
    run ends with exit status 2. *)
Theorem mpsse_read_loop_assembles_pieces (rx : nat -> Z) (pos : nat)
    (data_buffer : list Z) (receive_length : Z) (rets : list Z) :
  0 <= receive_length < 65536 ->
  receive_length <= Z.of_nat (length data_buffer) ->
  reads_fit rets receive_length ->
  (Forall (fun rc => 0 <= rc) rets ->
   fold_right Z.add 0 rets = receive_length ->
   mpsse_read_loop rets rx pos data_buffer 0 receive_length =
     Ok (map rx (seq pos (Z.to_nat receive_length)) ++
         drop (Z.to_nat receive_length) data_buffer,
         (pos + Z.to_nat receive_length)%nat)) /\
  (forall out pos',
      mpsse_read_loop rets rx pos data_buffer 0 receive_length
        = Ok (out, pos') ->
      out = map rx (seq pos (Z.to_nat receive_length)) ++
            drop (Z.to_nat receive_length) data_buffer /\
      pos' = (pos + Z.to_nat receive_length)%nat) /\
  (forall rc rest,
      rets = rc :: rest -> rc < 0 -> 0 < receive_length ->
      mpsse_read_loop rets rx pos data_buffer 0 receive_length = Exit 2).
Proof.
  intros Hrl Hbuf Hfit.
  assert (Hright : forall out pos',
             mpsse_read_loop rets rx pos data_buffer 0 receive_length
               = Ok (out, pos') ->
             out = map rx (seq pos (Z.to_nat receive_length)) ++
                   drop (Z.to_nat receive_length) data_buffer /\
             pos' = (pos + Z.to_nat receive_length)%nat).
  { intros out pos' Hrun.
    apply (mpsse_read_loop_collects rx receive_length rets Hrl) in Hrun;
      [ | lia | exact Hbuf | now rewrite Z.sub_0_r ].
    rewrite Z.sub_0_r in Hrun. exact Hrun. }
  split; [ | split; [ exact Hright | ] ].
  - intros Hpos Hsum.
    destruct (mpsse_read_loop_returns rx receive_length rets Hrl pos
                data_buffer 0 ltac:(lia) Hbuf Hpos
                ltac:(now rewrite Z.sub_0_r) ltac:(lia))
      as (out & pos' & Hrun).
    rewrite Hrun. destruct (Hright out pos' Hrun) as (-> & ->). reflexivity.
  - intros rc rest -> Hrc Hpos. cbn [mpsse_read_loop].
    replace (0 =? receive_length) with false by zbool.
    now replace (rc <? 0) with true by zbool.
Qed.

Lemma mpsse_read_loop_assembles_pieces_witness :
  (Forall (fun rc => 0 <= rc) [1; 0; 2] ->
   fold_right Z.add 0 [1; 0; 2] = 3 ->
   mpsse_read_loop [1; 0; 2] (fun k => Z.of_nat k) 5 [0; 0; 0; 0x77] 0 3 =
     Ok (map (fun k => Z.of_nat k) (seq 5 (Z.to_nat 3)) ++
         drop (Z.to_nat 3) [0; 0; 0; 0x77],
         (5 + Z.to_nat 3)%nat)) /\
  (forall out pos',
      mpsse_read_loop [1; 0; 2] (fun k => Z.of_nat k) 5 [0; 0; 0; 0x77] 0 3
        = Ok (out, pos') ->
      out = map (fun k => Z.of_nat k) (seq 5 (Z.to_nat 3)) ++
            drop (Z.to_nat 3) [0; 0; 0; 0x77] /\
      pos' = (5 + Z.to_nat 3)%nat) /\
  (forall rc rest,
      [1; 0; 2] = rc :: rest -> rc < 0 -> 0 < 3 ->
      mpsse_read_loop [1; 0; 2] (fun k => Z.of_nat k) 5 [0; 0; 0; 0x77] 0 3
        = Exit 2).
Proof.
  apply (mpsse_read_loop_assembles_pieces (fun k => Z.of_nat k) 5
           [0; 0; 0; 0x77] 3 [1; 0; 2]).
  - lia.
  - simpl. lia.
  - simpl. right. right. split; [ lia | ].
    right. right. split; [ lia | ].
    right. right. split; [ lia | exact I ].
Defined.

(** X30: [ecp_jtag_cmd] loads its command into the instruction register
    and nothing into the data register, and
    [enter_spi_background_mode] loads the instruction 0x3A and then the
    two bytes 0xFE and 0x68 into the data register: a TAP that is in
    state [s] (any state but Shift-DR) and is clocked with the pulses
    sent meets exactly these bits, each byte from bit 0 on, in Shift-IR
    and in Shift-DR, and ends in Run-Test/Idle, where the state
    variable is as well. *)
Theorem background_commands_load_registers (s : TapState) (cmd : Z)
    (st : jtag) :
  current_state st = s ->
  s <> STATE_SHIFT_DR ->
  (exists st' evs,
      ecp_jtag_cmd 8 cmd st = Ok st' /\
      trace st' = trace st ++ evs /\
      current_state st' = STATE_RUN_TEST_IDLE /\
      tap_clock s (wire evs) =
        Ok (state_code STATE_RUN_TEST_IDLE, jtag_bits [cmd], [])) /\
  (exists st' evs,
      enter_spi_background_mode 8 st = Ok st' /\
      trace st' = trace st ++ evs /\
      current_state st' = STATE_RUN_TEST_IDLE /\
      tap_clock s (wire evs) =
        Ok (state_code STATE_RUN_TEST_IDLE, jtag_bits [0x3A],
            jtag_bits [0xFE; 0x68])).
Proof.
  intros Hs Hns. split.
  - unfold ecp_jtag_cmd.
    rewrite (go_to_state_run8 s STATE_SHIFT_IR st Hs). cbn [rbind].
    rewrite (jtag_tap_shift_run _ _ 8 true _ STATE_EXIT1_IR);
      [ | lia | vm_compute; congruence | vm_compute; congruence
        | reflexivity ].
    cbn [rbind snd].
    rewrite (go_to_state_run8 STATE_EXIT1_IR STATE_RUN_TEST_IDLE)
      by reflexivity.
    cbn [rbind]. rewrite jtag_wait_time_32.
    eexists _, _. split; [ reflexivity | ].
    cbn [emit advanced moved trace current_state].
    split; [ rewrite <- !app_assoc; reflexivity | ].
    split; [ reflexivity | ].
    rewrite !wire_app, !wire_shift_events by lia.
    rewrite tap_clock_app, (tap_clock_nav_ir s Hns). cbn [rbind].
    rewrite tap_clock_app, (proj1 (tap_clock_shift [cmd] 8 ltac:(lia))).
    cbn [rbind].
    rewrite tap_clock_app.
    change (tap_clock STATE_EXIT1_IR
              (wire (nav_events STATE_EXIT1_IR STATE_RUN_TEST_IDLE)))
      with (@Ok (Z * list bool * list bool)
              (state_code STATE_RUN_TEST_IDLE, [], [])).
    cbn [rbind].
    change (wire [EvWrite [MC_CLK_N8; 4; 0]]) with (@nil (bool * bool)).
    cbn [tap_clock rbind app]. rewrite !app_nil_r.
    change (Z.to_nat 8) with 8%nat. now rewrite input_bits_byte.
  - unfold enter_spi_background_mode.
    rewrite (go_to_state_run8 s STATE_SHIFT_IR st Hs). cbn [rbind].
    rewrite (jtag_tap_shift_run _ _ 8 true _ STATE_EXIT1_IR);
      [ | lia | vm_compute; congruence | vm_compute; congruence
        | reflexivity ].
    cbn [rbind].
    change (Z.to_nat (8 mod 256 / 8)) with 1%nat.
    change (Z.to_nat (8 mod 256)) with 8%nat.
    unfold delivered at 1. cbn [seq map app drop].
    rewrite store_0. cbn [rbind]. rewrite store_1. cbn [rbind].
    rewrite (go_to_state_run8 STATE_EXIT1_IR STATE_SHIFT_DR) by reflexivity.
    cbn [rbind].
    rewrite (jtag_tap_shift_run _ _ 16 true _ STATE_EXIT1_DR);
      [ | lia | vm_compute; congruence | vm_compute; congruence
        | reflexivity ].
    cbn [rbind snd].
    rewrite (go_to_state_run8 STATE_EXIT1_DR STATE_RUN_TEST_IDLE)
      by reflexivity.
    eexists _, _. split; [ reflexivity | ].
    cbn [advanced moved trace current_state].
    split; [ rewrite <- !app_assoc; reflexivity | ].
    split; [ reflexivity | ].
    rewrite !wire_app, !wire_shift_events by lia.
    rewrite tap_clock_app, (tap_clock_nav_ir s Hns). cbn [rbind].
    rewrite tap_clock_app,
      (proj1 (tap_clock_shift [0x3A; 0; 0; 0] 8 ltac:(lia))).
    cbn [rbind].
    rewrite tap_clock_app.
    change (tap_clock STATE_EXIT1_IR
              (wire (nav_events STATE_EXIT1_IR STATE_SHIFT_DR)))
      with (@Ok (Z * list bool * list bool) (state_code STATE_SHIFT_DR, [], [])).
    cbn [rbind].
    rewrite tap_clock_app,
      (proj2 (tap_clock_shift [0xFE; 0x68; 0; 0] 16 ltac:(lia))).
    cbn [rbind].
    change (tap_clock STATE_EXIT1_DR
              (wire (nav_events STATE_EXIT1_DR STATE_RUN_TEST_IDLE)))
      with (@Ok (Z * list bool * list bool)
              (state_code STATE_RUN_TEST_IDLE, [], [])).
    cbn [rbind app]. rewrite !app_nil_r.
    reflexivity.
Qed.

Lemma background_commands_load_registers_witness :
  (exists st' evs,
      ecp_jtag_cmd 8 0x79 (jtag_at STATE_EXIT1_DR (fun _ => 0)) = Ok st' /\
      trace st' = [] ++ evs /\
      current_state st' = STATE_RUN_TEST_IDLE /\
      tap_clock STATE_EXIT1_DR (wire evs) =
        Ok (state_code STATE_RUN_TEST_IDLE, jtag_bits [0x79], [])) /\
  (exists st' evs,
      enter_spi_background_mode 8 (jtag_at STATE_EXIT1_DR (fun _ => 0))
        = Ok st' /\
      trace st' = [] ++ evs /\
      current_state st' = STATE_RUN_TEST_IDLE /\
      tap_clock STATE_EXIT1_DR (wire evs) =
        Ok (state_code STATE_RUN_TEST_IDLE, jtag_bits [0x3A],
            jtag_bits [0xFE; 0x68])).
Proof.
  apply (background_commands_load_registers STATE_EXIT1_DR 0x79
           (jtag_at STATE_EXIT1_DR (fun _ => 0))).
  - reflexivity.
  - discriminate.
Defined.
